(** * The flip puzzle of the Starcast receiver (starcast_game.js)

    A shallow embedding of the puzzle logic of
    [cast.games.starcast.StarcastGame]: the matrix [pieces_] of sprites with
    their [flipped] flag, the scramble done when the puzzle image has
    loaded, [flipPieces] (the handler of a sender's flip message), the
    solved test, and the two score texts.

    JavaScript keeps every mutation made before an exception is thrown, so
    a method is a function from the game object to an outcome (normal
    completion or the thrown error) paired with the game object as the
    method left it. *)

From Stdlib Require Import ZArith QArith Lia String.
From stdpp Require Import base option list strings gmap.

Set Default Proof Using "Type".
Open Scope string_scope.
Open Scope Z_scope.

(** ** Data *)

(** A text built with [+] from string literals and numbers; the number
    pieces are kept as numbers. The two characters [\n] of a literal stand
    for the line break of the source's literal. *)
Inductive frag : Type :=
  | Str (s : string)
  | Num (z : Z).

Definition text : Type := list frag.

(** A puzzle piece: the PIXI sprite's [flipped] flag and horizontal scale,
    and the targets of the tweens started on its scale (a tween changes
    [scale.x] later, over 500 ms, not during the call that starts it). *)
Record piece : Type := Piece {
  flipped : bool;
  scale_x : Q;
  tweens : list Q
}.

(** What [container_.addChild] received, as far as it carries text: the
    heads-up display (the one object [hud_], whose text is the field
    [hud_]) and the messages, each a fresh [PIXI.Text]. *)
Inductive child : Type :=
  | HudChild
  | SuggestionMessage (t : text)
  | CongratMessage (t : text)
  | CountflipsMessage (t : text).

(** The fields of the game object that the puzzle logic reads or writes.
    [random_calls] counts the calls of [Math.random] made so far. *)
Record game : Type := Game {
  pieces_ : list (list piece);
  suggestedFlipCount_ : Z;
  extraFlipsThanNecessary_ : Z;
  playerEachFlipCount_ : Z;
  hud_ : option text;
  container_ : list child;
  backgroundSprite_visible : bool;
  random_calls : nat
}.

Definition set_pieces (g : list (list piece)) (st : game) : game :=
  Game g (suggestedFlipCount_ st) (extraFlipsThanNecessary_ st)
       (playerEachFlipCount_ st) (hud_ st) (container_ st)
       (backgroundSprite_visible st) (random_calls st).

Definition set_suggested (z : Z) (st : game) : game :=
  Game (pieces_ st) z (extraFlipsThanNecessary_ st)
       (playerEachFlipCount_ st) (hud_ st) (container_ st)
       (backgroundSprite_visible st) (random_calls st).

Definition set_player (z : Z) (st : game) : game :=
  Game (pieces_ st) (suggestedFlipCount_ st) (extraFlipsThanNecessary_ st)
       z (hud_ st) (container_ st)
       (backgroundSprite_visible st) (random_calls st).

Definition set_hud (h : option text) (st : game) : game :=
  Game (pieces_ st) (suggestedFlipCount_ st) (extraFlipsThanNecessary_ st)
       (playerEachFlipCount_ st) h (container_ st)
       (backgroundSprite_visible st) (random_calls st).

Definition set_container (c : list child) (st : game) : game :=
  Game (pieces_ st) (suggestedFlipCount_ st) (extraFlipsThanNecessary_ st)
       (playerEachFlipCount_ st) (hud_ st) c
       (backgroundSprite_visible st) (random_calls st).

Definition set_background (b : bool) (st : game) : game :=
  Game (pieces_ st) (suggestedFlipCount_ st) (extraFlipsThanNecessary_ st)
       (playerEachFlipCount_ st) (hud_ st) (container_ st)
       b (random_calls st).

Definition set_random_calls (k : nat) (st : game) : game :=
  Game (pieces_ st) (suggestedFlipCount_ st) (extraFlipsThanNecessary_ st)
       (playerEachFlipCount_ st) (hud_ st) (container_ st)
       (backgroundSprite_visible st) k.

(** The fields as the constructor sets them. *)
Definition new_StarcastGame : game :=
  Game [] 0 10 0 None [] true 0.

(** ** Methods as state transformers that may throw *)

Inductive error : Type :=
  | TypeError
  | Error (message : string).

Inductive outcome (A : Type) : Type :=
  | Normal (a : A)
  | Throw (e : error).
Arguments Normal {A} a.
Arguments Throw {A} e.

Definition M (A : Type) : Type := game -> outcome A * game.

Definition ret {A} (a : A) : M A := fun st => (Normal a, st).

Definition bind {A B} (m : M A) (k : A -> M B) : M B :=
  fun st =>
    match m st with
    | (Normal a, st') => k a st'
    | (Throw e, st') => (Throw e, st')
    end.

Definition throw {A} (e : error) : M A := fun st => (Throw e, st).

Definition gets {A} (f : game -> A) : M A := fun st => (Normal (f st), st).

Definition modify (f : game -> game) : M unit := fun st => (Normal tt, f st).

Declare Scope js_scope.
Delimit Scope js_scope with js.
Notation "x <- m ;; k" := (bind m (fun x => k))
  (at level 100, m at next level, right associativity) : js_scope.
Notation "m ;; k" := (bind m (fun _ => k))
  (at level 100, right associativity) : js_scope.
Open Scope js_scope.

(** [for (i = start; i < start + count; i++) body(i)]. *)
Fixpoint for_ (start count : nat) (body : nat -> M unit) : M unit :=
  match count with
  | O => ret tt
  | S k => body start ;; for_ (S start) k body
  end.

(** The same loop for a body that may [return] from the enclosing
    function: [Some r] is [return r], [None] goes on. *)
Fixpoint for_return {R} (start count : nat) (body : nat -> M (option R))
  : M (option R) :=
  match count with
  | O => ret None
  | S k =>
      r <- body start ;;
      match r with
      | Some v => ret (Some v)
      | None => for_return (S start) k body
      end
  end.

(** [a[z]] for an array [a] and a number [z]: [undefined] (here [None])
    outside [0 .. a.length - 1]. *)
Definition js_index {A} (a : list A) (z : Z) : option A :=
  if decide (0 <= z) then a !! Z.to_nat z else None.

(** The value of [this.pieces_[r][c]]: reading [[c]] from an undefined row
    throws a TypeError; a missing cell of an existing row is [undefined]. *)
Definition pieces_at (r c : Z) : M (option piece) :=
  fun st =>
    match js_index (pieces_ st) r with
    | None => (Throw TypeError, st)
    | Some row => (Normal (js_index row c), st)
    end.

(** [f(this.pieces_[r][c])] for a function [f] that starts by reading a
    property of its argument and then mutates that sprite: on [undefined]
    it throws a TypeError, otherwise the sprite stored at [r], [c] is the
    one mutated. *)
Definition call_on_piece (f : piece -> piece) (r c : Z) : M unit :=
  p <- pieces_at r c ;;
  match p with
  | None => throw TypeError
  | Some _ =>
      modify (fun st =>
        set_pieces (alter (alter f (Z.to_nat c)) (Z.to_nat r) (pieces_ st)) st)
  end.

(** ** The source's functions *)

Definition flipPieceTween (p : piece) : piece :=
  let target := if Qeq_bool (scale_x p) 0 then 1%Q else 0%Q in
  Piece (negb (flipped p)) (scale_x p) (tweens p ++ [target]).

Definition flipPiece (p : piece) : piece :=
  Piece (negb (flipped p))
        (if Qeq_bool (scale_x p) 0 then 1%Q else 0%Q)
        (tweens p).

(** The sprite made by [createSpriteFromSpriteSheet], scaled by
    [XScaleRate]. *)
Definition createSpriteFromSpriteSheet (XScaleRate : Q) : piece :=
  Piece false XScaleRate [].

(** [container_.addChild(c)]: a child already in the container is moved to
    the end; only the heads-up display is ever added twice. *)
Definition child_is_hud (c : child) : bool :=
  match c with HudChild => true | _ => false end.

Definition addChild (c : child) : M unit :=
  modify (fun st =>
    let others :=
      if child_is_hud c
      then List.filter (fun x => negb (child_is_hud x)) (container_ st)
      else container_ st in
    set_container (others ++ [c]) st).

Definition checkFlipsFromPlayerMessage : M unit :=
  hudText_ <- gets (fun st =>
    [ Str "The Player each flips : "; Num (playerEachFlipCount_ st);
      Str " times\n";
      Str "The Player final points from givenPoints : ";
      Num (10 * (suggestedFlipCount_ st + extraFlipsThanNecessary_ st
                 - playerEachFlipCount_ st));
      Str " points\n" ]) ;;
  modify (set_hud (Some hudText_)) ;;
  addChild HudChild.

Definition displayCountflipsFromPlayerMessage : M unit :=
  message <- gets (fun st =>
    [ Str "The Player each flips : "; Num (playerEachFlipCount_ st);
      Str " times\n";
      Str "The Player final points from givenPoints : ";
      Num (10 * (suggestedFlipCount_ st - playerEachFlipCount_ st));
      Str " points\n" ]) ;;
  addChild (CountflipsMessage message).

Definition displayFlipSuggestionMessage : M unit :=
  message <- gets (fun st =>
    [ Str "If you can find the solution with a less flip, there will be more points\n";
      Str "Hint! Try to flip as few as these flips :D :";
      Num (suggestedFlipCount_ st) ]) ;;
  addChild (SuggestionMessage message).

Definition displayCongratMessage : M unit :=
  addChild (CongratMessage [Str "Congratulation!!"]).

Definition scoreSystem : M unit :=
  p <- gets playerEachFlipCount_ ;;
  s <- gets suggestedFlipCount_ ;;
  if p =? s then displayCountflipsFromPlayerMessage
  else if p >? s then displayCountflipsFromPlayerMessage
  else ret tt.

Definition checkPuzzleIsSolved : M bool :=
  n <- gets (fun st => length (pieces_ st)) ;;
  r <- for_return 0 n (fun i =>
         for_return 0 n (fun j =>
           p <- pieces_at (Z.of_nat i) (Z.of_nat j) ;;
           match p with
           | None => throw TypeError
           | Some pc => if flipped pc then ret (Some false) else ret None
           end)) ;;
  match r with
  | Some b => ret b
  | None => ret true
  end.

(** [flipPieces(playerSprite, rowOrCol, numRowOrCol)]; the sprite argument
    is not used by the body. The loop bound [this.pieces_.length] is read
    once: no loop body changes it. *)
Definition flipPieces (rowOrCol : string) (numRowOrCol : Z) : M unit :=
  n <- gets (fun st => length (pieces_ st)) ;;
  (if String.eqb rowOrCol "ROW" then
     for_ 0 n (fun i => call_on_piece flipPieceTween numRowOrCol (Z.of_nat i))
   else if String.eqb rowOrCol "COL" then
     for_ 0 n (fun i => call_on_piece flipPieceTween (Z.of_nat i) numRowOrCol)
   else if String.eqb rowOrCol "DIAGONAL" then
     for_ 0 n (fun i =>
       call_on_piece flipPieceTween (Z.of_nat n - Z.of_nat i - 1) (Z.of_nat i))
   else
     throw (Error (String.append
                     "Only Row, COL, DIAGONAL are allowed but received "
                     rowOrCol))) ;;
  modify (fun st => set_player (playerEachFlipCount_ st + 1) st) ;;
  checkFlipsFromPlayerMessage ;;
  solved <- checkPuzzleIsSolved ;;
  if solved then
    displayCongratMessage ;;
    scoreSystem ;;
    modify (set_background false)
  else ret tt.

(** [this.pieces_.push([])]. *)
Definition push_row : M unit :=
  modify (fun st => set_pieces (pieces_ st ++ [[]]) st).

(** [this.pieces_[row].push(p)]. *)
Definition push_piece (row : nat) (p : piece) : M unit :=
  fun st =>
    match pieces_ st !! row with
    | None => (Throw TypeError, st)
    | Some _ =>
        (Normal tt, set_pieces (alter (fun r => (r ++ [p])%list) row (pieces_ st)) st)
    end.

(** [Math.random()]: the successive values come from [rnd]. *)
Definition Math_random (rnd : nat -> Q) : M Q :=
  fun st =>
    (Normal (rnd (random_calls st)), set_random_calls (S (random_calls st)) st).

Definition Qlt_bool (x y : Q) : bool := negb (Qle_bool y x).

Definition one_half : Q := (1 # 2)%Q.

(** [instantiatePuzzlePiecesAndControlButtons(totalRow, totalCol, ...)],
    without the control buttons, which carry no puzzle state. [XScaleRate]
    is the scale computed from the loaded image's width. *)
Definition instantiatePuzzlePiecesAndControlButtons
    (rnd : nat -> Q) (XScaleRate : Q) (totalRow totalCol : nat) : M unit :=
  for_ 0 totalRow (fun row =>
    push_row ;;
    for_ 0 totalCol (fun col =>
      push_piece row (createSpriteFromSpriteSheet XScaleRate))) ;;
  (* flip random rows *)
  for_ 0 totalRow (fun row =>
    x <- Math_random rnd ;;
    if Qlt_bool x one_half then
      (for_ 0 totalCol (fun col =>
         call_on_piece flipPiece (Z.of_nat row) (Z.of_nat col)) ;;
       modify (fun st => set_suggested (suggestedFlipCount_ st + 1) st))
    else ret tt) ;;
  (* flip random cols *)
  for_ 0 totalCol (fun col =>
    x <- Math_random rnd ;;
    if Qlt_bool x one_half then
      (for_ 0 totalRow (fun row =>
         call_on_piece flipPiece (Z.of_nat row) (Z.of_nat col)) ;;
       modify (fun st => set_suggested (suggestedFlipCount_ st + 1) st))
    else ret tt) ;;
  (* randomly flip diagonal or not *)
  x <- Math_random rnd ;;
  (if Qlt_bool x one_half then
     (for_ 0 totalCol (fun i =>
        len <- gets (fun st => length (pieces_ st)) ;;
        call_on_piece flipPiece (Z.of_nat len - Z.of_nat i - 1) (Z.of_nat i)) ;;
      modify (fun st => set_suggested (suggestedFlipCount_ st + 1) st))
   else ret tt) ;;
  checkFlipsFromPlayerMessage ;;
  displayFlipSuggestionMessage.

(** [onAssetsLoaded_] fixes the puzzle at six rows and six columns. *)
Definition totalPuzzleRows : nat := 6.
Definition totalPuzzleColumns : nat := 6.

Definition imageOnLoad (rnd : nat -> Q) (XScaleRate : Q) : M unit :=
  instantiatePuzzlePiecesAndControlButtons rnd XScaleRate
    totalPuzzleRows totalPuzzleColumns.

(** The handler run on each flip message of a list in turn; a message is
    the pair of its [rowOrCol] and [numRowOrCol] fields. *)
Fixpoint flipAll (msgs : list (string * Z)) : M unit :=
  match msgs with
  | [] => ret tt
  | (rowOrCol, numRowOrCol) :: rest =>
      flipPieces rowOrCol numRowOrCol ;; flipAll rest
  end.

(** ** Sample games *)

(** Random values of which only the first is below one half: the scramble
    flips row 0 and nothing else. *)
Definition rnd_first_only (k : nat) : Q :=
  match k with O => 0%Q | _ => 1%Q end.

(** The six by six game after the image has loaded, with row 0 flipped and
    a suggested flip count of 1. *)
Definition game_row0_scrambled : game :=
  (imageOnLoad rnd_first_only 1%Q new_StarcastGame).2.

(** Random values that flip rows 0 to 4 and every column, and leave the
    diagonal: eleven scramble operations whose result is row 5 flipped. *)
Definition rnd_all_but_row5 (k : nat) : Q :=
  if (k <? 5)%nat then 0%Q
  else if (k =? 5)%nat then 1%Q
  else if (k <? 12)%nat then 0%Q
  else 1%Q.

Definition game_row5_left : game :=
  (imageOnLoad rnd_all_but_row5 1%Q new_StarcastGame).2.

(** A three by three game in the solved position. *)
Definition game_3x3 : game :=
  (instantiatePuzzlePiecesAndControlButtons (fun _ => 1%Q) 1%Q 3 3
     new_StarcastGame).2.

(** ** Vocabulary of the statements *)

(** The method [m] leaves the part [proj] of the game object as it found
    it, whether it completes or throws. *)
Definition keeps {A B} (proj : game -> A) (m : M B) : Prop :=
  forall st, proj (m st).2 = proj st.

(** The method [m] changes nothing and its outcome depends on the pieces
    only. *)
Definition reads_pieces {A} (m : M A) : Prop :=
  exists f : list (list piece) -> outcome A,
    forall st, m st = (f (pieces_ st), st).

(** The last step of the scramble: the diagonal, flipped or not. *)
Definition scramble_diagonal_step (rnd : nat -> Q) (totalCol : nat) : M unit :=
  x <- Math_random rnd ;;
  if Qlt_bool x one_half then
    (for_ 0 totalCol (fun i =>
       len <- gets (fun st => length (pieces_ st)) ;;
       call_on_piece flipPiece (Z.of_nat len - Z.of_nat i - 1) (Z.of_nat i)) ;;
     modify (fun st => set_suggested (suggestedFlipCount_ st + 1) st))
  else ret tt.

(** A matrix of [rows] rows of [cols] cells each; the puzzle is square. *)
Definition rect (rows cols : nat) (g : list (list piece)) : Prop :=
  length g = rows /\ Forall (fun row => length row = cols) g.

Definition square (n : nat) (g : list (list piece)) : Prop := rect n n g.

Definition cell (g : list (list piece)) (a b : nat) : option piece :=
  row ← g !! a; row !! b.

Definition flag_at (g : list (list piece)) (a b : nat) : option bool :=
  flipped <$> cell g a b.

Definition flags (g : list (list piece)) : list (list bool) :=
  map (map flipped) g.

(** Calling [f] on the cells listed in [ps], in that order. *)
Definition toggle (f : piece -> piece) (g : list (list piece)) (p : nat * nat)
  : list (list piece) :=
  alter (alter f p.2) p.1 g.

Definition toggle_cells (f : piece -> piece) (ps : list (nat * nat))
    (g : list (list piece)) : list (list piece) :=
  foldl (toggle f) g ps.

(** How often the list [ps] names the cell [p]. *)
Definition visits (p : nat * nat) (ps : list (nat * nat)) : nat :=
  length (filter (fun q => q = p) ps).

(** A flip message that names an axis and, for a row or a column, an index
    inside an [n] by [n] puzzle. *)
Definition valid_flip (n : nat) (rowOrCol : string) (numRowOrCol : Z) : Prop :=
  ((rowOrCol = "ROW" \/ rowOrCol = "COL") /\ 0 <= numRowOrCol < Z.of_nat n)
  \/ rowOrCol = "DIAGONAL".

(** The cells a valid flip visits, in the order of its loop. *)
Definition cells_of (n : nat) (rowOrCol : string) (numRowOrCol : Z)
  : list (nat * nat) :=
  if String.eqb rowOrCol "ROW" then
    map (fun i => (Z.to_nat numRowOrCol, i)) (seq 0 n)
  else if String.eqb rowOrCol "COL" then
    map (fun i => (i, Z.to_nat numRowOrCol)) (seq 0 n)
  else
    map (fun i => (Z.to_nat (Z.of_nat n - Z.of_nat i - 1), i)) (seq 0 n).

(** The cells visited by a list of flips, one flip after the other. *)
Definition cells_of_all (n : nat) (msgs : list (string * Z))
  : list (nat * nat) :=
  concat (map (fun m => cells_of n m.1 m.2) msgs).

(** Two messages are the same flip when they name the same row, the same
    column, or both the diagonal (whose index is ignored). *)
Definition flip_key (m : string * Z) : string * Z :=
  if String.eqb m.1 "DIAGONAL" then (m.1, 0) else m.

Definition occurrences (k : string * Z) (msgs : list (string * Z)) : nat :=
  length (filter (fun m => flip_key m = k) msgs).

(** The loop of [flipPieces], or its [throw]. *)
Definition flip_loop (rowOrCol : string) (numRowOrCol : Z) : M unit :=
  n <- gets (fun st => length (pieces_ st)) ;;
  if String.eqb rowOrCol "ROW" then
    for_ 0 n (fun i => call_on_piece flipPieceTween numRowOrCol (Z.of_nat i))
  else if String.eqb rowOrCol "COL" then
    for_ 0 n (fun i => call_on_piece flipPieceTween (Z.of_nat i) numRowOrCol)
  else if String.eqb rowOrCol "DIAGONAL" then
    for_ 0 n (fun i =>
      call_on_piece flipPieceTween (Z.of_nat n - Z.of_nat i - 1) (Z.of_nat i))
  else
    throw (Error (String.append
                    "Only Row, COL, DIAGONAL are allowed but received "
                    rowOrCol)).

(** What [flipPieces] does once its loop is over. *)
Definition flip_report : M unit :=
  modify (fun st => set_player (playerEachFlipCount_ st + 1) st) ;;
  checkFlipsFromPlayerMessage ;;
  solved <- checkPuzzleIsSolved ;;
  if solved then
    displayCongratMessage ;;
    scoreSystem ;;
    modify (set_background false)
  else ret tt.

(** The game object after [flip_report] when the solved test gives [b]. *)
Definition report_state (b : bool) (st : game) : game :=
  let st1 := set_player (playerEachFlipCount_ st + 1) st in
  let st2 := (checkFlipsFromPlayerMessage st1).2 in
  if b then
    set_background false (scoreSystem (displayCongratMessage st2).2).2
  else st2.

(** How many of the [k] calls of [Math.random] starting with call number
    [base] return less than one half. *)
Fixpoint fired (rnd : nat -> Q) (base k : nat) : nat :=
  match k with
  | O => O
  | S k' =>
      (if Qlt_bool (rnd base) one_half then 1 else 0) + fired rnd (S base) k'
  end%nat.

Definition is_countflips (c : child) : bool :=
  match c with CountflipsMessage _ => true | _ => false end.

(** The number of final score messages on display. *)
Definition countflips_shown (st : game) : nat :=
  length (List.filter is_countflips (container_ st)).

(** The points figure of a score text: its second number. *)
Definition points_of (t : text) : option Z :=
  match t with
  | [Str _; Num _; Str _; Str _; Num z; Str _] => Some z
  | _ => None
  end.

(** ** Vocabulary of the further properties *)

(** The cells visited by a scramble loop of [rounds] rounds, round [i]
    visiting the cells [pos i 0 .. pos i (inner - 1)] when its random value,
    number [base + i], is below one half. *)
Fixpoint loop_cells (rnd : nat -> Q) (base rounds inner : nat)
    (pos : nat -> nat -> nat * nat) : list (nat * nat) :=
  match rounds with
  | O => []
  | S k =>
      (loop_cells rnd base k inner pos
       ++ (if Qlt_bool (rnd (base + k)%nat) one_half
           then map (pos k) (seq 0 inner) else []))%list
  end.

(** The cells visited by the whole scramble, in its order: rows, columns,
    diagonal. *)
Definition scramble_cells (rnd : nat -> Q) (base totalRow totalCol : nat)
  : list (nat * nat) :=
  (loop_cells rnd base totalRow totalCol (fun row col => (row, col))
   ++ loop_cells rnd (base + totalRow) totalCol totalRow
        (fun col row => (row, col))
   ++ (if Qlt_bool (rnd (base + totalRow + totalCol)%nat) one_half
       then map (fun i => (Z.to_nat (Z.of_nat totalRow - Z.of_nat i - 1), i))
              (seq 0 totalCol)
       else []))%list.

(** The scramble written as flip messages: one for each random value below
    one half. *)
Fixpoint fired_axis (axis : string) (rnd : nat -> Q) (base k : nat)
  : list (string * Z) :=
  match k with
  | O => []
  | S k' =>
      (fired_axis axis rnd base k'
       ++ (if Qlt_bool (rnd (base + k')%nat) one_half
           then [(axis, Z.of_nat k')] else []))%list
  end.

Definition fired_msgs (rnd : nat -> Q) (base n : nat) : list (string * Z) :=
  (fired_axis "ROW" rnd base n
   ++ fired_axis "COL" rnd (base + n) n
   ++ (if Qlt_bool (rnd (base + n + n)%nat) one_half
       then [("DIAGONAL", 0)] else []))%list.

(** A piece is drawn with no width exactly when it is flipped. *)
Definition hidden_iff_flipped (p : piece) : Prop :=
  Qeq_bool (scale_x p) 0 = flipped p.

Definition is_congrat (c : child) : bool :=
  match c with CongratMessage _ => true | _ => false end.

(** The number of congratulation messages on display. *)
Definition congrats_shown (st : game) : nat :=
  length (List.filter is_congrat (container_ st)).


(** A child of the container that is not a final score message with a
    positive number of points. *)
Definition no_positive_final (c : child) : Prop :=
  match c with
  | CountflipsMessage t => exists z, points_of t = Some z /\ z <= 0
  | _ => True
  end.

(** The final score messages on display. *)
Definition finals (st : game) : list child :=
  List.filter is_countflips (container_ st).

(** The game objects that play goes through: the one left by the building
    and scrambling of a puzzle of [n] rows and columns on a game object
    [st0] that has no pieces yet, and the ones left by any flip message
    after that, completed or not. *)
Inductive in_play (rnd : nat -> Q) (XScaleRate : Q) (n : nat) (st0 : game)
  : game -> Prop :=
  | in_play_loaded st :
      instantiatePuzzlePiecesAndControlButtons rnd XScaleRate n n st0
        = (Normal tt, st) ->
      in_play rnd XScaleRate n st0 st
  | in_play_flipped st rowOrCol numRowOrCol :
      in_play rnd XScaleRate n st0 st ->
      in_play rnd XScaleRate n st0 (flipPieces rowOrCol numRowOrCol st).2.

(** ** The receiver around the puzzle *)

(** A player's sprite. *)
Record sprite : Type := Sprite {
  visible : bool;
  tint : Q
}.

Inductive eventType : Type :=
  | GAME_MESSAGE_RECEIVED
  | PLAYER_AVAILABLE
  | PLAYER_QUIT
  | PLAYER_DROPPED.

Inductive listener : Type :=
  | boundGameMessageCallback_
  | boundPlayerAvailableCallback_
  | boundPlayerQuitCallback_.

Inductive logged : Type :=
  | LogEvent
  | LogExtraMessageData
  | LogText (t : text).

(** The calls that leave the game object, in the order they are made. The
    callbacks they hand over or invoke are taken not to call the game
    back. *)
Inductive effect : Type :=
  | LoadedCallbackCalled (callback : nat)
  | LoaderLoad
  | ViewAppended
  | ViewRemoved
  | GameplayStateRunning
  | PlayerStatePlaying (playerId : string)
  | AnimationFrameRequested
  | Rendered
  | ImageRequested
  | ListenerAdded (type : eventType) (l : listener)
  | ListenerRemoved (type : eventType) (l : listener)
  | ReceiverStopped
  | ConsoleLog (what : logged).

(** An event of the game manager, with the two fields of the extra message
    data that the game reads. *)
Record event : Type := Event {
  statusCode : Z;
  errorDescription : string;
  playerInfo_playerId : string;
  data_rowOrCol : string;
  data_numRowOrCol : Z
}.

(** What the cast SDK answers at the time of a call: its constant for
    success, and the game manager's players; a player is known by the
    [playerId] of its record. *)
Record sdk : Type := Sdk {
  StatusCode_SUCCESS : Z;
  getPlayer : string -> option string;
  getPlayers : list string;
  getConnectedPlayers : list string
}.

(** The game object with the fields around the puzzle. [playerMap_] holds
    the sprites of [players_] themselves: a sprite is named by its index in
    [players_], which only grows. [assets_created] tells whether
    [onAssetsLoaded_] has created [backgroundSprite_], [apiImage_] and
    [diagonalControlButton_], which are [null] before. *)
Record receiver : Type := Receiver {
  game_ : game;
  players_ : list sprite;
  playerMap_ : gmap string nat;
  isRunning_ : bool;
  isLoaded_ : bool;
  loadedCallback_ : option nat;
  assets_created : bool;
  effects : list effect
}.

Definition set_game (g : game) (r : receiver) : receiver :=
  Receiver g (players_ r) (playerMap_ r) (isRunning_ r) (isLoaded_ r)
           (loadedCallback_ r) (assets_created r) (effects r).

Definition set_players (l : list sprite) (r : receiver) : receiver :=
  Receiver (game_ r) l (playerMap_ r) (isRunning_ r) (isLoaded_ r)
           (loadedCallback_ r) (assets_created r) (effects r).

Definition set_playerMap (m : gmap string nat) (r : receiver) : receiver :=
  Receiver (game_ r) (players_ r) m (isRunning_ r) (isLoaded_ r)
           (loadedCallback_ r) (assets_created r) (effects r).

Definition set_isRunning (b : bool) (r : receiver) : receiver :=
  Receiver (game_ r) (players_ r) (playerMap_ r) b (isLoaded_ r)
           (loadedCallback_ r) (assets_created r) (effects r).

Definition set_loadedCallback (c : option nat) (r : receiver) : receiver :=
  Receiver (game_ r) (players_ r) (playerMap_ r) (isRunning_ r) (isLoaded_ r)
           c (assets_created r) (effects r).

Definition set_assets_created (b : bool) (r : receiver) : receiver :=
  Receiver (game_ r) (players_ r) (playerMap_ r) (isRunning_ r) (isLoaded_ r)
           (loadedCallback_ r) b (effects r).

Definition set_effects (l : list effect) (r : receiver) : receiver :=
  Receiver (game_ r) (players_ r) (playerMap_ r) (isRunning_ r) (isLoaded_ r)
           (loadedCallback_ r) (assets_created r) l.

Definition new_receiver : receiver :=
  Receiver new_StarcastGame [] ∅ false false None false [].

Definition MAX_PLAYERS_ : nat := 4.

(** Methods of the whole game object. *)
Definition MR (A : Type) : Type := receiver -> outcome A * receiver.

Definition retR {A} (a : A) : MR A := fun r => (Normal a, r).

Definition bindR {A B} (m : MR A) (k : A -> MR B) : MR B :=
  fun r =>
    match m r with
    | (Normal a, r') => k a r'
    | (Throw e, r') => (Throw e, r')
    end.

Definition throwR {A} (e : error) : MR A := fun r => (Throw e, r).

Definition getsR {A} (f : receiver -> A) : MR A := fun r => (Normal (f r), r).

Definition modifyR (f : receiver -> receiver) : MR unit :=
  fun r => (Normal tt, f r).

(** A method of the puzzle part, run on the whole object. *)
Definition liftG {A} (m : M A) : MR A :=
  fun r => let (o, g) := m (game_ r) in (o, set_game g r).

Definition emit (e : effect) : MR unit :=
  modifyR (fun r => set_effects (effects r ++ [e])%list r).

Declare Scope rcv_scope.
Delimit Scope rcv_scope with rcv.
Notation "x <- m ;; k" := (bindR m (fun x => k))
  (at level 100, m at next level, right associativity) : rcv_scope.
Notation "m ;; k" := (bindR m (fun _ => k))
  (at level 100, right associativity) : rcv_scope.
Open Scope rcv_scope.

(** [for (i = start; i < start + count; i++)] with a body that may [break]:
    the body answers [true] to leave the loop. *)
Fixpoint forR_break (start count : nat) (body : nat -> MR bool) : MR unit :=
  match count with
  | O => retR tt
  | S k =>
      stop <- body start ;;
      if stop then retR tt else forR_break (S start) k body
  end.

(** [for (i = 0; i < l.length; i++) body(l[i])]. *)
Fixpoint forR_each {A} (l : list A) (body : A -> MR unit) : MR unit :=
  match l with
  | [] => retR tt
  | x :: rest => body x ;; forR_each rest body
  end.

(** The value of [this.playerMap_[playerId]]. *)
Definition sprite_of (r : receiver) (playerId : string) : option sprite :=
  i ← playerMap_ r !! playerId; players_ r !! i.

Definition addPlayer_ (rnd : nat -> Q) (playerId : string) : MR unit :=
  playerSprite <- getsR (fun r => sprite_of r playerId) ;;
  if match playerSprite with Some s => visible s | None => false end
  then retR tt
  else
    forR_break 0 MAX_PLAYERS_ (fun i =>
      player <- getsR (fun r => players_ r !! i) ;;
      match player with
      | Some p =>
          if negb (visible p) then
            (modifyR (fun r =>
               set_playerMap (<[playerId := i]> (playerMap_ r)) r) ;;
             modifyR (fun r =>
               set_players
                 (alter (fun s => Sprite true (tint s)) i (players_ r)) r) ;;
             x <- liftG (Math_random rnd) ;;
             modifyR (fun r =>
               set_players
                 (alter (fun s => Sprite (visible s) (x * 16777215)%Q) i
                    (players_ r)) r) ;;
             retR true)
          else retR false
      | None => retR false
      end).

Definition log_event_error (e : event) : MR unit :=
  emit (ConsoleLog (LogText [Str "Error: Event status code: ";
                             Num (statusCode e)])) ;;
  emit (ConsoleLog (LogText [Str "Reason for error: ";
                             Str (errorDescription e)])).

Definition onPlayerAvailable_ (gm : sdk) (rnd : nat -> Q) (e : event)
  : MR unit :=
  if negb (statusCode e =? StatusCode_SUCCESS gm) then log_event_error e
  else
    emit (PlayerStatePlaying (playerInfo_playerId e)) ;;
    addPlayer_ rnd (playerInfo_playerId e).

Definition onPlayerQuit_ (gm : sdk) (e : event) : MR unit :=
  if negb (statusCode e =? StatusCode_SUCCESS gm) then log_event_error e
  else
    playerSprite <- getsR (fun r => playerMap_ r !! playerInfo_playerId e) ;;
    match playerSprite with
    | Some i =>
        modifyR (fun r =>
          set_players
            (alter (fun s => Sprite false (tint s)) i (players_ r)) r)
    | None => retR tt
    end ;;
    modifyR (fun r =>
      set_playerMap (delete (playerInfo_playerId e) (playerMap_ r)) r) ;;
    if (length (getConnectedPlayers gm) =? 0)%nat then
      (emit (ConsoleLog (LogText
               [Str "No more players connected. Tearing down game."])) ;;
       emit ReceiverStopped)
    else retR tt.

(** [flipPieces] on a game object whose [backgroundSprite_] is still
    [null]: its last assignment, made when the puzzle is found solved,
    throws. *)
Definition flipPieces_no_background (rowOrCol : string) (numRowOrCol : Z)
  : M unit :=
  (flip_loop rowOrCol numRowOrCol ;;
   modify (fun st => set_player (playerEachFlipCount_ st + 1) st) ;;
   checkFlipsFromPlayerMessage ;;
   solved <- checkPuzzleIsSolved ;;
   if solved then
     (displayCongratMessage ;;
      scoreSystem ;;
      throw TypeError)
   else ret tt)%js.

(** [onPlayerMessage_(player, rowOrCol, numRowOrCol)]; the tint goes to the
    game manager's player record, which the game does not read. *)
Definition onPlayerMessage_ (rnd : nat -> Q) (player : string)
    (rowOrCol : string) (numRowOrCol : Z) : MR unit :=
  x <- liftG (Math_random rnd) ;;
  emit (ConsoleLog (LogText [Str "onPlayerMessage"; Str rowOrCol; Str ", ";
                             Num numRowOrCol])) ;;
  playerSprite <- getsR (fun r => sprite_of r player) ;;
  match playerSprite with
  | None =>
      throwR (Error (String.append "No player sprite found for player "
                       player))
  | Some _ =>
      created <- getsR assets_created ;;
      if created then liftG (flipPieces rowOrCol numRowOrCol)
      else liftG (flipPieces_no_background rowOrCol numRowOrCol)
  end.

Definition onGameMessage_ (gm : sdk) (rnd : nat -> Q) (e : event)
  : MR unit :=
  emit (ConsoleLog LogEvent) ;;
  emit (ConsoleLog LogExtraMessageData) ;;
  if negb (statusCode e =? StatusCode_SUCCESS gm) then log_event_error e
  else
    match getPlayer gm (playerInfo_playerId e) with
    | None =>
        throwR (Error (String.append "No player found for player ID "
                         (playerInfo_playerId e)))
    | Some player =>
        onPlayerMessage_ rnd player (data_rowOrCol e) (data_numRowOrCol e)
    end.

Definition start_ (gm : sdk) (rnd : nat -> Q) : MR unit :=
  callback <- getsR loadedCallback_ ;;
  match callback with
  | None => retR tt
  | Some _ =>
      emit ViewAppended ;;
      modifyR (set_isRunning true) ;;
      emit GameplayStateRunning ;;
      forR_each (getPlayers gm) (addPlayer_ rnd) ;;
      emit AnimationFrameRequested ;;
      callback <- getsR loadedCallback_ ;;
      match callback with
      | Some c => emit (LoadedCallbackCalled c)
      | None => throwR TypeError
      end ;;
      modifyR (set_loadedCallback None) ;;
      emit (ListenerAdded GAME_MESSAGE_RECEIVED boundGameMessageCallback_) ;;
      emit (ListenerAdded PLAYER_AVAILABLE boundPlayerAvailableCallback_) ;;
      emit (ListenerAdded PLAYER_QUIT boundPlayerQuitCallback_) ;;
      emit (ListenerAdded PLAYER_DROPPED boundPlayerQuitCallback_)
  end.

Definition run (gm : sdk) (rnd : nat -> Q) (loadedCallback : nat) : MR unit :=
  running <- getsR isRunning_ ;;
  if running then emit (LoadedCallbackCalled loadedCallback)
  else
    modifyR (set_loadedCallback (Some loadedCallback)) ;;
    loaded <- getsR isLoaded_ ;;
    if negb loaded then emit LoaderLoad
    else start_ gm rnd.

Definition stop : MR unit :=
  callback <- getsR loadedCallback_ ;;
  running <- getsR isRunning_ ;;
  if bool_decide (is_Some callback) || negb running then
    modifyR (set_loadedCallback None)
  else
    modifyR (set_isRunning false) ;;
    emit ViewRemoved ;;
    emit (ListenerRemoved GAME_MESSAGE_RECEIVED boundGameMessageCallback_) ;;
    emit (ListenerRemoved PLAYER_AVAILABLE boundPlayerAvailableCallback_) ;;
    emit (ListenerRemoved PLAYER_QUIT boundPlayerQuitCallback_) ;;
    emit (ListenerRemoved PLAYER_DROPPED boundPlayerQuitCallback_).

Definition update_ : MR unit :=
  running <- getsR isRunning_ ;;
  if negb running then retR tt
  else
    emit AnimationFrameRequested ;;
    emit Rendered.

(** [onAssetsLoaded_]: the background and the image are created, the image
    is asked for, the player sprites are made, invisible, and the game
    starts. *)
Definition onAssetsLoaded_ (gm : sdk) (rnd : nat -> Q) : MR unit :=
  modifyR (set_assets_created true) ;;
  liftG (modify (set_background true)) ;;
  emit ImageRequested ;;
  forR_break 0 MAX_PLAYERS_ (fun _ =>
    modifyR (fun r =>
      set_players (players_ r ++ [Sprite false 16777215%Q])%list r) ;;
    retR false) ;;
  start_ gm rnd.

(** The image's [load] listener; before [onAssetsLoaded_] there is no image
    whose width could be read. *)
Definition imageOnLoad_ (rnd : nat -> Q) (XScaleRate : Q) : MR unit :=
  created <- getsR assets_created ;;
  if created then liftG (imageOnLoad rnd XScaleRate)
  else throwR TypeError.

(** The ways the game object is entered from outside. *)
Inductive call : Type :=
  | Call_run (loadedCallback : nat)
  | Call_stop
  | Call_update
  | Call_onAssetsLoaded
  | Call_imageOnLoad (XScaleRate : Q)
  | Call_onPlayerAvailable (e : event)
  | Call_onPlayerQuit (e : event)
  | Call_onGameMessage (e : event).

Definition handle (gm : sdk) (rnd : nat -> Q) (c : call) : MR unit :=
  match c with
  | Call_run cb => run gm rnd cb
  | Call_stop => stop
  | Call_update => update_
  | Call_onAssetsLoaded => onAssetsLoaded_ gm rnd
  | Call_imageOnLoad X => imageOnLoad_ rnd X
  | Call_onPlayerAvailable e => onPlayerAvailable_ gm rnd e
  | Call_onPlayerQuit e => onPlayerQuit_ gm e
  | Call_onGameMessage e => onGameMessage_ gm rnd e
  end.

Close Scope rcv_scope.

(** The game objects that any sequence of such calls leads to, whatever the
    SDK answers at each call and whether the call completes or throws. *)
Inductive reachable (rnd : nat -> Q) : receiver -> Prop :=
  | reachable_new : reachable rnd new_receiver
  | reachable_call r gm c :
      reachable rnd r -> reachable rnd (handle gm rnd c r).2.

(** A sprite is on screen exactly when a player holds it, and no two
    players hold the same sprite. *)
Definition sprites_consistent (r : receiver) : Prop :=
  (forall i s, players_ r !! i = Some s ->
     (visible s = true <-> exists playerId, playerMap_ r !! playerId = Some i))
  /\ (forall playerId i, playerMap_ r !! playerId = Some i ->
        is_Some (players_ r !! i))
  /\ (forall id1 id2 i,
        playerMap_ r !! id1 = Some i -> playerMap_ r !! id2 = Some i ->
        id1 = id2).

(** An SDK that knows every player, with one player connected, and an
    event of success from a player. *)
Definition sample_sdk : sdk := Sdk 0 (fun playerId => Some playerId)
                                   ["ann"] ["ann"].

Definition sample_event (playerId rowOrCol : string) (numRowOrCol : Z)
  : event :=
  Event 0 "" playerId rowOrCol numRowOrCol.

(** The game object after [run], the loading of the assets with "ann"
    among the game manager's players, and the loading of the image. *)
Definition receiver_started : receiver :=
  (handle sample_sdk rnd_first_only Call_onAssetsLoaded
     (handle sample_sdk rnd_first_only (Call_run 7) new_receiver).2).2.

Definition receiver_playing : receiver :=
  (handle sample_sdk rnd_first_only (Call_imageOnLoad 1) receiver_started).2.

(** The method [m] of the whole game object leaves the part [proj] as it
    found it, whether it completes or throws. *)
Definition keepsR {A B} (proj : receiver -> A) (m : MR B) : Prop :=
  forall r, proj (m r).2 = proj r.

(** The game object after [addPlayer_] has given sprite [i] to the player:
    the map entry, the sprite on screen, one random value drawn for its
    tint. *)
Definition assign_sprite (rnd : nat -> Q) (playerId : string) (i : nat)
    (r : receiver) : receiver :=
  let r1 := set_playerMap (<[playerId := i]> (playerMap_ r)) r in
  let r2 :=
    set_players (alter (fun s => Sprite true (tint s)) i (players_ r1)) r1 in
  let x := rnd (random_calls (game_ r2)) in
  let r3 :=
    set_game (set_random_calls (S (random_calls (game_ r2))) (game_ r2)) r2 in
  set_players
    (alter (fun s => Sprite (visible s) (x * 16777215)%Q) i (players_ r3)) r3.

(** Whether [addPlayer_] finds the player's sprite on screen already. *)
Definition on_screen (r : receiver) (playerId : string) : bool :=
  match sprite_of r playerId with Some s => visible s | None => false end.

(** The method [m] of the whole game object keeps the property [P],
    whether it completes or throws. *)
Definition preservesR {B} (P : receiver -> Prop) (m : MR B) : Prop :=
  forall r, P r -> P (m r).2.

(** The fields that the sprite bookkeeping rests on. *)
Definition core (r : receiver) : list sprite * gmap string nat * bool :=
  (players_ r, playerMap_ r, isLoaded_ r).

(** What every game object satisfies: consistent sprites, and an
    [isLoaded_] that no method ever sets. *)
Definition receiver_inv (r : receiver) : Prop :=
  sprites_consistent r /\ isLoaded_ r = false.

(** The first of the sprites [start .. start + count - 1] that is not on
    screen. *)
Fixpoint first_free (players : list sprite) (start count : nat)
  : option nat :=
  match count with
  | O => None
  | S k =>
      match players !! start with
      | Some p => if visible p then first_free players (S start) k
                  else Some start
      | None => first_free players (S start) k
      end
  end.

(** ** Running a method *)

Lemma bind_normal {A B} (m : M A) (k : A -> M B) st a st' :
  m st = (Normal a, st') -> bind m k st = k a st'.
Proof. intros H. unfold bind. by rewrite H. Qed.

Lemma bind_throw {A B} (m : M A) (k : A -> M B) st e st' :
  m st = (Throw e, st') -> bind m k st = (Throw e, st').
Proof. intros H. unfold bind. by rewrite H. Qed.

Lemma bind_inv_normal {A B} (m : M A) (k : A -> M B) st b st2 :
  bind m k st = (Normal b, st2) ->
  exists a st1, m st = (Normal a, st1) /\ k a st1 = (Normal b, st2).
Proof.
  unfold bind. destruct (m st) as [[a|e] st1]; intros H; [eauto | discriminate].
Qed.

Lemma bind_inv_throw {A B} (m : M A) (k : A -> M B) st e st2 :
  bind m k st = (Throw e, st2) ->
  m st = (Throw e, st2)
  \/ exists a st1, m st = (Normal a, st1) /\ k a st1 = (Throw e, st2).
Proof.
  unfold bind. destruct (m st) as [[a|e'] st1]; intros H; [eauto | left].
  by inversion H.
Qed.

(** A loop whose every round keeps an invariant and completes, completes
    and keeps the invariant. *)
Lemma for_invariant (I : nat -> game -> Prop) body start count st :
  I start st ->
  (forall i s, (start <= i < start + count)%nat -> I i s ->
     exists s', body i s = (Normal tt, s') /\ I (S i) s') ->
  exists st', for_ start count body st = (Normal tt, st')
              /\ I (start + count)%nat st'.
Proof.
  revert start st. induction count as [|k IH]; intros start st HI Hbody.
  - exists st. rewrite Nat.add_0_r. done.
  - destruct (Hbody start st) as (s1 & Hs1 & HI1); [lia | done |].
    destruct (IH (S start) s1) as (st' & Hrun & HI'); [done | |].
    + intros i s Hi. apply Hbody. lia.
    + exists st'. split.
      * simpl. by rewrite (bind_normal _ _ _ _ _ Hs1).
      * by replace (start + S k)%nat with (S start + k)%nat by lia.
Qed.

(** *** Fields that a method leaves alone *)

Lemma keeps_ret {A B} (proj : game -> A) (b : B) : keeps proj (ret b).
Proof. by intros st. Qed.

Lemma keeps_throw {A B} (proj : game -> A) e : keeps proj (@throw B e).
Proof. by intros st. Qed.

Lemma keeps_gets {A B} (proj : game -> A) (f : game -> B) : keeps proj (gets f).
Proof. by intros st. Qed.

Lemma keeps_modify {A} (proj : game -> A) f :
  (forall st, proj (f st) = proj st) -> keeps proj (modify f).
Proof. intros H st. apply H. Qed.

Lemma keeps_bind {A B C} (proj : game -> A) (m : M B) (k : B -> M C) :
  keeps proj m -> (forall b, keeps proj (k b)) -> keeps proj (bind m k).
Proof.
  intros Hm Hk st. unfold bind. specialize (Hm st).
  destruct (m st) as [[b|e] st1]; simpl in *; [| done].
  by rewrite Hk.
Qed.

Lemma keeps_for {A} (proj : game -> A) body start count :
  (forall i, keeps proj (body i)) -> keeps proj (for_ start count body).
Proof.
  intros Hbody. revert start. induction count as [|k IH]; intros start.
  - apply keeps_ret.
  - simpl. apply keeps_bind; [apply Hbody | intros _; apply IH].
Qed.

Lemma keeps_for_return {A R} (proj : game -> A) body start count :
  (forall i, keeps proj (body i)) ->
  keeps proj (@for_return R start count body).
Proof.
  intros Hbody. revert start. induction count as [|k IH]; intros start.
  - apply keeps_ret.
  - simpl. apply keeps_bind; [apply Hbody |].
    intros [v|]; [apply keeps_ret | apply IH].
Qed.

Lemma keeps_pieces_at {A} (proj : game -> A) r c : keeps proj (pieces_at r c).
Proof. intros st. unfold pieces_at. by destruct (js_index _ _). Qed.

Lemma keeps_call_on_piece {A} (proj : game -> A) f r c :
  (forall a b st,
     proj (set_pieces (alter (alter f b) a (pieces_ st)) st) = proj st) ->
  keeps proj (call_on_piece f r c).
Proof.
  intros H. apply keeps_bind; [apply keeps_pieces_at |].
  intros [p|]; [| apply keeps_throw].
  apply keeps_modify. intros st. apply H.
Qed.

Lemma keeps_addChild {A} (proj : game -> A) c :
  (forall l st, proj (set_container l st) = proj st) ->
  keeps proj (addChild c).
Proof. intros H. apply keeps_modify. intros st. apply H. Qed.

(** *** Methods that only read the pieces *)

Lemma reads_pieces_ret {A} (a : A) : reads_pieces (ret a).
Proof. by exists (fun _ => Normal a). Qed.

Lemma reads_pieces_throw {A} e : reads_pieces (@throw A e).
Proof. by exists (fun _ => Throw e). Qed.

Lemma reads_pieces_bind {A B} (m : M A) (k : A -> M B) :
  reads_pieces m -> (forall a, reads_pieces (k a)) -> reads_pieces (bind m k).
Proof.
  intros [f Hf] Hk.
  exists (fun g =>
    match f g with
    | Normal a => ((k a) (set_pieces g new_StarcastGame)).1
    | Throw e => Throw e
    end).
  intros st. unfold bind. rewrite Hf.
  destruct (f (pieces_ st)) as [a|e]; [| done].
  destruct (Hk a) as [h Hh]. by rewrite !Hh.
Qed.

Lemma reads_pieces_for_return {R} body start count :
  (forall i, reads_pieces (body i)) ->
  reads_pieces (@for_return R start count body).
Proof.
  intros Hbody. revert start. induction count as [|k IH]; intros start.
  - apply reads_pieces_ret.
  - simpl. apply reads_pieces_bind; [apply Hbody |].
    intros [v|]; [apply reads_pieces_ret | apply IH].
Qed.

Lemma reads_pieces_pieces_at r c : reads_pieces (pieces_at r c).
Proof.
  exists (fun g =>
    match js_index g r with
    | None => Throw TypeError
    | Some row => Normal (js_index row c)
    end).
  intros st. unfold pieces_at. by destruct (js_index _ _).
Qed.

Lemma reads_pieces_checkPuzzleIsSolved : reads_pieces checkPuzzleIsSolved.
Proof.
  unfold checkPuzzleIsSolved. apply reads_pieces_bind.
  { by exists (fun g => Normal (length g)). }
  intros n. apply reads_pieces_bind.
  - apply reads_pieces_for_return. intros i.
    apply reads_pieces_for_return. intros j.
    apply reads_pieces_bind; [apply reads_pieces_pieces_at |].
    intros [pc|]; [| apply reads_pieces_throw].
    destruct (flipped pc); apply reads_pieces_ret.
  - intros [b|]; apply reads_pieces_ret.
Qed.

Lemma checkPuzzleIsSolved_same_pieces st1 st2 :
  pieces_ st1 = pieces_ st2 ->
  (checkPuzzleIsSolved st1).1 = (checkPuzzleIsSolved st2).1
  /\ (checkPuzzleIsSolved st1).2 = st1.
Proof.
  intros H. destruct reads_pieces_checkPuzzleIsSolved as [f Hf].
  rewrite !Hf. simpl. by rewrite H.
Qed.

(** ** The matrix of pieces *)

Lemma js_index_of_nat {A} (a : list A) (i : nat) :
  js_index a (Z.of_nat i) = a !! i.
Proof.
  unfold js_index. rewrite Nat2Z.id. destruct (decide _); [done | lia].
Qed.

Lemma js_index_in_range {A} (a : list A) (z : Z) :
  0 <= z < Z.of_nat (length a) -> js_index a z = a !! Z.to_nat z.
Proof. intros H. unfold js_index. destruct (decide _); [done | lia]. Qed.

Lemma js_index_out_of_range {A} (a : list A) (z : Z) :
  ~ (0 <= z < Z.of_nat (length a)) -> js_index a z = None.
Proof.
  intros H. unfold js_index. destruct (decide _); [| done].
  apply lookup_ge_None. lia.
Qed.

Lemma rect_lookup rows cols g a :
  rect rows cols g -> (a < rows)%nat ->
  exists row, g !! a = Some row /\ length row = cols.
Proof.
  intros [Hlen Hall] Ha.
  destruct (lookup_lt_is_Some_2 g a) as [row Hrow]; [lia |].
  exists row. split; [done |].
  by apply (Forall_lookup_1 _ _ _ _ Hall Hrow).
Qed.

Lemma rect_cell rows cols g a b :
  rect rows cols g -> (a < rows)%nat -> (b < cols)%nat ->
  exists p, cell g a b = Some p.
Proof.
  intros Hg Ha Hb. destruct (rect_lookup _ _ _ _ Hg Ha) as (row & Hrow & Hlen).
  destruct (lookup_lt_is_Some_2 row b) as [p Hp]; [lia |].
  exists p. unfold cell. by rewrite Hrow.
Qed.

Lemma cell_Some_lt rows cols g a b p :
  rect rows cols g -> cell g a b = Some p -> (a < rows)%nat /\ (b < cols)%nat.
Proof.
  intros [Hlen Hall]. unfold cell.
  destruct (g !! a) as [row|] eqn:Hrow; [| done]. simpl. intros Hp.
  apply lookup_lt_Some in Hp.
  pose proof (Forall_lookup_1 _ _ _ _ Hall Hrow) as Hc. simpl in Hc.
  apply lookup_lt_Some in Hrow. lia.
Qed.

Lemma rect_toggle rows cols f g p :
  rect rows cols g -> rect rows cols (toggle f g p).
Proof.
  intros [Hlen Hall]. unfold toggle. split.
  - by rewrite length_alter.
  - apply Forall_alter; [done |]. intros row Hrow. by rewrite length_alter.
Qed.

Lemma rect_toggle_cells rows cols f ps g :
  rect rows cols g -> rect rows cols (toggle_cells f ps g).
Proof.
  unfold toggle_cells. revert g. induction ps as [|p ps IH]; intros g Hg.
  - done.
  - simpl. apply IH. by apply rect_toggle.
Qed.

Lemma cell_toggle f g r c a b :
  cell (toggle f g (r, c)) a b =
  if decide (a = r /\ b = c) then f <$> cell g a b else cell g a b.
Proof.
  unfold cell, toggle. simpl.
  destruct (decide (a = r)) as [->|Hne].
  - rewrite list_lookup_alter_eq. destruct (g !! r) as [row|]; simpl.
    + destruct (decide (b = c)) as [->|Hne].
      * rewrite list_lookup_alter_eq. by rewrite decide_True.
      * rewrite list_lookup_alter_ne by done.
        rewrite decide_False; [done | tauto].
    + by destruct (decide _).
  - rewrite list_lookup_alter_ne by done.
    rewrite decide_False; [done | tauto].
Qed.

Lemma visits_nil p : visits p [] = 0%nat.
Proof. done. Qed.

Lemma visits_cons p q ps :
  visits p (q :: ps) = ((if decide (q = p) then 1 else 0) + visits p ps)%nat.
Proof.
  unfold visits. rewrite filter_cons. by destruct (decide (q = p)).
Qed.

Lemma visits_app p ps qs :
  visits p (ps ++ qs)%list = (visits p ps + visits p qs)%nat.
Proof. unfold visits. by rewrite filter_app, length_app. Qed.

Lemma visits_map_seq_none (h : nat -> nat * nat) p start count :
  (forall i, (start <= i < start + count)%nat -> h i <> p) ->
  visits p (map h (seq start count)) = 0%nat.
Proof.
  revert start. induction count as [|k IH]; intros start Hne; [done |].
  simpl. rewrite visits_cons, decide_False by (apply Hne; lia).
  rewrite IH; [done |]. intros i Hi. apply Hne. lia.
Qed.

Lemma visits_map_seq_one (h : nat -> nat * nat) p j start count :
  (forall i, h i = p <-> i = j) ->
  (start <= j < start + count)%nat ->
  visits p (map h (seq start count)) = 1%nat.
Proof.
  intros Hh. revert start. induction count as [|k IH]; intros start Hj; [lia |].
  simpl. rewrite visits_cons. destruct (decide (h start = p)) as [Heq|Hne].
  - rewrite visits_map_seq_none; [done |].
    intros i Hi Hip. apply Hh in Heq, Hip. lia.
  - rewrite IH; [done |].
    assert (start <> j) by (intros ->; apply Hne; by apply Hh). lia.
Qed.

Lemma cell_toggle_cells f ps g a b :
  cell (toggle_cells f ps g) a b = Nat.iter (visits (a, b) ps) f <$> cell g a b.
Proof.
  unfold toggle_cells. revert g. induction ps as [|[r c] ps IH]; intros g.
  - simpl. by destruct (cell g a b).
  - simpl. rewrite IH, cell_toggle, visits_cons.
    destruct (decide (a = r /\ b = c)) as [[-> ->]|Hne].
    + rewrite decide_True by done. destruct (cell g r c) as [p|]; [| done].
      simpl. f_equal. symmetry. apply Nat.iter_succ_r.
    + rewrite decide_False; [done |]. intros [= -> ->]. tauto.
Qed.

Lemma toggle_cells_app f ps qs g :
  toggle_cells f (ps ++ qs)%list g = toggle_cells f qs (toggle_cells f ps g).
Proof. unfold toggle_cells. apply foldl_app. Qed.

Lemma flipped_iter_flipPieceTween k p :
  flipped (Nat.iter k flipPieceTween p) = xorb (flipped p) (Nat.odd k).
Proof.
  induction k as [|k IH].
  - simpl. by destruct (flipped p).
  - rewrite Nat.odd_succ, <- Nat.negb_odd. simpl. rewrite IH.
    by destruct (flipped p), (Nat.odd k).
Qed.

Lemma flipped_iter_flipPiece k p :
  flipped (Nat.iter k flipPiece p) = xorb (flipped p) (Nat.odd k).
Proof.
  induction k as [|k IH].
  - simpl. by destruct (flipped p).
  - rewrite Nat.odd_succ, <- Nat.negb_odd. simpl. rewrite IH.
    by destruct (flipped p), (Nat.odd k).
Qed.

Lemma flag_at_toggle_cells ps g a b :
  flag_at (toggle_cells flipPieceTween ps g) a b =
  (fun x => xorb x (Nat.odd (visits (a, b) ps))) <$> flag_at g a b.
Proof.
  unfold flag_at. rewrite cell_toggle_cells.
  destruct (cell g a b) as [p|]; [| done]. simpl.
  by rewrite flipped_iter_flipPieceTween.
Qed.

(** Matrices of one shape with the same flag in every cell have the same
    [flags]. *)
Lemma flags_ext rows cols g1 g2 :
  rect rows cols g1 -> rect rows cols g2 ->
  (forall a b, flag_at g1 a b = flag_at g2 a b) ->
  flags g1 = flags g2.
Proof.
  intros [Hl1 Ha1] [Hl2 Ha2] Hflag. unfold flags.
  apply list_eq. intros a. rewrite !list_lookup_fmap.
  destruct (g1 !! a) as [row1|] eqn:H1, (g2 !! a) as [row2|] eqn:H2; simpl.
  - f_equal. apply list_eq. intros b. rewrite !list_lookup_fmap.
    specialize (Hflag a b). unfold flag_at, cell in Hflag.
    by rewrite H1, H2 in Hflag.
  - apply lookup_lt_Some in H1. apply lookup_ge_None in H2. lia.
  - apply lookup_lt_Some in H2. apply lookup_ge_None in H1. lia.
  - done.
Qed.

Lemma set_pieces_id st : set_pieces (pieces_ st) st = st.
Proof. by destruct st. Qed.

Lemma set_pieces_twice g1 g2 st :
  set_pieces g2 (set_pieces g1 st) = set_pieces g2 st.
Proof. done. Qed.

Lemma call_on_piece_in_range f rows cols r c st :
  rect rows cols (pieces_ st) ->
  0 <= r < Z.of_nat rows -> 0 <= c < Z.of_nat cols ->
  call_on_piece f r c st =
  (Normal tt, set_pieces (toggle f (pieces_ st) (Z.to_nat r, Z.to_nat c)) st).
Proof.
  intros Hg Hr Hc.
  destruct (rect_lookup _ _ _ (Z.to_nat r) Hg) as (row & Hrow & Hlen); [lia |].
  destruct (lookup_lt_is_Some_2 row (Z.to_nat c)) as [p Hp]; [lia |].
  unfold call_on_piece, bind, pieces_at.
  rewrite js_index_in_range by (destruct Hg; lia). rewrite Hrow.
  rewrite js_index_in_range by lia. by rewrite Hp.
Qed.

Lemma for_call_on_piece f rows cols (rz cz : nat -> Z) start count st :
  rect rows cols (pieces_ st) ->
  (forall i, (start <= i < start + count)%nat ->
     0 <= rz i < Z.of_nat rows /\ 0 <= cz i < Z.of_nat cols) ->
  for_ start count (fun i => call_on_piece f (rz i) (cz i)) st =
  (Normal tt,
   set_pieces
     (toggle_cells f
        (map (fun i => (Z.to_nat (rz i), Z.to_nat (cz i))) (seq start count))
        (pieces_ st)) st).
Proof.
  revert start st. induction count as [|k IH]; intros start st Hg Hin.
  - simpl. unfold ret, toggle_cells. simpl. by rewrite set_pieces_id.
  - simpl. destruct (Hin start) as [Hr Hc]; [lia |].
    rewrite (bind_normal _ _ _ _ _
               (call_on_piece_in_range f _ _ _ _ _ Hg Hr Hc)).
    rewrite IH.
    + done.
    + simpl. by apply rect_toggle.
    + intros i Hi. apply Hin. lia.
Qed.

(** ** The solved test *)

Lemma for_return_scan {R} (body : nat -> M (option R))
    (P : nat -> Prop) (Q : R -> Prop) start count st :
  (forall i, (start <= i < start + count)%nat ->
     (body i st = (Normal None, st) /\ P i)
     \/ (exists v, body i st = (Normal (Some v), st) /\ Q v)) ->
  (for_return start count body st = (Normal None, st)
   /\ forall i, (start <= i < start + count)%nat -> P i)
  \/ (exists v, for_return start count body st = (Normal (Some v), st) /\ Q v).
Proof.
  revert start. induction count as [|k IH]; intros start Hbody.
  - left. split; [done | lia].
  - simpl. destruct (Hbody start) as [[Hrun HP]|(v & Hrun & HQ)]; [lia | |].
    + rewrite (bind_normal _ _ _ _ _ Hrun).
      destruct (IH (S start)) as [[Hrest HPs]|(v & Hrest & HQ)].
      * intros i Hi. apply Hbody. lia.
      * left. split; [done |]. intros i Hi.
        destruct (decide (i = start)) as [->|Hne]; [done |]. apply HPs. lia.
      * right. eauto.
    + right. exists v. by rewrite (bind_normal _ _ _ _ _ Hrun).
Qed.

Lemma solved_cell n st a b :
  square n (pieces_ st) -> (a < n)%nat -> (b < n)%nat ->
  let body :=
    p <- pieces_at (Z.of_nat a) (Z.of_nat b) ;;
    match p with
    | None => throw TypeError
    | Some pc => if flipped pc then ret (Some false) else ret None
    end in
  (body st = (Normal None, st) /\ flag_at (pieces_ st) a b = Some false)
  \/ (exists v, body st = (Normal (Some v), st)
        /\ (v = false /\ exists a' b', flag_at (pieces_ st) a' b' = Some true)).
Proof.
  intros Hg Ha Hb body. subst body.
  destruct (rect_lookup _ _ _ a Hg Ha) as (row & Hrow & Hlen).
  destruct (lookup_lt_is_Some_2 row b) as [pc Hpc]; [lia |].
  assert (Hcell : cell (pieces_ st) a b = Some pc).
  { unfold cell. by rewrite Hrow. }
  unfold bind, pieces_at. rewrite js_index_of_nat, Hrow, js_index_of_nat, Hpc.
  unfold flag_at. rewrite Hcell. simpl.
  destruct (flipped pc) eqn:Hf.
  - right. exists false. repeat split. exists a, b.
    unfold flag_at. rewrite Hcell. simpl. by rewrite Hf.
  - by left.
Qed.

Lemma checkPuzzleIsSolved_square n st :
  square n (pieces_ st) ->
  exists b, checkPuzzleIsSolved st = (Normal b, st)
    /\ (b = true <-> forall a c, flag_at (pieces_ st) a c <> Some true).
Proof.
  intros Hg. unfold checkPuzzleIsSolved.
  assert (Hn : length (pieces_ st) = n) by apply Hg.
  set (cellbody := fun i j : nat =>
    p <- pieces_at (Z.of_nat i) (Z.of_nat j) ;;
    match p with
    | None => throw TypeError
    | Some pc => if flipped pc then ret (Some false) else ret None
    end).
  set (Q := fun v : bool =>
    v = false /\ exists a' b', flag_at (pieces_ st) a' b' = Some true).
  destruct (for_return_scan
              (fun i => for_return 0 n (cellbody i))
              (fun i => forall j, (0 <= j < 0 + n)%nat ->
                          flag_at (pieces_ st) i j = Some false)
              Q 0 n st) as [[Hrun Hall]|(v & Hrun & Hv & a' & b' & Hflag)].
  - intros i Hi.
    apply (for_return_scan (cellbody i)
             (fun j => flag_at (pieces_ st) i j = Some false) Q 0 n st).
    intros j Hj. apply (solved_cell n st i j Hg); lia.
  - exists true. unfold bind at 1. unfold gets. rewrite Hn.
    rewrite (bind_normal _ _ _ _ _ Hrun). split; [done |].
    split; [| done]. intros _ a c Hac.
    assert (Hlt : (a < n)%nat /\ (c < n)%nat).
    { unfold flag_at in Hac.
      destruct (cell (pieces_ st) a c) as [p|] eqn:Hp; [| done].
      apply (cell_Some_lt _ _ _ _ _ _ Hg Hp). }
    rewrite Hall in Hac by lia. discriminate.
  - exists false. unfold bind at 1. unfold gets. rewrite Hn.
    rewrite (bind_normal _ _ _ _ _ Hrun). subst v. split; [done |].
    split; [done |]. intros Hnone. by destruct (Hnone a' b').
Qed.

(** ** The tail of [flipPieces] *)

Lemma keeps_checkPuzzleIsSolved {A} (proj : game -> A) :
  keeps proj checkPuzzleIsSolved.
Proof.
  intros st. destruct reads_pieces_checkPuzzleIsSolved as [f Hf].
  by rewrite Hf.
Qed.

Lemma keeps_checkFlipsFromPlayerMessage {A} (proj : game -> A) :
  (forall h st, proj (set_hud h st) = proj st) ->
  (forall l st, proj (set_container l st) = proj st) ->
  keeps proj checkFlipsFromPlayerMessage.
Proof.
  intros Hh Hc st. unfold checkFlipsFromPlayerMessage, bind, gets, modify,
    addChild. simpl. by rewrite Hc, Hh.
Qed.

Lemma keeps_displayCountflipsFromPlayerMessage {A} (proj : game -> A) :
  (forall l st, proj (set_container l st) = proj st) ->
  keeps proj displayCountflipsFromPlayerMessage.
Proof. intros Hc st. apply Hc. Qed.

Lemma keeps_displayFlipSuggestionMessage {A} (proj : game -> A) :
  (forall l st, proj (set_container l st) = proj st) ->
  keeps proj displayFlipSuggestionMessage.
Proof. intros Hc st. apply Hc. Qed.

Lemma keeps_displayCongratMessage {A} (proj : game -> A) :
  (forall l st, proj (set_container l st) = proj st) ->
  keeps proj displayCongratMessage.
Proof. intros Hc st. apply Hc. Qed.

Lemma keeps_scoreSystem {A} (proj : game -> A) :
  (forall l st, proj (set_container l st) = proj st) ->
  keeps proj scoreSystem.
Proof.
  intros Hc st. unfold scoreSystem, bind, gets.
  destruct (_ =? _); [apply Hc |]. destruct (_ >? _); [apply Hc | done].
Qed.

Lemma scoreSystem_completes st : (scoreSystem st).1 = Normal tt.
Proof.
  unfold scoreSystem, bind, gets.
  destruct (_ =? _); [done |]. by destruct (_ >? _).
Qed.

Lemma flip_report_cases st :
  flip_report st =
  match (checkPuzzleIsSolved st).1 with
  | Normal b => (Normal tt, report_state b st)
  | Throw e =>
      (Throw e,
       (checkFlipsFromPlayerMessage
          (set_player (playerEachFlipCount_ st + 1) st)).2)
  end.
Proof.
  unfold flip_report, report_state.
  set (st1 := set_player (playerEachFlipCount_ st + 1) st).
  unfold bind at 1. unfold modify at 1. fold st1.
  destruct (checkFlipsFromPlayerMessage st1) as [o st2] eqn:Hhud.
  assert (Ho : o = Normal tt).
  { unfold checkFlipsFromPlayerMessage, bind, gets, modify, addChild in Hhud.
    by inversion Hhud. }
  subst o. rewrite (bind_normal _ _ _ _ _ Hhud). simpl.
  assert (Hp : pieces_ st2 = pieces_ st).
  { change st2 with (Normal tt, st2).2. rewrite <- Hhud.
    by rewrite (keeps_checkFlipsFromPlayerMessage pieces_). }
  destruct (checkPuzzleIsSolved_same_pieces st2 st Hp) as [Hfst Hsnd].
  rewrite <- Hfst. unfold bind at 1.
  destruct (checkPuzzleIsSolved st2) as [[b|e] st3]; simpl in *; subst st3;
    [| done].
  destruct b; [| done].
  unfold bind. unfold displayCongratMessage at 1. unfold addChild, modify.
  pose proof (scoreSystem_completes
    (displayCongratMessage st2).2) as Hscore.
  unfold displayCongratMessage, addChild, modify in Hscore. simpl in *.
  destruct (scoreSystem _) as [o st3]. simpl in *. by subst o.
Qed.

Lemma flip_report_run st b :
  (checkPuzzleIsSolved st).1 = Normal b ->
  flip_report st = (Normal tt, report_state b st).
Proof. intros Hb. by rewrite flip_report_cases, Hb. Qed.

Lemma flip_report_inv st st' :
  flip_report st = (Normal tt, st') ->
  exists b, (checkPuzzleIsSolved st).1 = Normal b /\ st' = report_state b st.
Proof.
  rewrite flip_report_cases.
  destruct (checkPuzzleIsSolved st).1 as [b|e]; [| done].
  intros [= <-]. by exists b.
Qed.

Lemma report_state_keeps {A} (proj : game -> A) b st :
  (forall h s, proj (set_hud h s) = proj s) ->
  (forall l s, proj (set_container l s) = proj s) ->
  (forall v s, proj (set_background v s) = proj s) ->
  proj (report_state b st) =
  proj (set_player (playerEachFlipCount_ st + 1) st).
Proof.
  intros Hh Hc Hb. unfold report_state. cbv zeta. destruct b.
  - rewrite Hb, (keeps_scoreSystem proj Hc).
    rewrite (keeps_displayCongratMessage proj Hc).
    apply (keeps_checkFlipsFromPlayerMessage proj Hh Hc).
  - apply (keeps_checkFlipsFromPlayerMessage proj Hh Hc).
Qed.

Lemma pieces_report_state b st : pieces_ (report_state b st) = pieces_ st.
Proof. by rewrite (report_state_keeps pieces_). Qed.

Lemma player_report_state b st :
  playerEachFlipCount_ (report_state b st) = playerEachFlipCount_ st + 1.
Proof. by rewrite (report_state_keeps playerEachFlipCount_). Qed.

Lemma suggested_report_state b st :
  suggestedFlipCount_ (report_state b st) = suggestedFlipCount_ st.
Proof. by rewrite (report_state_keeps suggestedFlipCount_). Qed.

(** ** [flipPieces] in two halves *)

Lemma flipPieces_halves rowOrCol numRowOrCol st :
  flipPieces rowOrCol numRowOrCol st =
  bind (flip_loop rowOrCol numRowOrCol) (fun _ => flip_report) st.
Proof. reflexivity. Qed.

Lemma keeps_flip_loop {A} (proj : game -> A) rowOrCol numRowOrCol :
  (forall a b st,
     proj (set_pieces (alter (alter flipPieceTween b) a (pieces_ st)) st)
     = proj st) ->
  keeps proj (flip_loop rowOrCol numRowOrCol).
Proof.
  intros H. unfold flip_loop. apply keeps_bind; [apply keeps_gets |].
  intros n. repeat case_match; try apply keeps_throw;
    apply keeps_for; intros i; by apply keeps_call_on_piece.
Qed.

Lemma keeps_flip_report {A} (proj : game -> A) :
  (forall z st, proj (set_player z st) = proj st) ->
  (forall h st, proj (set_hud h st) = proj st) ->
  (forall l st, proj (set_container l st) = proj st) ->
  (forall v st, proj (set_background v st) = proj st) ->
  keeps proj flip_report.
Proof.
  intros Hp Hh Hc Hb. unfold flip_report.
  apply keeps_bind; [apply keeps_modify; intros st; apply Hp | intros _].
  apply keeps_bind;
    [by apply keeps_checkFlipsFromPlayerMessage | intros _].
  apply keeps_bind; [apply keeps_checkPuzzleIsSolved | intros solved].
  destruct solved; [| apply keeps_ret].
  apply keeps_bind; [by apply keeps_displayCongratMessage | intros _].
  apply keeps_bind; [by apply keeps_scoreSystem | intros _].
  apply keeps_modify. intros st. apply Hb.
Qed.




Lemma flipPieces_inv_normal rowOrCol numRowOrCol st st' :
  flipPieces rowOrCol numRowOrCol st = (Normal tt, st') ->
  exists st1,
    flip_loop rowOrCol numRowOrCol st = (Normal tt, st1)
    /\ flip_report st1 = (Normal tt, st').
Proof.
  rewrite flipPieces_halves. intros H.
  apply bind_inv_normal in H as ([] & st1 & Hloop & Hrep). eauto.
Qed.

Lemma player_flip_report st :
  playerEachFlipCount_ (flip_report st).2 = playerEachFlipCount_ st + 1.
Proof.
  rewrite flip_report_cases. destruct (checkPuzzleIsSolved st).1.
  - apply player_report_state.
  - cbn [snd].
    by rewrite (keeps_checkFlipsFromPlayerMessage playerEachFlipCount_).
Qed.

(** ** A valid flip on a square puzzle *)

Lemma flipPieces_loop_then_report n st rowOrCol numRowOrCol :
  square n (pieces_ st) -> valid_flip n rowOrCol numRowOrCol ->
  flipPieces rowOrCol numRowOrCol st =
  flip_report
    (set_pieces
       (toggle_cells flipPieceTween (cells_of n rowOrCol numRowOrCol)
          (pieces_ st)) st).
Proof.
  intros Hg Hvalid. unfold flipPieces.
  assert (Hn : length (pieces_ st) = n) by apply Hg.
  unfold bind at 1. unfold gets. rewrite Hn.
  assert (Hcases : rowOrCol = "ROW" /\ 0 <= numRowOrCol < Z.of_nat n
                   \/ rowOrCol = "COL" /\ 0 <= numRowOrCol < Z.of_nat n
                   \/ rowOrCol = "DIAGONAL").
  { unfold valid_flip in Hvalid. tauto. }
  destruct Hcases as [[-> Hi]|[[-> Hi]| ->]]; unfold cells_of; simpl.
  - erewrite bind_normal.
    2:{ apply (for_call_on_piece flipPieceTween n n
                 (fun _ => numRowOrCol) (fun i => Z.of_nat i)); [done |].
        intros i Hi'. lia. }
    simpl. do 3 f_equal. apply map_ext. intros i. by rewrite Nat2Z.id.
  - erewrite bind_normal.
    2:{ apply (for_call_on_piece flipPieceTween n n
                 (fun i => Z.of_nat i) (fun _ => numRowOrCol)); [done |].
        intros i Hi'. lia. }
    simpl. do 3 f_equal. apply map_ext. intros i. by rewrite Nat2Z.id.
  - erewrite bind_normal.
    2:{ apply (for_call_on_piece flipPieceTween n n
                 (fun i => Z.of_nat n - Z.of_nat i - 1) (fun i => Z.of_nat i));
          [done |].
        intros i Hi'. lia. }
    simpl. do 3 f_equal. apply map_ext. intros i. by rewrite Nat2Z.id.
Qed.

Lemma flipPieces_valid n st rowOrCol numRowOrCol :
  square n (pieces_ st) -> valid_flip n rowOrCol numRowOrCol ->
  exists st',
    flipPieces rowOrCol numRowOrCol st = (Normal tt, st')
    /\ pieces_ st' =
       toggle_cells flipPieceTween (cells_of n rowOrCol numRowOrCol)
         (pieces_ st)
    /\ playerEachFlipCount_ st' = playerEachFlipCount_ st + 1
    /\ suggestedFlipCount_ st' = suggestedFlipCount_ st.
Proof.
  intros Hg Hvalid.
  rewrite (flipPieces_loop_then_report n) by done.
  set (st1 := set_pieces _ st).
  assert (Hg1 : square n (pieces_ st1)) by by apply rect_toggle_cells.
  destruct (checkPuzzleIsSolved_square n st1 Hg1) as (b & Hb & _).
  exists (report_state b st1). split.
  - apply flip_report_run. by rewrite Hb.
  - by rewrite pieces_report_state, player_report_state,
      suggested_report_state.
Qed.

(** ** Which cells a flip visits *)

Lemma visits_row n r a b :
  visits (a, b) (cells_of n "ROW" r) =
  if decide (a = Z.to_nat r /\ (b < n)%nat) then 1%nat else 0%nat.
Proof.
  unfold cells_of. simpl. destruct (decide _) as [[-> Hb]|Hno].
  - apply (visits_map_seq_one _ _ b); [| lia].
    intros i. split; [by intros [= ->] | by intros ->].
  - apply visits_map_seq_none. intros i Hi [= <- ->]. apply Hno. lia.
Qed.

Lemma visits_col n c a b :
  visits (a, b) (cells_of n "COL" c) =
  if decide (b = Z.to_nat c /\ (a < n)%nat) then 1%nat else 0%nat.
Proof.
  unfold cells_of. simpl. destruct (decide _) as [[-> Ha]|Hno].
  - apply (visits_map_seq_one _ _ a); [| lia].
    intros i. split; [by intros [= ->] | by intros ->].
  - apply visits_map_seq_none. intros i Hi [= -> <-]. apply Hno. lia.
Qed.

Lemma visits_diagonal n idx a b :
  visits (a, b) (cells_of n "DIAGONAL" idx) =
  if decide (a + b + 1 = n)%nat then 1%nat else 0%nat.
Proof.
  unfold cells_of. simpl. destruct (decide _) as [Hab|Hno].
  - apply (visits_map_seq_one _ _ b); [| lia].
    intros i. split.
    + by intros [= _ ->].
    + intros ->. f_equal. lia.
  - apply visits_map_seq_none. intros i Hi [= Ha ->]. apply Hno. lia.
Qed.

Lemma fmap_xorb_true (o : option bool) :
  (fun x => xorb x true) <$> o = negb <$> o.
Proof. destruct o as [[]|]; done. Qed.

Lemma fmap_xorb_false (o : option bool) :
  (fun x => xorb x false) <$> o = o.
Proof. destruct o as [[]|]; done. Qed.

Lemma flag_at_lt n g a b x :
  square n g -> flag_at g a b = Some x -> (a < n)%nat /\ (b < n)%nat.
Proof.
  intros Hg. unfold flag_at.
  destruct (cell g a b) as [p|] eqn:Hp; [| done].
  intros _. apply (cell_Some_lt _ _ _ _ _ _ Hg Hp).
Qed.

Lemma flag_at_None_ge n g a b :
  square n g -> ~ ((a < n)%nat /\ (b < n)%nat) -> flag_at g a b = None.
Proof.
  intros Hg Hno. destruct (flag_at g a b) as [x|] eqn:Hx; [| done].
  exfalso. apply Hno. by apply (flag_at_lt n g a b x).
Qed.

(** ** Building and scrambling the puzzle *)

Lemma keeps_push_row {A} (proj : game -> A) :
  (forall g st, proj (set_pieces g st) = proj st) -> keeps proj push_row.
Proof. intros H st. apply H. Qed.

Lemma keeps_push_piece {A} (proj : game -> A) row p :
  (forall g st, proj (set_pieces g st) = proj st) ->
  keeps proj (push_piece row p).
Proof.
  intros H st. unfold push_piece. destruct (_ !! _); [apply H | done].
Qed.

Lemma keeps_Math_random {A} (proj : game -> A) rnd :
  (forall k st, proj (set_random_calls k st) = proj st) ->
  keeps proj (Math_random rnd).
Proof. intros H st. apply H. Qed.

Lemma keeps_instantiatePuzzlePiecesAndControlButtons {A} (proj : game -> A)
    rnd XScaleRate totalRow totalCol :
  (forall g st, proj (set_pieces g st) = proj st) ->
  (forall k st, proj (set_random_calls k st) = proj st) ->
  (forall z st, proj (set_suggested z st) = proj st) ->
  (forall h st, proj (set_hud h st) = proj st) ->
  (forall l st, proj (set_container l st) = proj st) ->
  keeps proj
    (instantiatePuzzlePiecesAndControlButtons rnd XScaleRate totalRow totalCol).
Proof.
  intros Hp Hr Hs Hh Hc. unfold instantiatePuzzlePiecesAndControlButtons.
  repeat first
    [ by apply keeps_push_row
    | by apply keeps_push_piece
    | by apply keeps_Math_random
    | by apply keeps_call_on_piece
    | by apply keeps_checkFlipsFromPlayerMessage
    | by apply keeps_displayFlipSuggestionMessage
    | apply keeps_gets
    | apply keeps_ret
    | by (apply keeps_modify; intros ?; apply Hs)
    | apply keeps_for; intros ?
    | apply keeps_bind; [| intros ?]
    | case_match ].
Qed.

(** * The statements *)

(** C1. On an [n] by [n] puzzle and for an index in [0 .. n-1],
    [flipPieces] with "ROW" completes and inverts the [flipped] flag of
    exactly the cells of that row, every other cell keeping its flag; with
    "COL" it does the same for the cells of that column. The puzzle keeps
    its shape. *)
Theorem flipPieces_row_col_toggle n st idx :
  square n (pieces_ st) -> 0 <= idx < Z.of_nat n ->
  (exists st',
     flipPieces "ROW" idx st = (Normal tt, st')
     /\ square n (pieces_ st')
     /\ forall a b,
          flag_at (pieces_ st') a b =
          if decide (Z.of_nat a = idx) then negb <$> flag_at (pieces_ st) a b
          else flag_at (pieces_ st) a b)
  /\ (exists st',
        flipPieces "COL" idx st = (Normal tt, st')
        /\ square n (pieces_ st')
        /\ forall a b,
             flag_at (pieces_ st') a b =
             if decide (Z.of_nat b = idx)
             then negb <$> flag_at (pieces_ st) a b
             else flag_at (pieces_ st) a b).
Proof.
  intros Hg Hidx. split.
  - destruct (flipPieces_valid n st "ROW" idx Hg) as (st' & Hrun & Hp & _).
    { left. split; [by left | done]. }
    exists st'. split; [done |]. rewrite Hp. split.
    { by apply rect_toggle_cells. }
    intros a b. rewrite flag_at_toggle_cells, visits_row.
    destruct (decide (Z.of_nat a = idx)) as [Ha|Ha].
    + destruct (decide (a = Z.to_nat idx /\ (b < n)%nat)) as [_|Hno].
      * apply fmap_xorb_true.
      * rewrite (flag_at_None_ge n (pieces_ st) a b Hg); [done | lia].
    + rewrite decide_False by lia. apply fmap_xorb_false.
  - destruct (flipPieces_valid n st "COL" idx Hg) as (st' & Hrun & Hp & _).
    { left. split; [by right | done]. }
    exists st'. split; [done |]. rewrite Hp. split.
    { by apply rect_toggle_cells. }
    intros a b. rewrite flag_at_toggle_cells, visits_col.
    destruct (decide (Z.of_nat b = idx)) as [Hb|Hb].
    + destruct (decide (b = Z.to_nat idx /\ (a < n)%nat)) as [_|Hno].
      * apply fmap_xorb_true.
      * rewrite (flag_at_None_ge n (pieces_ st) a b Hg); [done | lia].
    + rewrite decide_False by lia. apply fmap_xorb_false.
Qed.

(** C2. On an [n] by [n] puzzle, [flipPieces] with "DIAGONAL" completes and
    inverts the flag of exactly the cells [[n-1-i][i]], that is the cells
    [[a][b]] with [a + b + 1 = n]; every other cell keeps its flag, and the
    whole result is the same for any two values of the index argument. *)
Theorem flipPieces_diagonal_toggle n st idx :
  square n (pieces_ st) ->
  (exists st',
     flipPieces "DIAGONAL" idx st = (Normal tt, st')
     /\ square n (pieces_ st')
     /\ forall a b,
          flag_at (pieces_ st') a b =
          if decide (a + b + 1 = n)%nat
          then negb <$> flag_at (pieces_ st) a b
          else flag_at (pieces_ st) a b)
  /\ forall idx', flipPieces "DIAGONAL" idx' st = flipPieces "DIAGONAL" idx st.
Proof.
  intros Hg. split; [| done].
  destruct (flipPieces_valid n st "DIAGONAL" idx Hg) as (st' & Hrun & Hp & _).
  { by right. }
  exists st'. split; [done |]. rewrite Hp. split.
  { by apply rect_toggle_cells. }
  intros a b. rewrite flag_at_toggle_cells, visits_diagonal.
  destruct (decide _); [apply fmap_xorb_true | apply fmap_xorb_false].
Qed.

(** C3. For any game state, puzzle and index, [flipPieces] with an axis
    other than "ROW", "COL" and "DIAGONAL" throws an [Error] whose message
    ends with the value received, and leaves the whole game object, the
    pieces included, as it was. *)
Theorem flipPieces_invalid_axis st rowOrCol numRowOrCol :
  rowOrCol <> "ROW" -> rowOrCol <> "COL" -> rowOrCol <> "DIAGONAL" ->
  flipPieces rowOrCol numRowOrCol st =
  (Throw (Error (String.append
                   "Only Row, COL, DIAGONAL are allowed but received "
                   rowOrCol)), st).
Proof.
  intros Hrow Hcol Hdiag. unfold flipPieces, bind, gets.
  apply String.eqb_neq in Hrow, Hcol, Hdiag.
  by rewrite Hrow, Hcol, Hdiag.
Qed.

(** C4. On an [n] by [n] puzzle [checkPuzzleIsSolved] completes, changes
    nothing, and returns [true] exactly when no cell has its [flipped] flag
    set, which is when every cell's flag is [false]. *)
Theorem checkPuzzleIsSolved_iff n st :
  square n (pieces_ st) ->
  exists b,
    checkPuzzleIsSolved st = (Normal b, st)
    /\ (b = true <-> forall a c, flag_at (pieces_ st) a c <> Some true)
    /\ (b = true <->
        forall a c, (a < n)%nat -> (c < n)%nat ->
                    flag_at (pieces_ st) a c = Some false).
Proof.
  intros Hg. destruct (checkPuzzleIsSolved_square n st Hg) as (b & Hrun & Hiff).
  exists b. split; [done |]. split; [done |]. rewrite Hiff. split.
  - intros Hnone a c Ha Hc.
    destruct (rect_cell _ _ _ a c Hg Ha Hc) as [p Hp].
    specialize (Hnone a c). unfold flag_at in *. rewrite Hp in *. simpl in *.
    by destruct (flipped p).
  - intros Hall a c Hac.
    destruct (flag_at_lt n _ a c true Hg Hac) as [Ha Hc].
    rewrite Hall in Hac by done. discriminate.
Qed.

Lemma flipPieces_row_col_toggle_witness :
  square 3 (pieces_ game_3x3) /\ 0 <= 1 < Z.of_nat 3
  /\ (exists st', flipPieces "ROW" 1 game_3x3 = (Normal tt, st')
                  /\ flag_at (pieces_ st') 1 2 = Some true
                  /\ flag_at (pieces_ st') 0 2 = Some false).
Proof.
  assert (H1 : square 3 (pieces_ game_3x3)).
  { split; [reflexivity | repeat constructor]. }
  assert (H2 : 0 <= 1 < Z.of_nat 3) by lia.
  split; [exact H1 |]. split; [exact H2 |].
  destruct (flipPieces_row_col_toggle 3 game_3x3 1 H1 H2)
    as [(st' & Hrun & _ & Hflags) _].
  exists st'. split; [exact Hrun |].
  split; rewrite Hflags; vm_compute; reflexivity.
Defined.

Lemma flipPieces_diagonal_toggle_witness :
  square 3 (pieces_ game_3x3)
  /\ (exists st', flipPieces "DIAGONAL" 7 game_3x3 = (Normal tt, st')
                  /\ flag_at (pieces_ st') 2 0 = Some true
                  /\ flag_at (pieces_ st') 0 0 = Some false).
Proof.
  assert (H1 : square 3 (pieces_ game_3x3)).
  { split; [reflexivity | repeat constructor]. }
  split; [exact H1 |].
  destruct (flipPieces_diagonal_toggle 3 game_3x3 7 H1)
    as [(st' & Hrun & _ & Hflags) _].
  exists st'. split; [exact Hrun |].
  split; rewrite Hflags; vm_compute; reflexivity.
Defined.

Lemma flipPieces_invalid_axis_witness :
  "X" <> "ROW" /\ "X" <> "COL" /\ "X" <> "DIAGONAL"
  /\ flipPieces "X" 0 game_3x3 =
     (Throw (Error "Only Row, COL, DIAGONAL are allowed but received X"),
      game_3x3).
Proof.
  assert (H1 : "X" <> "ROW") by discriminate.
  assert (H2 : "X" <> "COL") by discriminate.
  assert (H3 : "X" <> "DIAGONAL") by discriminate.
  split; [exact H1 |]. split; [exact H2 |]. split; [exact H3 |].
  exact (flipPieces_invalid_axis game_3x3 "X" 0 H1 H2 H3).
Defined.

Lemma checkPuzzleIsSolved_iff_witness :
  square 3 (pieces_ game_3x3)
  /\ exists b, checkPuzzleIsSolved game_3x3 = (Normal b, game_3x3).
Proof.
  assert (H1 : square 3 (pieces_ game_3x3)).
  { split; [reflexivity | repeat constructor]. }
  split; [exact H1 |].
  destruct (checkPuzzleIsSolved_iff 3 game_3x3 H1) as (b & Hrun & _).
  by exists b.
Defined.

(** ** The score texts *)

(** The heads-up display shows ten points for every flip of the suggested
    count and of the allowance that the player has not used. *)
Lemma checkFlipsFromPlayerMessage_points st :
  (checkFlipsFromPlayerMessage st).1 = Normal tt
  /\ hud_ (checkFlipsFromPlayerMessage st).2 ≫= points_of =
     Some (10 * (suggestedFlipCount_ st + extraFlipsThanNecessary_ st
                 - playerEachFlipCount_ st)).
Proof. done. Qed.

(** The final message leaves the allowance out. *)
Lemma displayCountflipsFromPlayerMessage_points st :
  exists t,
    displayCountflipsFromPlayerMessage st =
    (Normal tt,
     set_container (container_ st ++ [CountflipsMessage t])%list st)
    /\ points_of t =
       Some (10 * (suggestedFlipCount_ st - playerEachFlipCount_ st)).
Proof. eexists. split; reflexivity. Qed.

(** C5, at a failing input. The game starts with row 0 flipped and a
    suggested count of 1, and the player flips row 0. The puzzle is solved
    with as many flips as suggested: the heads-up display shows 100 points,
    and the final message, under the same label, shows 0 points. *)
Theorem final_score_at_par :
  let st := (flipPieces "ROW" 0 game_row0_scrambled).2 in
  suggestedFlipCount_ game_row0_scrambled = 1
  /\ extraFlipsThanNecessary_ game_row0_scrambled = 10
  /\ (flipPieces "ROW" 0 game_row0_scrambled).1 = Normal tt
  /\ (checkPuzzleIsSolved st).1 = Normal true
  /\ playerEachFlipCount_ st = suggestedFlipCount_ st
  /\ hud_ st ≫= points_of = Some 100
  /\ last (container_ st) =
     Some (CountflipsMessage
             [Str "The Player each flips : "; Num 1; Str " times\n";
              Str "The Player final points from givenPoints : "; Num 0;
              Str " points\n"]).
Proof. vm_compute. repeat split; reflexivity. Qed.

(** ** The player's flip count and the final score message *)

Lemma countflips_after_hud l :
  length (List.filter is_countflips
            (List.filter (fun x => negb (child_is_hud x)) l ++ [HudChild])%list)
  = length (List.filter is_countflips l).
Proof.
  induction l as [|c l IH]; [done |].
  destruct c; simpl in *; by rewrite ?IH.
Qed.

Lemma countflips_shown_checkFlipsFromPlayerMessage st :
  countflips_shown (checkFlipsFromPlayerMessage st).2 = countflips_shown st.
Proof. apply countflips_after_hud. Qed.

Lemma countflips_shown_displayCongratMessage st :
  countflips_shown (displayCongratMessage st).2 = countflips_shown st.
Proof.
  unfold countflips_shown. simpl. rewrite List.filter_app, length_app.
  simpl. lia.
Qed.

Lemma countflips_shown_scoreSystem st :
  countflips_shown (scoreSystem st).2 =
  if decide (suggestedFlipCount_ st <= playerEachFlipCount_ st)
  then S (countflips_shown st) else countflips_shown st.
Proof.
  assert (Hadd : countflips_shown (displayCountflipsFromPlayerMessage st).2
                 = S (countflips_shown st)).
  { unfold countflips_shown. simpl. rewrite List.filter_app, length_app.
    simpl. lia. }
  unfold scoreSystem, bind, gets.
  destruct (playerEachFlipCount_ st =? suggestedFlipCount_ st) eqn:Heq.
  { rewrite decide_True by lia. exact Hadd. }
  destruct (playerEachFlipCount_ st >? suggestedFlipCount_ st) eqn:Hgt.
  { rewrite decide_True by lia. exact Hadd. }
  rewrite decide_False; [done |]. lia.
Qed.

(** C6. A call of [flipPieces] that completes leaves [playerEachFlipCount_]
    greater by exactly one, whatever its axis and on any game object; on a
    square puzzle every call with "ROW", "COL" or "DIAGONAL" and an index in
    range completes; and no other method changes the count: not the
    building and scrambling of the puzzle, the heads-up display, the solved
    test, the score system, or any of the messages. *)
Theorem playerEachFlipCount_once_per_flip :
  (forall rowOrCol numRowOrCol st st',
     flipPieces rowOrCol numRowOrCol st = (Normal tt, st') ->
     playerEachFlipCount_ st' = playerEachFlipCount_ st + 1)
  /\ (forall n rowOrCol numRowOrCol st,
        square n (pieces_ st) -> valid_flip n rowOrCol numRowOrCol ->
        exists st',
          flipPieces rowOrCol numRowOrCol st = (Normal tt, st')
          /\ playerEachFlipCount_ st' = playerEachFlipCount_ st + 1)
  /\ (forall rnd XScaleRate totalRow totalCol,
        keeps playerEachFlipCount_
          (instantiatePuzzlePiecesAndControlButtons
             rnd XScaleRate totalRow totalCol))
  /\ keeps playerEachFlipCount_ checkFlipsFromPlayerMessage
  /\ keeps playerEachFlipCount_ checkPuzzleIsSolved
  /\ keeps playerEachFlipCount_ scoreSystem
  /\ keeps playerEachFlipCount_ displayCountflipsFromPlayerMessage
  /\ keeps playerEachFlipCount_ displayFlipSuggestionMessage
  /\ keeps playerEachFlipCount_ displayCongratMessage.
Proof.
  split.
  { intros rowOrCol numRowOrCol st st' Hrun.
    apply flipPieces_inv_normal in Hrun as (st1 & Hloop & Hrep).
    pose proof (keeps_flip_loop playerEachFlipCount_ rowOrCol numRowOrCol
                  (fun _ _ _ => eq_refl) st) as Hkeep.
    rewrite Hloop in Hkeep. simpl in Hkeep. rewrite <- Hkeep.
    pose proof (player_flip_report st1) as Hone.
    by rewrite Hrep in Hone. }
  split.
  { intros n rowOrCol numRowOrCol st Hg Hvalid.
    destruct (flipPieces_valid n st rowOrCol numRowOrCol Hg Hvalid)
      as (st' & Hrun & _ & Hplayer & _).
    by exists st'. }
  split.
  { intros. by apply keeps_instantiatePuzzlePiecesAndControlButtons. }
  split; [by apply keeps_checkFlipsFromPlayerMessage |].
  split; [apply keeps_checkPuzzleIsSolved |].
  split; [by apply keeps_scoreSystem |].
  split; [by apply keeps_displayCountflipsFromPlayerMessage |].
  split; [by apply keeps_displayFlipSuggestionMessage |].
  by apply keeps_displayCongratMessage.
Qed.

Lemma playerEachFlipCount_once_per_flip_witness :
  square 3 (pieces_ game_3x3) /\ valid_flip 3 "COL" 2
  /\ exists st',
       flipPieces "COL" 2 game_3x3 = (Normal tt, st')
       /\ playerEachFlipCount_ st' = 1.
Proof.
  assert (H1 : square 3 (pieces_ game_3x3)).
  { split; [reflexivity | repeat constructor]. }
  assert (H2 : valid_flip 3 "COL" 2).
  { left. split; [by right | simpl; lia]. }
  split; [exact H1 |]. split; [exact H2 |].
  destruct playerEachFlipCount_once_per_flip as (_ & Hvalid & _).
  destruct (Hvalid 3%nat "COL" 2 game_3x3 H1 H2) as (st' & Hrun & Hcount).
  exists st'. split; [exact Hrun |]. exact Hcount.
Defined.

(** C10. When a call of [flipPieces] completes and leaves the puzzle solved,
    one final score message is put on display if the player's flip count,
    this flip included, is at least the suggested count, and none is if the
    player's count is smaller. *)
Theorem final_score_only_at_or_above_par rowOrCol numRowOrCol st st' :
  flipPieces rowOrCol numRowOrCol st = (Normal tt, st') ->
  (checkPuzzleIsSolved st').1 = Normal true ->
  (suggestedFlipCount_ st' <= playerEachFlipCount_ st' ->
   countflips_shown st' = S (countflips_shown st))
  /\ (playerEachFlipCount_ st' < suggestedFlipCount_ st' ->
      countflips_shown st' = countflips_shown st).
Proof.
  intros Hrun Hsolved.
  apply flipPieces_inv_normal in Hrun as (st1 & Hloop & Hrep).
  assert (Hshown : countflips_shown st1 = countflips_shown st).
  { pose proof (keeps_flip_loop countflips_shown rowOrCol numRowOrCol
                  (fun _ _ _ => eq_refl) st) as Hkeep.
    by rewrite Hloop in Hkeep. }
  apply flip_report_inv in Hrep as (b & Hb & ->).
  destruct (checkPuzzleIsSolved_same_pieces (report_state b st1) st1
              (pieces_report_state b st1)) as [Hsame _].
  rewrite Hsame, Hb in Hsolved. injection Hsolved as ->.
  rewrite player_report_state, suggested_report_state, <- Hshown.
  unfold report_state. cbv zeta.
  set (st2 := (checkFlipsFromPlayerMessage
                 (set_player (playerEachFlipCount_ st1 + 1) st1)).2).
  set (st3 := (displayCongratMessage st2).2).
  assert (H3 : countflips_shown st3 = countflips_shown st1).
  { unfold st3. rewrite countflips_shown_displayCongratMessage.
    unfold st2. by rewrite countflips_shown_checkFlipsFromPlayerMessage. }
  assert (Hp3 : playerEachFlipCount_ st3 = playerEachFlipCount_ st1 + 1).
  { unfold st3, st2.
    rewrite (keeps_displayCongratMessage playerEachFlipCount_) by done.
    by rewrite (keeps_checkFlipsFromPlayerMessage playerEachFlipCount_). }
  assert (Hs3 : suggestedFlipCount_ st3 = suggestedFlipCount_ st1).
  { unfold st3, st2.
    rewrite (keeps_displayCongratMessage suggestedFlipCount_) by done.
    by rewrite (keeps_checkFlipsFromPlayerMessage suggestedFlipCount_). }
  change (countflips_shown (set_background false (scoreSystem st3).2))
    with (countflips_shown (scoreSystem st3).2).
  rewrite countflips_shown_scoreSystem, Hp3, Hs3, H3.
  split; intros Hcmp.
  - by rewrite decide_True.
  - rewrite decide_False; [done | lia].
Qed.

Lemma final_score_only_at_or_above_par_witness :
  let st1 := (flipPieces "ROW" 0 game_row0_scrambled).2 in
  let st2 := (flipPieces "ROW" 5 game_row5_left).2 in
  (flipPieces "ROW" 0 game_row0_scrambled = (Normal tt, st1)
   /\ (checkPuzzleIsSolved st1).1 = Normal true
   /\ suggestedFlipCount_ st1 <= playerEachFlipCount_ st1
   /\ countflips_shown st1 = S (countflips_shown game_row0_scrambled))
  /\ (flipPieces "ROW" 5 game_row5_left = (Normal tt, st2)
      /\ (checkPuzzleIsSolved st2).1 = Normal true
      /\ playerEachFlipCount_ st2 < suggestedFlipCount_ st2
      /\ countflips_shown st2 = countflips_shown game_row5_left).
Proof.
  intros st1 st2.
  assert (H1 : flipPieces "ROW" 0 game_row0_scrambled = (Normal tt, st1)).
  { vm_compute. reflexivity. }
  assert (H2 : (checkPuzzleIsSolved st1).1 = Normal true).
  { vm_compute. reflexivity. }
  assert (H3 : suggestedFlipCount_ st1 <= playerEachFlipCount_ st1).
  { vm_compute. discriminate. }
  assert (K1 : flipPieces "ROW" 5 game_row5_left = (Normal tt, st2)).
  { vm_compute. reflexivity. }
  assert (K2 : (checkPuzzleIsSolved st2).1 = Normal true).
  { vm_compute. reflexivity. }
  assert (K3 : playerEachFlipCount_ st2 < suggestedFlipCount_ st2).
  { vm_compute. reflexivity. }
  split.
  - split; [exact H1 |]. split; [exact H2 |]. split; [exact H3 |].
    exact (proj1 (final_score_only_at_or_above_par
                    "ROW" 0 game_row0_scrambled st1 H1 H2) H3).
  - split; [exact K1 |]. split; [exact K2 |]. split; [exact K3 |].
    exact (proj2 (final_score_only_at_or_above_par
                    "ROW" 5 game_row5_left st2 K1 K2) K3).
Defined.

(** ** Flips undo themselves *)

Lemma flipAll_valid n msgs st :
  square n (pieces_ st) ->
  Forall (fun m => valid_flip n m.1 m.2) msgs ->
  exists st',
    flipAll msgs st = (Normal tt, st')
    /\ pieces_ st' =
       toggle_cells flipPieceTween (cells_of_all n msgs) (pieces_ st)
    /\ playerEachFlipCount_ st' =
       playerEachFlipCount_ st + Z.of_nat (length msgs).
Proof.
  intros Hg Hvalid. revert st Hg.
  induction Hvalid as [|[rowOrCol idx] msgs Hm Hrest IH]; intros st Hg.
  - exists st. split; [done |]. split; [done |]. simpl. lia.
  - simpl in Hm.
    destruct (flipPieces_valid n st rowOrCol idx Hg Hm)
      as (st1 & Hrun & Hp1 & Hc1 & _).
    destruct (IH st1) as (st' & Hall & Hp & Hc).
    { rewrite Hp1. by apply rect_toggle_cells. }
    exists st'. split.
    { simpl. by rewrite (bind_normal _ _ _ _ _ Hrun). }
    split.
    + rewrite Hp, Hp1. unfold cells_of_all. simpl.
      by rewrite toggle_cells_app.
    + rewrite Hc, Hc1. simpl length. lia.
Qed.

Lemma cells_of_flip_key n m :
  cells_of n (flip_key m).1 (flip_key m).2 = cells_of n m.1 m.2.
Proof.
  destruct m as [axis idx]. unfold flip_key. simpl.
  destruct (String.eqb axis "DIAGONAL") eqn:Hd; [| done].
  apply String.eqb_eq in Hd. by subst axis.
Qed.

Lemma visits_cells_of_all n p msgs :
  visits p (cells_of_all n msgs) =
  sum_list_with
    (fun m => visits p (cells_of n (flip_key m).1 (flip_key m).2)) msgs.
Proof.
  unfold cells_of_all. induction msgs as [|m msgs IH]; [done |].
  simpl. by rewrite visits_app, IH, cells_of_flip_key.
Qed.

Lemma occurrences_cons k m msgs :
  occurrences k (m :: msgs) =
  ((if decide (flip_key m = k) then 1 else 0) + occurrences k msgs)%nat.
Proof.
  unfold occurrences. rewrite filter_cons. by destruct (decide _).
Qed.

(** Taking every message of key [k] out of a list. *)
Lemma occurrences_without k k' msgs :
  occurrences k' (filter (fun m => flip_key m <> k) msgs) =
  if decide (k' = k) then 0%nat else occurrences k' msgs.
Proof.
  induction msgs as [|m msgs IH]; [by destruct (decide _) |].
  rewrite filter_cons. destruct (decide (flip_key m <> k)) as [Hne|Heq].
  - rewrite !occurrences_cons, IH.
    destruct (decide (k' = k)) as [->|Hk']; [| done].
    by rewrite decide_False.
  - apply dec_stable in Heq. rewrite occurrences_cons, IH.
    destruct (decide (k' = k)) as [->|Hk']; [done |].
    rewrite decide_False; [done | congruence].
Qed.

Lemma sum_by_key (c : string * Z -> nat) k msgs :
  sum_list_with (fun m => c (flip_key m)) msgs =
  (occurrences k msgs * c k
   + sum_list_with (fun m => c (flip_key m))
       (filter (fun m => flip_key m <> k) msgs))%nat.
Proof.
  induction msgs as [|m msgs IH]; [done |].
  rewrite filter_cons, occurrences_cons. simpl sum_list_with at 1.
  rewrite IH. destruct (decide (flip_key m <> k)) as [Hne|Heq].
  - rewrite decide_False by done. simpl. lia.
  - apply dec_stable in Heq. rewrite decide_True by done. subst k. lia.
Qed.

Lemma even_sum_by_key (c : string * Z -> nat) msgs :
  (forall k, Nat.Even (occurrences k msgs)) ->
  Nat.Even (sum_list_with (fun m => c (flip_key m)) msgs).
Proof.
  remember (length msgs) as len eqn:Hlen.
  revert msgs Hlen. induction len as [len IH] using lt_wf_ind.
  intros msgs -> Heven.
  destruct msgs as [|m msgs]; [exists 0%nat; reflexivity |].
  rewrite (sum_by_key c (flip_key m)).
  apply Nat.even_spec. rewrite Nat.even_add.
  assert (H1 : Nat.even (occurrences (flip_key m) (m :: msgs) * c (flip_key m))
               = true).
  { rewrite Nat.even_mul. apply orb_true_iff. left.
    apply Nat.even_spec, Heven. }
  rewrite H1.
  assert (H2 : Nat.Even
    (sum_list_with (fun m0 => c (flip_key m0))
       (filter (fun m0 => flip_key m0 <> flip_key m) (m :: msgs)))).
  { apply (IH (length (filter (fun m0 => flip_key m0 <> flip_key m)
                         (m :: msgs)))); [| done |].
    - rewrite filter_cons_False by (intros Hne; by apply Hne).
      simpl. pose proof (length_filter
        (fun m0 => flip_key m0 <> flip_key m) msgs). lia.
    - intros k. rewrite occurrences_without.
      destruct (decide _); [by exists 0%nat | apply Heven]. }
  apply Nat.even_spec in H2. by rewrite H2.
Qed.

Lemma flipAll_even_occurrences n msgs st :
  square n (pieces_ st) ->
  Forall (fun m => valid_flip n m.1 m.2) msgs ->
  (forall k, Nat.Even (occurrences k msgs)) ->
  exists st',
    flipAll msgs st = (Normal tt, st')
    /\ square n (pieces_ st')
    /\ (forall a b, flag_at (pieces_ st') a b = flag_at (pieces_ st) a b)
    /\ playerEachFlipCount_ st' =
       playerEachFlipCount_ st + Z.of_nat (length msgs).
Proof.
  intros Hg Hvalid Heven.
  destruct (flipAll_valid n msgs st Hg Hvalid) as (st' & Hrun & Hp & Hc).
  exists st'. split; [done |]. rewrite Hp. split.
  { by apply rect_toggle_cells. }
  split; [| done]. intros a b.
  rewrite flag_at_toggle_cells, visits_cells_of_all.
  pose proof (even_sum_by_key
                (fun k => visits (a, b) (cells_of n k.1 k.2)) msgs Heven)
    as Hsum.
  apply Nat.even_spec in Hsum. unfold Nat.odd. rewrite Hsum. simpl.
  apply fmap_xorb_false.
Qed.

(** C7. On an [n] by [n] puzzle, a valid flip made twice in a row leaves
    every cell's [flipped] flag as it was before the two calls. More
    generally, after any list of valid flips in which every flip (a row, a
    column, or the diagonal) occurs an even number of times, in whatever
    order, all flags are as before; when the puzzle was solved before, it is
    solved after. *)
Theorem flips_self_inverse n st :
  square n (pieces_ st) ->
  (forall rowOrCol numRowOrCol,
     valid_flip n rowOrCol numRowOrCol ->
     exists st1 st2,
       flipPieces rowOrCol numRowOrCol st = (Normal tt, st1)
       /\ flipPieces rowOrCol numRowOrCol st1 = (Normal tt, st2)
       /\ flags (pieces_ st2) = flags (pieces_ st))
  /\ (forall msgs,
        Forall (fun m => valid_flip n m.1 m.2) msgs ->
        (forall k, Nat.Even (occurrences k msgs)) ->
        exists st',
          flipAll msgs st = (Normal tt, st')
          /\ flags (pieces_ st') = flags (pieces_ st)
          /\ ((checkPuzzleIsSolved st).1 = Normal true ->
              (checkPuzzleIsSolved st').1 = Normal true)).
Proof.
  intros Hg. split.
  - intros rowOrCol idx Hvalid.
    destruct (flipAll_even_occurrences n
                [(rowOrCol, idx); (rowOrCol, idx)] st Hg)
      as (st2 & Hrun & Hg2 & Hflags & _).
    { constructor; [exact Hvalid |]. constructor; [exact Hvalid |].
      constructor. }
    { intros k. rewrite !occurrences_cons.
      destruct (decide _); [by exists 1%nat | by exists 0%nat]. }
    simpl in Hrun.
    apply bind_inv_normal in Hrun as ([] & st1 & Hrun1 & Hrun).
    apply bind_inv_normal in Hrun as ([] & st2' & Hrun2 & [= <-]).
    exists st1, st2'. split; [done |]. split; [done |].
    by apply (flags_ext n n).
  - intros msgs Hvalid Heven.
    destruct (flipAll_even_occurrences n msgs st Hg Hvalid Heven)
      as (st' & Hrun & Hg' & Hflags & _).
    exists st'. split; [done |]. split.
    { by apply (flags_ext n n). }
    destruct (checkPuzzleIsSolved_square n st Hg) as (b & Hb & Hiff).
    destruct (checkPuzzleIsSolved_square n st' Hg') as (b' & Hb' & Hiff').
    rewrite Hb, Hb'. simpl. intros [= ->]. f_equal. apply Hiff'.
    intros a c. rewrite Hflags. by apply Hiff.
Qed.

Lemma flips_self_inverse_witness :
  let msgs := [("ROW", 1); ("DIAGONAL", 0); ("COL", 2); ("ROW", 1);
               ("COL", 2); ("DIAGONAL", 5)] in
  square 3 (pieces_ game_3x3)
  /\ valid_flip 3 "ROW" 1
  /\ Forall (fun m => valid_flip 3 m.1 m.2) msgs
  /\ (forall k, Nat.Even (occurrences k msgs))
  /\ (exists st1 st2,
        flipPieces "ROW" 1 game_3x3 = (Normal tt, st1)
        /\ flipPieces "ROW" 1 st1 = (Normal tt, st2)
        /\ flags (pieces_ st2) = flags (pieces_ game_3x3))
  /\ (exists st',
        flipAll msgs game_3x3 = (Normal tt, st')
        /\ flags (pieces_ st') = flags (pieces_ game_3x3)
        /\ (checkPuzzleIsSolved st').1 = Normal true).
Proof.
  intros msgs.
  assert (H1 : square 3 (pieces_ game_3x3)).
  { split; [reflexivity | repeat constructor]. }
  assert (H2 : valid_flip 3 "ROW" 1).
  { left. split; [by left | simpl; lia]. }
  assert (H3 : Forall (fun m => valid_flip 3 m.1 m.2) msgs).
  { unfold msgs.
    repeat (apply List.Forall_cons;
      [ first [ by right
              | left; split; [by left | simpl; lia]
              | left; split; [by right | simpl; lia] ] |]).
    apply List.Forall_nil. }
  assert (H4 : forall k, Nat.Even (occurrences k msgs)).
  { intros k. unfold msgs. rewrite !occurrences_cons. simpl.
    repeat destruct (decide _); apply Nat.even_spec; reflexivity. }
  split; [exact H1 |]. split; [exact H2 |]. split; [exact H3 |].
  split; [exact H4 |].
  destruct (flips_self_inverse 3 game_3x3 H1) as [Htwice Hall].
  split; [exact (Htwice "ROW" 1 H2) |].
  destruct (Hall msgs H3 H4) as (st' & Hrun & Hflags & Hsolved).
  exists st'. split; [exact Hrun |]. split; [exact Hflags |].
  apply Hsolved. vm_compute. reflexivity.
Defined.

(** ** An index outside the puzzle *)

Lemma call_on_piece_no_row f r c st :
  js_index (pieces_ st) r = None ->
  call_on_piece f r c st = (Throw TypeError, st).
Proof. intros H. unfold call_on_piece, bind, pieces_at. by rewrite H. Qed.

Lemma call_on_piece_no_cell f r c row st :
  js_index (pieces_ st) r = Some row -> js_index row c = None ->
  call_on_piece f r c st = (Throw TypeError, st).
Proof.
  intros Hrow Hc. unfold call_on_piece, bind, pieces_at. by rewrite Hrow, Hc.
Qed.

(** C9, as the code has it. On an [n] by [n] puzzle with at least one row,
    [flipPieces] with "ROW" or "COL" and an index outside [0 .. n-1] throws
    a TypeError in the first round of its loop, before any piece is
    touched: the game object, with its flags and the player's flip count,
    is as before. *)
Theorem flipPieces_index_out_of_range n st rowOrCol numRowOrCol :
  (0 < n)%nat -> square n (pieces_ st) ->
  rowOrCol = "ROW" \/ rowOrCol = "COL" ->
  ~ (0 <= numRowOrCol < Z.of_nat n) ->
  flipPieces rowOrCol numRowOrCol st = (Throw TypeError, st).
Proof.
  intros Hpos Hg Haxis Hout.
  assert (Hn : length (pieces_ st) = n) by apply Hg.
  destruct n as [|k]; [lia |].
  rewrite flipPieces_halves. apply bind_throw.
  unfold flip_loop. unfold bind at 1. unfold gets. rewrite Hn.
  destruct Haxis as [-> | ->].
  - rewrite String.eqb_refl. cbn [for_]. apply bind_throw.
    apply call_on_piece_no_row, js_index_out_of_range. by rewrite Hn.
  - change (String.eqb "COL" "ROW") with false. rewrite String.eqb_refl.
    cbn [for_]. apply bind_throw.
    destruct (rect_lookup _ _ _ 0%nat Hg) as (row & Hrow & Hlen); [lia |].
    apply (call_on_piece_no_cell _ _ _ row).
    + by rewrite js_index_of_nat.
    + apply js_index_out_of_range. by rewrite Hlen.
Qed.

Lemma flipPieces_index_out_of_range_witness :
  (0 < 3)%nat /\ square 3 (pieces_ game_3x3)
  /\ ("COL" = "ROW" \/ "COL" = "COL") /\ ~ (0 <= 3 < Z.of_nat 3)
  /\ flipPieces "COL" 3 game_3x3 = (Throw TypeError, game_3x3).
Proof.
  assert (H0 : (0 < 3)%nat) by lia.
  assert (H1 : square 3 (pieces_ game_3x3)).
  { split; [reflexivity | repeat constructor]. }
  assert (H2 : "COL" = "ROW" \/ "COL" = "COL") by (right; reflexivity).
  assert (H3 : ~ (0 <= 3 < Z.of_nat 3)) by (simpl; lia).
  split; [exact H0 |]. split; [exact H1 |]. split; [exact H2 |].
  split; [exact H3 |].
  exact (flipPieces_index_out_of_range 3 game_3x3 "COL" 3 H0 H1 H2 H3).
Defined.

(** C9 as stated fails on the puzzle with no rows, which is the game object
    between its construction and the loading of the image: every index is
    outside the empty range, the loop has no round, nothing is thrown, and
    the player's flip count goes from 0 to 1. *)
Lemma flipPieces_out_of_range_on_empty_puzzle :
  square 0 (pieces_ new_StarcastGame)
  /\ ~ (0 <= 0 < Z.of_nat 0)
  /\ (flipPieces "ROW" 0 new_StarcastGame).1 = Normal tt
  /\ ~ (exists e, (flipPieces "ROW" 0 new_StarcastGame).1 = Throw e)
  /\ playerEachFlipCount_ new_StarcastGame = 0
  /\ playerEachFlipCount_ (flipPieces "ROW" 0 new_StarcastGame).2 = 1.
Proof.
  split; [by split |]. split; [simpl; lia |]. split; [reflexivity |].
  split; [| by split]. intros [e He]. vm_compute in He. discriminate.
Qed.

(** ** The scramble *)

Lemma build_pieces p0 totalRow totalCol st :
  pieces_ st = [] ->
  for_ 0 totalRow (fun row =>
    push_row ;; for_ 0 totalCol (fun col => push_piece row p0)) st =
  (Normal tt, set_pieces (replicate totalRow (replicate totalCol p0)) st).
Proof.
  intros Hempty.
  destruct (for_invariant
    (fun i s => s = set_pieces (replicate i (replicate totalCol p0)) st)
    (fun row => push_row ;; for_ 0 totalCol (fun col => push_piece row p0))
    0 totalRow st) as (st' & Hrun & ->).
  - simpl. by rewrite <- Hempty, set_pieces_id.
  - intros i s _ ->. unfold bind at 1. unfold push_row, modify.
    set (full := replicate totalCol p0).
    destruct (for_invariant
      (fun j s => s = set_pieces (replicate i full ++ [replicate j p0])%list st)
      (fun col => push_piece i p0) 0 totalCol
      (set_pieces (replicate i full ++ [[]])%list
         (set_pieces (replicate i full) st))) as (s' & Hinner & ->).
    + done.
    + intros j s _ ->. unfold push_piece. cbn [pieces_ set_pieces].
      rewrite list_lookup_middle by by rewrite length_replicate.
      eexists. split; [reflexivity |].
      rewrite set_pieces_twice. f_equal.
      replace i with (length (replicate i full) + 0)%nat at 1
        by (rewrite length_replicate; lia).
      rewrite alter_app_r. by rewrite (replicate_S_end j).
    + eexists. split; [exact Hinner |].
      by rewrite (replicate_S_end i).
  - exact Hrun.
Qed.

Lemma rect_replicate rows cols p0 :
  rect rows cols (replicate rows (replicate cols p0)).
Proof.
  split; [apply length_replicate |].
  apply Forall_replicate, length_replicate.
Qed.

Lemma fired_snoc rnd base k :
  fired rnd base (S k) =
  (fired rnd base k
   + if Qlt_bool (rnd (base + k)%nat) one_half then 1 else 0)%nat.
Proof.
  revert base. induction k as [|k IH]; intros base.
  - simpl. replace (base + 0)%nat with base by lia.
    destruct (Qlt_bool _ _); lia.
  - change (fired rnd base (S (S k))) with
      ((if Qlt_bool (rnd base) one_half then 1 else 0)
       + fired rnd (S base) (S k))%nat.
    rewrite IH. replace (S base + k)%nat with (base + S k)%nat by lia.
    change (fired rnd base (S k)) with
      ((if Qlt_bool (rnd base) one_half then 1 else 0)
       + fired rnd (S base) k)%nat.
    destruct (Qlt_bool (rnd base) _), (Qlt_bool (rnd (base + S k)%nat) _); lia.
Qed.

Lemma fired_add rnd base j k :
  fired rnd base (j + k) = (fired rnd base j + fired rnd (base + j) k)%nat.
Proof.
  revert base. induction j as [|j IH]; intros base.
  - simpl. by rewrite Nat.add_0_r.
  - simpl. rewrite IH. replace (S base + j)%nat with (base + S j)%nat by lia.
    lia.
Qed.

Lemma fired_le rnd base k : (fired rnd base k <= k)%nat.
Proof.
  revert base. induction k as [|k IH]; intros base; [done |].
  simpl. specialize (IH (S base)). destruct (Qlt_bool _ _); lia.
Qed.

(** The loop over the rows, and the one over the columns: one random value
    per round, and one more suggested flip for each value below one half. *)
Lemma scramble_loop rnd rows cols rounds inner (rz cz : nat -> nat -> Z) st :
  rect rows cols (pieces_ st) ->
  (forall i j, (i < rounds)%nat -> (j < inner)%nat ->
     0 <= rz i j < Z.of_nat rows /\ 0 <= cz i j < Z.of_nat cols) ->
  exists st',
    for_ 0 rounds (fun i =>
      x <- Math_random rnd ;;
      if Qlt_bool x one_half then
        (for_ 0 inner (fun j => call_on_piece flipPiece (rz i j) (cz i j)) ;;
         modify (fun st => set_suggested (suggestedFlipCount_ st + 1) st))
      else ret tt) st = (Normal tt, st')
    /\ rect rows cols (pieces_ st')
    /\ random_calls st' = (random_calls st + rounds)%nat
    /\ suggestedFlipCount_ st' =
       suggestedFlipCount_ st + Z.of_nat (fired rnd (random_calls st) rounds).
Proof.
  intros Hg Hin.
  apply (for_invariant
    (fun i s =>
       rect rows cols (pieces_ s)
       /\ random_calls s = (random_calls st + i)%nat
       /\ suggestedFlipCount_ s =
          suggestedFlipCount_ st + Z.of_nat (fired rnd (random_calls st) i))).
  - split; [done |]. split; [lia | simpl; lia].
  - intros i s Hi (Hgs & Hcalls & Hsug).
    unfold bind at 1. unfold Math_random. rewrite fired_snoc, Hcalls.
    destruct (Qlt_bool _ _).
    + erewrite bind_normal.
      2:{ apply (for_call_on_piece flipPiece rows cols); [done |].
          intros j Hj. apply Hin; lia. }
      eexists. split; [reflexivity |]. simpl.
      split; [by apply rect_toggle_cells |]. split; [lia |].
      rewrite Hsug. lia.
    + eexists. split; [reflexivity |]. simpl.
      split; [done |]. split; [lia |]. rewrite Hsug. lia.
Qed.

(** A loop whose every round keeps an invariant unless it throws. *)
Lemma for_invariant_or_throw (I : nat -> game -> Prop) body start count st :
  I start st ->
  (forall i s, (start <= i < start + count)%nat -> I i s ->
     (exists s', body i s = (Normal tt, s') /\ I (S i) s')
     \/ (exists e s', body i s = (Throw e, s'))) ->
  (exists st', for_ start count body st = (Normal tt, st')
               /\ I (start + count)%nat st')
  \/ (exists e st', for_ start count body st = (Throw e, st')).
Proof.
  revert start st. induction count as [|k IH]; intros start st HI Hbody.
  - left. exists st. rewrite Nat.add_0_r. done.
  - destruct (Hbody start st) as [(s1 & Hs1 & HI1)|(e & s1 & Hs1)];
      [lia | done | |].
    + destruct (IH (S start) s1) as [(st' & Hrun & HI')|(e & st' & Hrun)];
        [done | |  |].
      * intros i s Hi. apply Hbody. lia.
      * left. exists st'. split.
        -- simpl. by rewrite (bind_normal _ _ _ _ _ Hs1).
        -- by replace (start + S k)%nat with (S start + k)%nat by lia.
      * right. exists e, st'. simpl. by rewrite (bind_normal _ _ _ _ _ Hs1).
    + right. exists e, s1. simpl. by rewrite (bind_throw _ _ _ _ _ Hs1).
Qed.

Lemma call_on_piece_cases f rows cols r c st :
  rect rows cols (pieces_ st) ->
  (exists s', call_on_piece f r c st = (Normal tt, s')
              /\ rect rows cols (pieces_ s')
              /\ random_calls s' = random_calls st
              /\ suggestedFlipCount_ s' = suggestedFlipCount_ st)
  \/ (exists e s', call_on_piece f r c st = (Throw e, s')).
Proof.
  intros Hg.
  destruct (decide (0 <= r < Z.of_nat rows /\ 0 <= c < Z.of_nat cols))
    as [[Hr Hc]|Hout].
  - left. rewrite (call_on_piece_in_range f rows cols) by done.
    eexists. split; [reflexivity |]. split; [| done].
    by apply rect_toggle.
  - right. exists TypeError, st.
    assert (Hlen : length (pieces_ st) = rows) by apply Hg.
    destruct (decide (0 <= r < Z.of_nat rows)) as [Hr|Hr].
    + destruct (rect_lookup _ _ _ (Z.to_nat r) Hg) as (row & Hrow & Hl);
        [lia |].
      apply (call_on_piece_no_cell _ _ _ row).
      * rewrite js_index_in_range by lia. done.
      * apply js_index_out_of_range. rewrite Hl. lia.
    + apply call_on_piece_no_row, js_index_out_of_range. by rewrite Hlen.
Qed.

Lemma scramble_diagonal_step_run rnd cols st :
  scramble_diagonal_step rnd cols st =
  (if Qlt_bool (rnd (random_calls st)) one_half then
     (for_ 0 cols (fun i =>
        len <- gets (fun st => length (pieces_ st)) ;;
        call_on_piece flipPiece (Z.of_nat len - Z.of_nat i - 1) (Z.of_nat i)) ;;
      modify (fun st => set_suggested (suggestedFlipCount_ st + 1) st))
   else ret tt) (set_random_calls (S (random_calls st)) st).
Proof. reflexivity. Qed.

(** The diagonal step draws one random value and, when it completes, adds
    one suggested flip exactly if the value is below one half. *)
Lemma scramble_diagonal_cases rnd rows cols st :
  rect rows cols (pieces_ st) ->
  (exists st',
     scramble_diagonal_step rnd cols st = (Normal tt, st')
     /\ rect rows cols (pieces_ st')
     /\ random_calls st' = S (random_calls st)
     /\ suggestedFlipCount_ st' =
        suggestedFlipCount_ st + Z.of_nat (fired rnd (random_calls st) 1))
  \/ (exists e st', scramble_diagonal_step rnd cols st = (Throw e, st')).
Proof.
  intros Hg. rewrite scramble_diagonal_step_run. simpl fired.
  destruct (Qlt_bool _ _).
  - destruct (for_invariant_or_throw
      (fun _ s =>
         rect rows cols (pieces_ s)
         /\ random_calls s = S (random_calls st)
         /\ suggestedFlipCount_ s = suggestedFlipCount_ st)
      (fun i =>
         len <- gets (fun st => length (pieces_ st)) ;;
         call_on_piece flipPiece (Z.of_nat len - Z.of_nat i - 1) (Z.of_nat i))
      0 cols (set_random_calls (S (random_calls st)) st))
      as [(s' & Hrun & Hgs & Hcalls & Hsug)|(e & s' & Hrun)].
    + done.
    + intros i s Hi (Hgs & Hcalls & Hsug). unfold bind at 1. unfold gets.
      destruct (call_on_piece_cases flipPiece rows cols
                  (Z.of_nat (length (pieces_ s)) - Z.of_nat i - 1)
                  (Z.of_nat i) s Hgs)
        as [(s' & Hcall & Hg' & Hc' & Hs')|(e & s' & Hcall)].
      * left. exists s'. split; [done |]. split; [done |].
        split; congruence.
      * right. by exists e, s'.
    + left. rewrite (bind_normal _ _ _ _ _ Hrun).
      eexists. split; [reflexivity |]. simpl.
      split; [done |]. split; [done |]. rewrite Hsug. lia.
    + right. exists e, s'. by rewrite (bind_throw _ _ _ _ _ Hrun).
  - left. eexists. split; [reflexivity |]. simpl. split; [done |].
    split; [done | lia].
Qed.

(** With at least as many rows as columns the diagonal step completes. *)
Lemma scramble_diagonal_completes rnd rows cols st :
  rect rows cols (pieces_ st) -> (cols <= rows)%nat ->
  exists st', scramble_diagonal_step rnd cols st = (Normal tt, st').
Proof.
  intros Hg Hle. rewrite scramble_diagonal_step_run.
  destruct (Qlt_bool _ _); [| by eexists].
  destruct (for_invariant
    (fun _ s => rect rows cols (pieces_ s))
    (fun i =>
       len <- gets (fun st => length (pieces_ st)) ;;
       call_on_piece flipPiece (Z.of_nat len - Z.of_nat i - 1) (Z.of_nat i))
    0 cols (set_random_calls (S (random_calls st)) st)) as (s' & Hrun & _).
  - done.
  - intros i s Hi Hgs. unfold bind, gets.
    assert (Hlen : length (pieces_ s) = rows) by apply Hgs.
    rewrite Hlen.
    rewrite (call_on_piece_in_range flipPiece rows cols) by (done || lia).
    eexists. split; [reflexivity |]. by apply rect_toggle.
  - rewrite (bind_normal _ _ _ _ _ Hrun). by eexists.
Qed.

(** The building of the puzzle and the scramble of its rows and columns
    complete; what is left is the diagonal step and the two texts. *)
Lemma instantiate_until_diagonal rnd XScaleRate totalRow totalCol st :
  pieces_ st = [] ->
  exists st3,
    rect totalRow totalCol (pieces_ st3)
    /\ random_calls st3 = (random_calls st + (totalRow + totalCol))%nat
    /\ suggestedFlipCount_ st3 =
       suggestedFlipCount_ st
       + Z.of_nat (fired rnd (random_calls st) (totalRow + totalCol))
    /\ instantiatePuzzlePiecesAndControlButtons rnd XScaleRate
         totalRow totalCol st =
       bind (scramble_diagonal_step rnd totalCol)
         (fun _ => checkFlipsFromPlayerMessage ;; displayFlipSuggestionMessage)
         st3.
Proof.
  intros Hempty.
  set (p0 := createSpriteFromSpriteSheet XScaleRate).
  pose proof (build_pieces p0 totalRow totalCol st Hempty) as Hbuild.
  set (st1 := set_pieces (replicate totalRow (replicate totalCol p0)) st)
    in Hbuild.
  assert (Hg1 : rect totalRow totalCol (pieces_ st1))
    by apply rect_replicate.
  destruct (scramble_loop rnd totalRow totalCol totalRow totalCol
              (fun row col => Z.of_nat row) (fun row col => Z.of_nat col)
              st1 Hg1) as (st2 & Hrows & Hg2 & Hcalls2 & Hsug2).
  { intros i j Hi Hj. lia. }
  destruct (scramble_loop rnd totalRow totalCol totalCol totalRow
              (fun col row => Z.of_nat row) (fun col row => Z.of_nat col)
              st2 Hg2) as (st3 & Hcols & Hg3 & Hcalls3 & Hsug3).
  { intros i j Hi Hj. lia. }
  exists st3. split; [done |]. split.
  { rewrite Hcalls3, Hcalls2.
    change (random_calls st1) with (random_calls st). lia. }
  split.
  { rewrite Hsug3, Hsug2, Hcalls2.
    change (suggestedFlipCount_ st1) with (suggestedFlipCount_ st).
    change (random_calls st1) with (random_calls st).
    rewrite (fired_add rnd _ totalRow totalCol). lia. }
  unfold instantiatePuzzlePiecesAndControlButtons.
  rewrite (bind_normal _ _ _ _ _ Hbuild).
  rewrite (bind_normal _ _ _ _ _ Hrows).
  rewrite (bind_normal _ _ _ _ _ Hcols).
  reflexivity.
Qed.

Lemma instantiate_after_diagonal st4 :
  exists st',
    bind checkFlipsFromPlayerMessage
      (fun _ => displayFlipSuggestionMessage) st4 = (Normal tt, st')
    /\ pieces_ st' = pieces_ st4
    /\ random_calls st' = random_calls st4
    /\ suggestedFlipCount_ st' = suggestedFlipCount_ st4.
Proof. eexists. split; [reflexivity |]. done. Qed.

(** Whenever the building and scrambling completes, the suggested flip
    count has grown by the number of random values below one half among the
    rows + columns + 1 values drawn. *)
Lemma instantiatePuzzlePieces_counts rnd XScaleRate totalRow totalCol st st' :
  pieces_ st = [] ->
  instantiatePuzzlePiecesAndControlButtons rnd XScaleRate totalRow totalCol st
    = (Normal tt, st') ->
  rect totalRow totalCol (pieces_ st')
  /\ random_calls st' = (random_calls st + (totalRow + totalCol + 1))%nat
  /\ suggestedFlipCount_ st' =
     suggestedFlipCount_ st
     + Z.of_nat (fired rnd (random_calls st) (totalRow + totalCol + 1)).
Proof.
  intros Hempty Hrun.
  destruct (instantiate_until_diagonal rnd XScaleRate totalRow totalCol st
              Hempty) as (st3 & Hg3 & Hcalls3 & Hsug3 & Heq).
  rewrite Heq in Hrun.
  apply bind_inv_normal in Hrun as ([] & st4 & Hdiag & Hrest).
  destruct (scramble_diagonal_cases rnd totalRow totalCol st3 Hg3)
    as [(st4' & Hdiag' & Hg4 & Hcalls4 & Hsug4)|(e & st4' & Hdiag')];
    [| congruence].
  rewrite Hdiag in Hdiag'. injection Hdiag' as <-.
  destruct (instantiate_after_diagonal st4) as (st5 & Hfin & Hp & Hc & Hs).
  rewrite Hrest in Hfin. injection Hfin as <-.
  rewrite Hp, Hc, Hs, Hcalls4, Hsug4, Hcalls3, Hsug3.
  split; [done |]. split; [lia |].
  rewrite (fired_add rnd _ (totalRow + totalCol) 1). lia.
Qed.

Lemma instantiatePuzzlePieces_completes rnd XScaleRate totalRow totalCol st :
  pieces_ st = [] -> (totalCol <= totalRow)%nat ->
  exists st',
    instantiatePuzzlePiecesAndControlButtons rnd XScaleRate totalRow totalCol
      st = (Normal tt, st').
Proof.
  intros Hempty Hle.
  destruct (instantiate_until_diagonal rnd XScaleRate totalRow totalCol st
              Hempty) as (st3 & Hg3 & _ & _ & ->).
  destruct (scramble_diagonal_completes rnd totalRow totalCol st3 Hg3 Hle)
    as (st4 & Hdiag).
  rewrite (bind_normal _ _ _ _ _ Hdiag). by eexists.
Qed.

(** The puzzle that play starts from is six by six. *)
Lemma imageOnLoad_square rnd XScaleRate :
  exists st',
    imageOnLoad rnd XScaleRate new_StarcastGame = (Normal tt, st')
    /\ square 6 (pieces_ st').
Proof.
  destruct (instantiatePuzzlePieces_completes rnd XScaleRate 6 6
              new_StarcastGame) as (st' & Hrun); [reflexivity | lia |].
  exists st'. split; [exact Hrun |].
  by apply (instantiatePuzzlePieces_counts rnd XScaleRate 6 6
              new_StarcastGame st').
Qed.

(** C8. The building and scrambling of a puzzle of [totalRow] rows and
    [totalCol] columns starts on a game object without pieces and with a
    suggested flip count of 0, as the constructor leaves it. It calls
    [Math.random] once for each row, each column and the diagonal; every
    value below one half sets off one scramble operation and one increment.
    Whenever it completes, [suggestedFlipCount_] is the number of those
    rows + columns + 1 values that were below one half, a number between 0
    and rows + columns + 1; and it does complete, for all random values,
    when there are no more columns than rows (the code asks for six of
    each). *)
Theorem suggestedFlipCount_counts_scrambles
    rnd XScaleRate totalRow totalCol st :
  pieces_ st = [] -> suggestedFlipCount_ st = 0 ->
  (forall st',
     instantiatePuzzlePiecesAndControlButtons rnd XScaleRate totalRow totalCol
       st = (Normal tt, st') ->
     random_calls st' = (random_calls st + (totalRow + totalCol + 1))%nat
     /\ suggestedFlipCount_ st' =
        Z.of_nat (fired rnd (random_calls st) (totalRow + totalCol + 1))
     /\ 0 <= suggestedFlipCount_ st' <= Z.of_nat (totalRow + totalCol + 1))
  /\ ((totalCol <= totalRow)%nat ->
      exists st',
        instantiatePuzzlePiecesAndControlButtons rnd XScaleRate
          totalRow totalCol st = (Normal tt, st')).
Proof.
  intros Hempty Hzero. split.
  - intros st' Hrun.
    destruct (instantiatePuzzlePieces_counts rnd XScaleRate totalRow totalCol
                st st' Hempty Hrun) as (_ & Hcalls & Hsug).
    rewrite Hzero in Hsug. split; [done |]. rewrite Hsug. split; [lia |].
    pose proof (fired_le rnd (random_calls st) (totalRow + totalCol + 1)).
    lia.
  - by apply instantiatePuzzlePieces_completes.
Qed.

(** With more columns than rows the diagonal loop leaves the array: asked
    for one row and two columns, with every random value below one half, the
    scramble throws in the second round of that loop, after three
    increments. *)
Example scramble_wide_puzzle_throws :
  let r := instantiatePuzzlePiecesAndControlButtons (fun _ => 0%Q) 1%Q 1 2
             new_StarcastGame in
  r.1 = Throw TypeError /\ suggestedFlipCount_ r.2 = 3.
Proof. vm_compute. split; reflexivity. Qed.

Lemma suggestedFlipCount_counts_scrambles_witness :
  pieces_ new_StarcastGame = [] /\ suggestedFlipCount_ new_StarcastGame = 0
  /\ (6 <= 6)%nat
  /\ exists st',
       imageOnLoad rnd_first_only 1%Q new_StarcastGame = (Normal tt, st')
       /\ suggestedFlipCount_ st' = 1.
Proof.
  assert (H1 : pieces_ new_StarcastGame = []) by reflexivity.
  assert (H2 : suggestedFlipCount_ new_StarcastGame = 0) by reflexivity.
  assert (H3 : (6 <= 6)%nat) by lia.
  split; [exact H1 |]. split; [exact H2 |]. split; [exact H3 |].
  destruct (suggestedFlipCount_counts_scrambles rnd_first_only 1%Q 6 6
              new_StarcastGame H1 H2) as [Hcounts Hcompletes].
  destruct (Hcompletes H3) as (st' & Hrun).
  exists st'. split; [exact Hrun |].
  destruct (Hcounts st' Hrun) as (_ & Hcount & _).
  rewrite Hcount. reflexivity.
Defined.

(** * Further properties of the puzzle *)

(** ** What the scramble leaves *)

Lemma scramble_loop_pieces rnd rows cols rounds inner
    (rz cz : nat -> nat -> Z) st :
  rect rows cols (pieces_ st) ->
  (forall i j, (i < rounds)%nat -> (j < inner)%nat ->
     0 <= rz i j < Z.of_nat rows /\ 0 <= cz i j < Z.of_nat cols) ->
  exists st',
    for_ 0 rounds (fun i =>
      x <- Math_random rnd ;;
      if Qlt_bool x one_half then
        (for_ 0 inner (fun j => call_on_piece flipPiece (rz i j) (cz i j)) ;;
         modify (fun st => set_suggested (suggestedFlipCount_ st + 1) st))
      else ret tt) st = (Normal tt, st')
    /\ pieces_ st' =
       toggle_cells flipPiece
         (loop_cells rnd (random_calls st) rounds inner
            (fun i j => (Z.to_nat (rz i j), Z.to_nat (cz i j))))
         (pieces_ st)
    /\ random_calls st' = (random_calls st + rounds)%nat.
Proof.
  intros Hg Hin.
  apply (for_invariant
    (fun i s =>
       pieces_ s =
       toggle_cells flipPiece
         (loop_cells rnd (random_calls st) i inner
            (fun i j => (Z.to_nat (rz i j), Z.to_nat (cz i j))))
         (pieces_ st)
       /\ random_calls s = (random_calls st + i)%nat)).
  - split; [done | lia].
  - intros i s Hi (Hp & Hcalls).
    assert (Hgs : rect rows cols (pieces_ s)).
    { rewrite Hp. by apply rect_toggle_cells. }
    unfold bind at 1. unfold Math_random. rewrite Hcalls.
    cbn [loop_cells]. rewrite toggle_cells_app, <- Hp.
    destruct (Qlt_bool _ _).
    + erewrite bind_normal.
      2:{ apply (for_call_on_piece flipPiece rows cols); [done |].
          intros j Hj. apply Hin; lia. }
      eexists. split; [reflexivity |]. simpl. split; [done | lia].
    + eexists. split; [reflexivity |]. simpl. split; [done | lia].
Qed.

Lemma scramble_diagonal_pieces rnd rows cols st :
  rect rows cols (pieces_ st) -> (cols <= rows)%nat ->
  exists st',
    scramble_diagonal_step rnd cols st = (Normal tt, st')
    /\ pieces_ st' =
       toggle_cells flipPiece
         (if Qlt_bool (rnd (random_calls st)) one_half
          then map (fun i => (Z.to_nat (Z.of_nat rows - Z.of_nat i - 1), i))
                 (seq 0 cols)
          else [])
         (pieces_ st).
Proof.
  intros Hg Hle. rewrite scramble_diagonal_step_run.
  destruct (Qlt_bool _ _); [| by eexists].
  destruct (for_invariant
    (fun i s =>
       pieces_ s =
       toggle_cells flipPiece
         (map (fun i => (Z.to_nat (Z.of_nat rows - Z.of_nat i - 1), i))
            (seq 0 i))
         (pieces_ st))
    (fun i =>
       len <- gets (fun st => length (pieces_ st)) ;;
       call_on_piece flipPiece (Z.of_nat len - Z.of_nat i - 1) (Z.of_nat i))
    0 cols (set_random_calls (S (random_calls st)) st)) as (s' & Hrun & Hp).
  - done.
  - intros i s Hi Hp.
    assert (Hgs : rect rows cols (pieces_ s)).
    { rewrite Hp. by apply rect_toggle_cells. }
    unfold bind, gets.
    assert (Hlen : length (pieces_ s) = rows) by apply Hgs.
    rewrite Hlen.
    rewrite (call_on_piece_in_range flipPiece rows cols) by (done || lia).
    eexists. split; [reflexivity |]. cbn [pieces_ set_pieces].
    rewrite seq_S, map_app, toggle_cells_app, <- Hp. simpl.
    by rewrite Nat2Z.id.
  - rewrite (bind_normal _ _ _ _ _ Hrun). eexists. split; [reflexivity |].
    exact Hp.
Qed.

Lemma loop_cells_ext rnd base rounds inner pos pos' :
  (forall i j, pos i j = pos' i j) ->
  loop_cells rnd base rounds inner pos = loop_cells rnd base rounds inner pos'.
Proof.
  intros Hext. induction rounds as [|k IH]; [done |].
  simpl. rewrite IH. destruct (Qlt_bool _ _); [| done].
  f_equal. apply map_ext. intros j. apply Hext.
Qed.

(** With no more columns than rows, the building and scrambling completes
    and leaves the fresh sprites with [flipPiece] called on the cells of the
    scramble. *)
Lemma instantiate_pieces rnd XScaleRate totalRow totalCol st :
  pieces_ st = [] -> (totalCol <= totalRow)%nat ->
  exists st',
    instantiatePuzzlePiecesAndControlButtons rnd XScaleRate totalRow totalCol
      st = (Normal tt, st')
    /\ pieces_ st' =
       toggle_cells flipPiece
         (scramble_cells rnd (random_calls st) totalRow totalCol)
         (replicate totalRow
            (replicate totalCol (createSpriteFromSpriteSheet XScaleRate))).
Proof.
  intros Hempty Hle.
  set (p0 := createSpriteFromSpriteSheet XScaleRate).
  pose proof (build_pieces p0 totalRow totalCol st Hempty) as Hbuild.
  set (st1 := set_pieces (replicate totalRow (replicate totalCol p0)) st)
    in Hbuild.
  assert (Hg1 : rect totalRow totalCol (pieces_ st1))
    by apply rect_replicate.
  destruct (scramble_loop_pieces rnd totalRow totalCol totalRow totalCol
              (fun row col => Z.of_nat row) (fun row col => Z.of_nat col)
              st1 Hg1) as (st2 & Hrows & Hp2 & Hcalls2).
  { intros i j Hi Hj. lia. }
  assert (Hg2 : rect totalRow totalCol (pieces_ st2)).
  { rewrite Hp2. by apply rect_toggle_cells. }
  destruct (scramble_loop_pieces rnd totalRow totalCol totalCol totalRow
              (fun col row => Z.of_nat row) (fun col row => Z.of_nat col)
              st2 Hg2) as (st3 & Hcols & Hp3 & Hcalls3).
  { intros i j Hi Hj. lia. }
  assert (Hg3 : rect totalRow totalCol (pieces_ st3)).
  { rewrite Hp3. by apply rect_toggle_cells. }
  destruct (scramble_diagonal_pieces rnd totalRow totalCol st3 Hg3 Hle)
    as (st4 & Hdiag & Hp4).
  destruct (instantiate_after_diagonal st4) as (st5 & Hfin & Hp5 & _).
  exists st5. split.
  { unfold instantiatePuzzlePiecesAndControlButtons.
    rewrite (bind_normal _ _ _ _ _ Hbuild).
    rewrite (bind_normal _ _ _ _ _ Hrows).
    rewrite (bind_normal _ _ _ _ _ Hcols).
    change (bind ?m ?k st3) with
      (bind (scramble_diagonal_step rnd totalCol)
         (fun _ => checkFlipsFromPlayerMessage ;; displayFlipSuggestionMessage)
         st3).
    rewrite (bind_normal _ _ _ _ _ Hdiag). exact Hfin. }
  rewrite Hp5, Hp4, Hp3, Hp2, Hcalls3, Hcalls2.
  change (random_calls st1) with (random_calls st).
  change (pieces_ st1) with (replicate totalRow (replicate totalCol p0)).
  unfold scramble_cells. rewrite !toggle_cells_app.
  rewrite (loop_cells_ext rnd _ totalRow totalCol _
             (fun row col => (row, col)))
    by (intros i j; by rewrite !Nat2Z.id).
  rewrite (loop_cells_ext rnd _ totalCol totalRow _
             (fun col row => (row, col)))
    by (intros i j; by rewrite !Nat2Z.id).
  done.
Qed.

Lemma hidden_iff_flipped_flipPiece p :
  hidden_iff_flipped p -> hidden_iff_flipped (flipPiece p).
Proof.
  unfold hidden_iff_flipped, flipPiece. simpl. intros <-.
  by destruct (Qeq_bool (scale_x p) 0).
Qed.

Lemma iter_flipPiece_scramble k p :
  hidden_iff_flipped p -> tweens p = [] ->
  hidden_iff_flipped (Nat.iter k flipPiece p)
  /\ tweens (Nat.iter k flipPiece p) = []
  /\ (flipped (Nat.iter k flipPiece p) = false ->
      scale_x (Nat.iter k flipPiece p) = scale_x p
      \/ scale_x (Nat.iter k flipPiece p) = 1%Q).
Proof.
  intros Hp Ht. induction k as [|k (IH1 & IH2 & IH3)].
  - simpl. split; [done |]. split; [done |]. by left.
  - simpl. split; [by apply hidden_iff_flipped_flipPiece |].
    split; [done |]. intros Hf. right.
    unfold hidden_iff_flipped in IH1. rewrite IH1.
    by destruct (flipped (Nat.iter k flipPiece p)).
Qed.

Lemma cell_replicate rows cols p0 a b q :
  cell (replicate rows (replicate cols p0)) a b = Some q -> q = p0.
Proof.
  unfold cell. destruct (replicate rows _ !! a) as [row|] eqn:Hrow; [| done].
  apply lookup_replicate in Hrow as [-> _]. simpl.
  intros Hq. by apply lookup_replicate in Hq as [-> _].
Qed.

(** X1. With no more columns than rows and a sprite scale other than 0,
    the scramble completes and leaves every piece drawn with zero width
    exactly when its [flipped] flag is set; it starts no tween, and a piece
    that is not flipped has the scale of a fresh sprite or, once the
    scramble has flipped it back, the scale 1. *)
Theorem scramble_hides_flipped_pieces rnd XScaleRate totalRow totalCol st :
  pieces_ st = [] -> (totalCol <= totalRow)%nat ->
  Qeq_bool XScaleRate 0 = false ->
  exists st',
    instantiatePuzzlePiecesAndControlButtons rnd XScaleRate totalRow totalCol
      st = (Normal tt, st')
    /\ forall a b q,
         cell (pieces_ st') a b = Some q ->
         hidden_iff_flipped q
         /\ tweens q = []
         /\ (flipped q = false ->
             scale_x q = XScaleRate \/ scale_x q = 1%Q).
Proof.
  intros Hempty Hle Hscale.
  destruct (instantiate_pieces rnd XScaleRate totalRow totalCol st Hempty Hle)
    as (st' & Hrun & Hp).
  exists st'. split; [done |]. intros a b q. rewrite Hp, cell_toggle_cells.
  destruct (cell (replicate _ _) a b) as [p0|] eqn:Hcell; [| done].
  apply cell_replicate in Hcell as ->. simpl. intros [= <-].
  by apply iter_flipPiece_scramble.
Qed.

Lemma scramble_hides_flipped_pieces_witness :
  pieces_ new_StarcastGame = [] /\ (6 <= 6)%nat
  /\ Qeq_bool (3 # 4) 0 = false
  /\ exists st',
       imageOnLoad rnd_all_but_row5 (3 # 4) new_StarcastGame = (Normal tt, st')
       /\ forall q, cell (pieces_ st') 5 0 = Some q -> hidden_iff_flipped q.
Proof.
  assert (H1 : pieces_ new_StarcastGame = []) by reflexivity.
  assert (H2 : (6 <= 6)%nat) by lia.
  assert (H3 : Qeq_bool (3 # 4) 0 = false) by reflexivity.
  split; [exact H1 |]. split; [exact H2 |]. split; [exact H3 |].
  destruct (scramble_hides_flipped_pieces rnd_all_but_row5 (3 # 4) 6 6
              new_StarcastGame H1 H2 H3) as (st' & Hrun & Hall).
  exists st'. split; [exact Hrun |].
  intros q Hq. exact (proj1 (Hall 5%nat 0%nat q Hq)).
Defined.

(** ** The scramble as flip messages *)

Lemma cells_of_all_app n l1 l2 :
  cells_of_all n (l1 ++ l2)%list
  = (cells_of_all n l1 ++ cells_of_all n l2)%list.
Proof. unfold cells_of_all. by rewrite map_app, concat_app. Qed.

Lemma cells_of_fired_rows rnd base n k :
  cells_of_all n (fired_axis "ROW" rnd base k) =
  loop_cells rnd base k n (fun row col => (row, col)).
Proof.
  induction k as [|k IH]; [done |].
  cbn [fired_axis loop_cells]. rewrite cells_of_all_app, IH. f_equal.
  destruct (Qlt_bool _ _); [| done].
  unfold cells_of_all, cells_of. simpl. rewrite app_nil_r.
  apply map_ext. intros i. by rewrite Nat2Z.id.
Qed.

Lemma cells_of_fired_cols rnd base n k :
  cells_of_all n (fired_axis "COL" rnd base k) =
  loop_cells rnd base k n (fun col row => (row, col)).
Proof.
  induction k as [|k IH]; [done |].
  cbn [fired_axis loop_cells]. rewrite cells_of_all_app, IH. f_equal.
  destruct (Qlt_bool _ _); [| done].
  unfold cells_of_all, cells_of. simpl. rewrite app_nil_r.
  apply map_ext. intros i. by rewrite Nat2Z.id.
Qed.

Lemma cells_of_fired_msgs rnd base n :
  cells_of_all n (fired_msgs rnd base n) = scramble_cells rnd base n n.
Proof.
  unfold fired_msgs, scramble_cells.
  rewrite !cells_of_all_app, cells_of_fired_rows, cells_of_fired_cols.
  do 2 f_equal. destruct (Qlt_bool _ _); [| done].
  unfold cells_of_all, cells_of. simpl. by rewrite app_nil_r.
Qed.

Lemma length_fired_axis axis rnd base k :
  length (fired_axis axis rnd base k) = fired rnd base k.
Proof.
  induction k as [|k IH]; [done |].
  cbn [fired_axis]. rewrite length_app, IH, fired_snoc.
  by destruct (Qlt_bool _ _).
Qed.

Lemma length_fired_msgs rnd base n :
  length (fired_msgs rnd base n) = fired rnd base (n + n + 1).
Proof.
  unfold fired_msgs. rewrite !length_app, !length_fired_axis.
  rewrite (fired_add rnd base (n + n) 1), (fired_add rnd base n n).
  replace (base + (n + n))%nat with (base + n + n)%nat by lia.
  simpl fired. destruct (Qlt_bool (rnd (base + n + n)%nat) _); simpl; lia.
Qed.

Lemma fired_axis_valid axis rnd base n k :
  axis = "ROW" \/ axis = "COL" -> (k <= n)%nat ->
  Forall (fun m => valid_flip n m.1 m.2) (fired_axis axis rnd base k).
Proof.
  intros Haxis. induction k as [|k IH]; intros Hk; [constructor |].
  cbn [fired_axis]. apply Forall_app. split; [apply IH; lia |].
  destruct (Qlt_bool _ _); [| constructor].
  constructor; [| constructor]. left. simpl. split; [done | lia].
Qed.

Lemma fired_msgs_valid rnd base n :
  Forall (fun m => valid_flip n m.1 m.2) (fired_msgs rnd base n).
Proof.
  unfold fired_msgs. rewrite !Forall_app.
  split; [apply fired_axis_valid; [by left | done] |].
  split; [apply fired_axis_valid; [by right | done] |].
  destruct (Qlt_bool _ _); [| constructor].
  constructor; [by right | constructor].
Qed.

Lemma flag_at_toggle_cells_flipPiece ps g a b :
  flag_at (toggle_cells flipPiece ps g) a b =
  (fun x => xorb x (Nat.odd (visits (a, b) ps))) <$> flag_at g a b.
Proof.
  unfold flag_at. rewrite cell_toggle_cells.
  destruct (cell g a b) as [p|]; [| done]. simpl.
  by rewrite flipped_iter_flipPiece.
Qed.

Lemma visits_cells_of_all_Permutation n p msgs msgs' :
  msgs ≡ₚ msgs' ->
  visits p (cells_of_all n msgs) = visits p (cells_of_all n msgs').
Proof. intros Hperm. by rewrite !visits_cells_of_all, Hperm. Qed.

(** ** What a flip message leaves alone *)

Lemma keeps_flipPieces {A} (proj : game -> A) rowOrCol numRowOrCol :
  (forall a b st,
     proj (set_pieces (alter (alter flipPieceTween b) a (pieces_ st)) st)
     = proj st) ->
  (forall z st, proj (set_player z st) = proj st) ->
  (forall h st, proj (set_hud h st) = proj st) ->
  (forall l st, proj (set_container l st) = proj st) ->
  (forall v st, proj (set_background v st) = proj st) ->
  keeps proj (flipPieces rowOrCol numRowOrCol).
Proof.
  intros Ht Hp Hh Hc Hb st. rewrite flipPieces_halves.
  apply (keeps_bind proj).
  - by apply keeps_flip_loop.
  - intros _. by apply keeps_flip_report.
Qed.

Lemma keeps_flipAll {A} (proj : game -> A) msgs :
  (forall rowOrCol numRowOrCol, keeps proj (flipPieces rowOrCol numRowOrCol)) ->
  keeps proj (flipAll msgs).
Proof.
  intros H. induction msgs as [|[axis idx] msgs IH]; [apply keeps_ret |].
  simpl. apply keeps_bind; [apply H | intros _; apply IH].
Qed.

Lemma flipPieces_keeps_par_aux rowOrCol numRowOrCol :
  keeps suggestedFlipCount_ (flipPieces rowOrCol numRowOrCol)
  /\ keeps extraFlipsThanNecessary_ (flipPieces rowOrCol numRowOrCol)
  /\ keeps random_calls (flipPieces rowOrCol numRowOrCol).
Proof. repeat split; by apply keeps_flipPieces. Qed.


(** ** Replaying the scramble *)

(** X3. A puzzle of [n] rows and columns is built and scrambled on a game
    object without pieces and with both counts at 0. If the player then
    sends one flip message for each scramble operation that was carried
    out, in any order, every message completes, the puzzle is solved, and
    the player's flip count equals the suggested flip count. *)
Theorem scramble_replayed_solves rnd XScaleRate n msgs st :
  pieces_ st = [] -> suggestedFlipCount_ st = 0 ->
  playerEachFlipCount_ st = 0 ->
  msgs ≡ₚ fired_msgs rnd (random_calls st) n ->
  exists st1 st2,
    instantiatePuzzlePiecesAndControlButtons rnd XScaleRate n n st
      = (Normal tt, st1)
    /\ flipAll msgs st1 = (Normal tt, st2)
    /\ (checkPuzzleIsSolved st2).1 = Normal true
    /\ playerEachFlipCount_ st2 = suggestedFlipCount_ st2
    /\ suggestedFlipCount_ st2 = Z.of_nat (length msgs).
Proof.
  intros Hempty Hsug Hplayer Hperm.
  destruct (instantiate_pieces rnd XScaleRate n n st Hempty)
    as (st1 & Hrun & Hp1); [done |].
  destruct (instantiatePuzzlePieces_counts rnd XScaleRate n n st st1
              Hempty Hrun) as (Hg1 & _ & Hs1).
  assert (Hpl1 : playerEachFlipCount_ st1 = 0).
  { rewrite <- Hplayer.
    pose proof (keeps_instantiatePuzzlePiecesAndControlButtons
                  playerEachFlipCount_ rnd XScaleRate n n) as Hkeep.
    specialize (Hkeep (fun _ _ => eq_refl) (fun _ _ => eq_refl)
                  (fun _ _ => eq_refl) (fun _ _ => eq_refl)
                  (fun _ _ => eq_refl) st).
    by rewrite Hrun in Hkeep. }
  assert (Hvalid : Forall (fun m => valid_flip n m.1 m.2) msgs).
  { rewrite Hperm. apply fired_msgs_valid. }
  destruct (flipAll_valid n msgs st1 Hg1 Hvalid) as (st2 & Hall & Hp2 & Hpl2).
  exists st1, st2. split; [done |]. split; [done |].
  assert (Hs2 : suggestedFlipCount_ st2 = suggestedFlipCount_ st1).
  { pose proof (keeps_flipAll suggestedFlipCount_ msgs) as Hkeep.
    specialize (Hkeep (fun a i => proj1 (flipPieces_keeps_par_aux a i)) st1).
    by rewrite Hall in Hkeep. }
  assert (Hlen : length msgs = fired rnd (random_calls st) (n + n + 1)).
  { by rewrite Hperm, length_fired_msgs. }
  split; [| rewrite Hpl2, Hs2, Hs1, Hsug, Hpl1, Hlen; lia].
  assert (Hg2 : square n (pieces_ st2)).
  { rewrite Hp2. by apply rect_toggle_cells. }
  destruct (checkPuzzleIsSolved_square n st2 Hg2) as (b & Hb & Hiff).
  rewrite Hb. simpl. f_equal. apply Hiff. intros a c.
  rewrite Hp2, flag_at_toggle_cells, Hp1, flag_at_toggle_cells_flipPiece.
  rewrite (visits_cells_of_all_Permutation n _ _ _ Hperm).
  rewrite cells_of_fired_msgs.
  destruct (flag_at (replicate n (replicate n _)) a c) as [x|] eqn:Hx;
    [| done].
  unfold flag_at in Hx.
  destruct (cell (replicate n (replicate n _)) a c) as [q|] eqn:Hq; [| done].
  apply cell_replicate in Hq as ->. simpl in Hx. injection Hx as <-.
  simpl. by destruct (Nat.odd _).
Qed.

Lemma scramble_replayed_solves_witness :
  let msgs := reverse (fired_msgs rnd_all_but_row5 0 6) in
  pieces_ new_StarcastGame = [] /\ suggestedFlipCount_ new_StarcastGame = 0
  /\ playerEachFlipCount_ new_StarcastGame = 0
  /\ msgs ≡ₚ fired_msgs rnd_all_but_row5 (random_calls new_StarcastGame) 6
  /\ exists st1 st2,
       imageOnLoad rnd_all_but_row5 1%Q new_StarcastGame = (Normal tt, st1)
       /\ flipAll msgs st1 = (Normal tt, st2)
       /\ (checkPuzzleIsSolved st2).1 = Normal true
       /\ playerEachFlipCount_ st2 = 11.
Proof.
  intros msgs.
  assert (H1 : pieces_ new_StarcastGame = []) by reflexivity.
  assert (H2 : suggestedFlipCount_ new_StarcastGame = 0) by reflexivity.
  assert (H3 : playerEachFlipCount_ new_StarcastGame = 0) by reflexivity.
  assert (H4 : msgs ≡ₚ
               fired_msgs rnd_all_but_row5 (random_calls new_StarcastGame) 6).
  { apply reverse_Permutation. }
  split; [exact H1 |]. split; [exact H2 |]. split; [exact H3 |].
  split; [exact H4 |].
  destruct (scramble_replayed_solves rnd_all_but_row5 1%Q 6 msgs
              new_StarcastGame H1 H2 H3 H4)
    as (st1 & st2 & Hrun & Hall & Hsolved & Heq & Hlen).
  exists st1, st2. split; [exact Hrun |]. split; [exact Hall |].
  split; [exact Hsolved |]. rewrite Heq, Hlen. reflexivity.
Defined.

(** ** The order of flips *)

(** X4. On an [n] by [n] puzzle, two lists of valid flip messages that hold
    the same messages in different orders both complete and leave the same
    flags in every cell, the same player's flip count, and so the same
    answer of the solved test. *)
Theorem flipAll_order_irrelevant n st msgs msgs' :
  square n (pieces_ st) ->
  Forall (fun m => valid_flip n m.1 m.2) msgs ->
  msgs ≡ₚ msgs' ->
  exists st1 st2,
    flipAll msgs st = (Normal tt, st1)
    /\ flipAll msgs' st = (Normal tt, st2)
    /\ flags (pieces_ st1) = flags (pieces_ st2)
    /\ playerEachFlipCount_ st1 = playerEachFlipCount_ st2
    /\ (checkPuzzleIsSolved st1).1 = (checkPuzzleIsSolved st2).1.
Proof.
  intros Hg Hvalid Hperm.
  assert (Hvalid' : Forall (fun m => valid_flip n m.1 m.2) msgs').
  { by rewrite <- Hperm. }
  destruct (flipAll_valid n msgs st Hg Hvalid) as (st1 & Hrun1 & Hp1 & Hc1).
  destruct (flipAll_valid n msgs' st Hg Hvalid') as (st2 & Hrun2 & Hp2 & Hc2).
  exists st1, st2. split; [done |]. split; [done |].
  assert (Hg1 : square n (pieces_ st1)).
  { rewrite Hp1. by apply rect_toggle_cells. }
  assert (Hg2 : square n (pieces_ st2)).
  { rewrite Hp2. by apply rect_toggle_cells. }
  assert (Hflag : forall a b,
            flag_at (pieces_ st1) a b = flag_at (pieces_ st2) a b).
  { intros a b. rewrite Hp1, Hp2, !flag_at_toggle_cells.
    by rewrite (visits_cells_of_all_Permutation n _ _ _ Hperm). }
  split; [by apply (flags_ext n n) |].
  split; [rewrite Hc1, Hc2; by rewrite Hperm |].
  destruct (checkPuzzleIsSolved_square n st1 Hg1) as (b1 & Hb1 & Hiff1).
  destruct (checkPuzzleIsSolved_square n st2 Hg2) as (b2 & Hb2 & Hiff2).
  rewrite Hb1, Hb2. simpl. f_equal.
  destruct b1, b2; try done.
  - symmetry. apply Hiff2. intros a c. rewrite <- Hflag. by apply Hiff1.
  - apply Hiff1. intros a c. rewrite Hflag. by apply Hiff2.
Qed.

Lemma flipAll_order_irrelevant_witness :
  let msgs := [("ROW", 0); ("COL", 2); ("DIAGONAL", 1)] in
  let msgs' := [("DIAGONAL", 1); ("ROW", 0); ("COL", 2)] in
  square 3 (pieces_ game_3x3)
  /\ Forall (fun m => valid_flip 3 m.1 m.2) msgs
  /\ msgs ≡ₚ msgs'
  /\ exists st1 st2,
       flipAll msgs game_3x3 = (Normal tt, st1)
       /\ flipAll msgs' game_3x3 = (Normal tt, st2)
       /\ flags (pieces_ st1) = flags (pieces_ st2).
Proof.
  intros msgs msgs'.
  assert (H1 : square 3 (pieces_ game_3x3)).
  { split; [reflexivity | repeat constructor]. }
  assert (H2 : Forall (fun m => valid_flip 3 m.1 m.2) msgs).
  { unfold msgs.
    repeat (apply List.Forall_cons;
      [ first [ by right
              | left; split; [by left | simpl; lia]
              | left; split; [by right | simpl; lia] ] |]).
    apply List.Forall_nil. }
  assert (H3 : msgs ≡ₚ msgs').
  { unfold msgs, msgs'.
    exact (Permutation_app_comm [("ROW", 0); ("COL", 2)]
             [("DIAGONAL", 1)]). }
  split; [exact H1 |]. split; [exact H2 |]. split; [exact H3 |].
  destruct (flipAll_order_irrelevant 3 game_3x3 msgs msgs' H1 H2 H3)
    as (st1 & st2 & Hrun1 & Hrun2 & Hflags & _).
  exists st1, st2. split; [exact Hrun1 |]. split; [exact Hrun2 |].
  exact Hflags.
Defined.

(** ** What a completed flip puts on display *)

Lemma congrats_after_hud l :
  length (List.filter is_congrat
            (List.filter (fun x => negb (child_is_hud x)) l ++ [HudChild])%list)
  = length (List.filter is_congrat l).
Proof.
  induction l as [|c l IH]; [done |].
  destruct c; simpl in *; by rewrite ?IH.
Qed.

Lemma congrats_shown_scoreSystem st :
  congrats_shown (scoreSystem st).2 = congrats_shown st.
Proof.
  assert (Hadd : congrats_shown (displayCountflipsFromPlayerMessage st).2
                 = congrats_shown st).
  { unfold congrats_shown. simpl. rewrite List.filter_app, length_app.
    simpl. lia. }
  unfold scoreSystem, bind, gets.
  destruct (_ =? _); [exact Hadd |]. by destruct (_ >? _).
Qed.

Lemma congrats_shown_report_state b st :
  congrats_shown (report_state b st) =
  (congrats_shown st + if b then 1 else 0)%nat.
Proof.
  unfold report_state. cbv zeta.
  set (st2 := (checkFlipsFromPlayerMessage _).2).
  assert (H2 : congrats_shown st2 = congrats_shown st)
    by apply congrats_after_hud.
  destruct b; [| lia].
  change (congrats_shown (set_background false ?s)) with (congrats_shown s).
  rewrite congrats_shown_scoreSystem. unfold congrats_shown in *. simpl.
  rewrite List.filter_app, length_app. simpl.
  unfold st2 in H2. simpl in H2. rewrite H2. lia.
Qed.

Lemma background_report_state b st :
  backgroundSprite_visible (report_state b st) =
  if b then false else backgroundSprite_visible st.
Proof.
  unfold report_state. cbv zeta. destruct b; [done |].
  by rewrite (keeps_checkFlipsFromPlayerMessage backgroundSprite_visible).
Qed.

(** A completed call of [flipPieces] is its loop followed by the report for
    the answer that the solved test gives on the pieces left. *)
Lemma flipPieces_completed rowOrCol numRowOrCol st st' b :
  flipPieces rowOrCol numRowOrCol st = (Normal tt, st') ->
  (checkPuzzleIsSolved st').1 = Normal b ->
  exists st1,
    flip_loop rowOrCol numRowOrCol st = (Normal tt, st1)
    /\ st' = report_state b st1.
Proof.
  intros Hrun Hsolved.
  apply flipPieces_inv_normal in Hrun as (st1 & Hloop & Hrep).
  apply flip_report_inv in Hrep as (b' & Hb' & ->).
  destruct (checkPuzzleIsSolved_same_pieces (report_state b' st1) st1
              (pieces_report_state b' st1)) as [Hsame _].
  rewrite Hsame, Hb' in Hsolved. injection Hsolved as ->.
  by exists st1.
Qed.

(** X5. A flip message that completes and leaves the puzzle solved puts
    one more congratulation message on display and hides the background; one
    that leaves the puzzle unsolved adds no congratulation and leaves the
    background as it was. The number of final score messages on display
    never goes down. *)
Theorem flipPieces_congratulates_when_solved
    rowOrCol numRowOrCol st st' b :
  flipPieces rowOrCol numRowOrCol st = (Normal tt, st') ->
  (checkPuzzleIsSolved st').1 = Normal b ->
  congrats_shown st' = (congrats_shown st + if b then 1 else 0)%nat
  /\ backgroundSprite_visible st' =
     (if b then false else backgroundSprite_visible st)
  /\ (countflips_shown st <= countflips_shown st')%nat.
Proof.
  intros Hrun Hsolved.
  destruct (flipPieces_completed _ _ _ _ _ Hrun Hsolved) as (st1 & Hloop & ->).
  pose proof (keeps_flip_loop congrats_shown rowOrCol numRowOrCol
                (fun _ _ _ => eq_refl) st) as Hc.
  pose proof (keeps_flip_loop backgroundSprite_visible rowOrCol numRowOrCol
                (fun _ _ _ => eq_refl) st) as Hb.
  pose proof (keeps_flip_loop countflips_shown rowOrCol numRowOrCol
                (fun _ _ _ => eq_refl) st) as Hf.
  rewrite Hloop in Hc, Hb, Hf. simpl in Hc, Hb, Hf.
  rewrite congrats_shown_report_state, background_report_state, Hc, Hb, <- Hf.
  split; [done |]. split; [done |].
  unfold report_state. cbv zeta.
  set (st2 := (checkFlipsFromPlayerMessage _).2).
  assert (H2 : countflips_shown st2 = countflips_shown st1)
    by apply countflips_after_hud.
  destruct b; [| lia].
  change (countflips_shown (set_background false ?s))
    with (countflips_shown s).
  rewrite countflips_shown_scoreSystem, countflips_shown_displayCongratMessage.
  destruct (decide _); lia.
Qed.

Lemma flipPieces_congratulates_when_solved_witness :
  let st' := (flipPieces "ROW" 0 game_row0_scrambled).2 in
  flipPieces "ROW" 0 game_row0_scrambled = (Normal tt, st')
  /\ (checkPuzzleIsSolved st').1 = Normal true
  /\ congrats_shown st' = 1%nat
  /\ backgroundSprite_visible st' = false.
Proof.
  intros st'.
  assert (H1 : flipPieces "ROW" 0 game_row0_scrambled = (Normal tt, st')).
  { vm_compute. reflexivity. }
  assert (H2 : (checkPuzzleIsSolved st').1 = Normal true).
  { vm_compute. reflexivity. }
  split; [exact H1 |]. split; [exact H2 |].
  destruct (flipPieces_congratulates_when_solved
              "ROW" 0 game_row0_scrambled st' true H1 H2) as (Hc & Hb & _).
  split; [rewrite Hc; reflexivity | exact Hb].
Defined.

(** ** A message before the image has loaded *)

Lemma checkPuzzleIsSolved_no_rows st :
  pieces_ st = [] -> checkPuzzleIsSolved st = (Normal true, st).
Proof.
  intros Hempty. unfold checkPuzzleIsSolved, bind, gets.
  by rewrite Hempty.
Qed.

(** X6. While the game object has no pieces, as between its construction
    and the loading of the puzzle image, a flip message with "ROW", "COL" or
    "DIAGONAL" and any index completes: it flips nothing, counts as one
    flip of the player, finds the puzzle solved, puts a congratulation on
    display and hides the background. *)
Theorem flipPieces_before_pieces_exist rowOrCol numRowOrCol st :
  pieces_ st = [] ->
  rowOrCol = "ROW" \/ rowOrCol = "COL" \/ rowOrCol = "DIAGONAL" ->
  exists st',
    flipPieces rowOrCol numRowOrCol st = (Normal tt, st')
    /\ pieces_ st' = []
    /\ playerEachFlipCount_ st' = playerEachFlipCount_ st + 1
    /\ congrats_shown st' = S (congrats_shown st)
    /\ backgroundSprite_visible st' = false.
Proof.
  intros Hempty Haxis.
  assert (Hloop : flip_loop rowOrCol numRowOrCol st = (Normal tt, st)).
  { unfold flip_loop, bind, gets. rewrite Hempty.
    destruct Haxis as [-> | [-> | ->]]; reflexivity. }
  exists (report_state true st). split.
  - rewrite flipPieces_halves, (bind_normal _ _ _ _ _ Hloop).
    apply flip_report_run. by rewrite checkPuzzleIsSolved_no_rows.
  - rewrite pieces_report_state, player_report_state,
      congrats_shown_report_state, background_report_state.
    repeat split; [done | lia].
Qed.

Lemma flipPieces_before_pieces_exist_witness :
  pieces_ new_StarcastGame = []
  /\ ("COL" = "ROW" \/ "COL" = "COL" \/ "COL" = "DIAGONAL")
  /\ exists st',
       flipPieces "COL" 4 new_StarcastGame = (Normal tt, st')
       /\ playerEachFlipCount_ st' = 1
       /\ backgroundSprite_visible st' = false.
Proof.
  assert (H1 : pieces_ new_StarcastGame = []) by reflexivity.
  assert (H2 : "COL" = "ROW" \/ "COL" = "COL" \/ "COL" = "DIAGONAL").
  { right. left. reflexivity. }
  split; [exact H1 |]. split; [exact H2 |].
  destruct (flipPieces_before_pieces_exist "COL" 4 new_StarcastGame H1 H2)
    as (st' & Hrun & _ & Hp & _ & Hb).
  exists st'. split; [exact Hrun |]. split; [exact Hp | exact Hb].
Defined.

(** ** What play keeps *)







(** ** The final score messages *)

Lemma finals_after_hud l :
  List.filter is_countflips
    (List.filter (fun x => negb (child_is_hud x)) l ++ [HudChild])%list
  = List.filter is_countflips l.
Proof.
  induction l as [|c l IH]; [done |].
  destruct c; simpl in *; by rewrite ?IH.
Qed.

Lemma keeps_finals_checkFlipsFromPlayerMessage :
  keeps finals checkFlipsFromPlayerMessage.
Proof. intros st. apply finals_after_hud. Qed.

Lemma keeps_finals_displayFlipSuggestionMessage :
  keeps finals displayFlipSuggestionMessage.
Proof.
  intros st. unfold finals. simpl. rewrite List.filter_app. simpl.
  by rewrite app_nil_r.
Qed.

Lemma keeps_finals_displayCongratMessage :
  keeps finals displayCongratMessage.
Proof.
  intros st. unfold finals. simpl. rewrite List.filter_app. simpl.
  by rewrite app_nil_r.
Qed.

Lemma keeps_finals_instantiate rnd XScaleRate totalRow totalCol :
  keeps finals
    (instantiatePuzzlePiecesAndControlButtons rnd XScaleRate totalRow totalCol).
Proof.
  unfold instantiatePuzzlePiecesAndControlButtons.
  repeat first
    [ by apply keeps_push_row
    | by apply keeps_push_piece
    | by apply keeps_Math_random
    | by apply keeps_call_on_piece
    | apply keeps_finals_checkFlipsFromPlayerMessage
    | apply keeps_finals_displayFlipSuggestionMessage
    | apply keeps_gets
    | apply keeps_ret
    | by (apply keeps_modify; intros ?)
    | apply keeps_for; intros ?
    | apply keeps_bind; [| intros ?]
    | case_match ].
Qed.

Lemma no_positive_final_scoreSystem st :
  Forall no_positive_final (finals st) ->
  Forall no_positive_final (finals (scoreSystem st).2).
Proof.
  intros Hall.
  assert (Hadd : suggestedFlipCount_ st <= playerEachFlipCount_ st ->
            Forall no_positive_final
              (finals (displayCountflipsFromPlayerMessage st).2)).
  { intros Hle. unfold finals. simpl. rewrite List.filter_app. simpl.
    apply Forall_app. split; [exact Hall |].
    constructor; [| constructor]. simpl. eexists. split; [reflexivity |].
    lia. }
  unfold scoreSystem, bind, gets.
  destruct (playerEachFlipCount_ st =? suggestedFlipCount_ st) eqn:Heq.
  { apply Hadd. lia. }
  destruct (playerEachFlipCount_ st >? suggestedFlipCount_ st) eqn:Hgt.
  { apply Hadd. lia. }
  exact Hall.
Qed.

Lemma no_positive_final_flip_report st :
  Forall no_positive_final (finals st) ->
  Forall no_positive_final (finals (flip_report st).2).
Proof.
  intros Hall. rewrite flip_report_cases.
  set (st2 := (checkFlipsFromPlayerMessage
                 (set_player (playerEachFlipCount_ st + 1) st)).2).
  assert (H2 : Forall no_positive_final (finals st2)).
  { unfold st2. by rewrite keeps_finals_checkFlipsFromPlayerMessage. }
  destruct (checkPuzzleIsSolved st).1 as [b|e]; cbn [snd]; [| exact H2].
  unfold report_state. cbv zeta. fold st2. destruct b; [| exact H2].
  change (finals (set_background false ?s)) with (finals s).
  apply no_positive_final_scoreSystem.
  by rewrite keeps_finals_displayCongratMessage.
Qed.

Lemma no_positive_final_filter l :
  Forall no_positive_final (List.filter is_countflips l) ->
  Forall no_positive_final l.
Proof.
  induction l as [|c l IH]; [constructor |].
  destruct c; simpl; intros H; constructor;
    try done; try (by apply IH);
    [by inversion H | apply IH; by inversion H].
Qed.

Lemma no_positive_final_filter_inv l :
  Forall no_positive_final l ->
  Forall no_positive_final (List.filter is_countflips l).
Proof.
  induction 1 as [|c l Hc Hl IH]; [constructor |].
  destruct c; simpl; try done. by constructor.
Qed.

(** X8. If no final score message with a positive number of points is on
    display when the puzzle is built, none ever is during play: every final
    score message that the flip messages put on display shows zero or a
    negative number of points. *)
Theorem in_play_final_scores_not_positive rnd XScaleRate n st0 st :
  in_play rnd XScaleRate n st0 st ->
  Forall no_positive_final (container_ st0) ->
  Forall no_positive_final (container_ st).
Proof.
  intros Hplay H0. apply no_positive_final_filter.
  apply no_positive_final_filter_inv in H0.
  change (Forall no_positive_final (finals st0)) in H0.
  change (Forall no_positive_final (finals st)).
  induction Hplay as [st Hrun | st rowOrCol idx Hplay IH].
  - pose proof (keeps_finals_instantiate rnd XScaleRate n n st0) as Hkeep.
    rewrite Hrun in Hkeep. simpl in Hkeep. by rewrite Hkeep.
  - rewrite flipPieces_halves. unfold bind.
    pose proof (keeps_flip_loop finals rowOrCol idx
                  (fun _ _ _ => eq_refl) st) as Lf.
    destruct (flip_loop rowOrCol idx st) as [[[]|e] st1]; simpl in *.
    + apply no_positive_final_flip_report. by rewrite Lf.
    + by rewrite Lf.
Qed.

Lemma in_play_final_scores_not_positive_witness :
  let st := (flipPieces "ROW" 0 game_row0_scrambled).2 in
  in_play rnd_first_only 1%Q 6 new_StarcastGame st
  /\ Forall no_positive_final (container_ new_StarcastGame)
  /\ countflips_shown st = 1%nat
  /\ Forall no_positive_final (container_ st).
Proof.
  intros st.
  assert (H0 : in_play rnd_first_only 1%Q 6 new_StarcastGame st).
  { apply in_play_flipped, in_play_loaded. vm_compute. reflexivity. }
  assert (H1 : Forall no_positive_final (container_ new_StarcastGame)).
  { constructor. }
  split; [exact H0 |]. split; [exact H1 |].
  split; [vm_compute; reflexivity |].
  exact (in_play_final_scores_not_positive rnd_first_only 1%Q 6
           new_StarcastGame st H0 H1).
Defined.

(** ** After the puzzle is solved *)

Lemma valid_flip_visits_a_cell n rowOrCol numRowOrCol :
  (0 < n)%nat -> valid_flip n rowOrCol numRowOrCol ->
  exists a b, (a < n)%nat /\ (b < n)%nat
    /\ visits (a, b) (cells_of n rowOrCol numRowOrCol) = 1%nat.
Proof.
  intros Hpos Hvalid.
  assert (Hcases : rowOrCol = "ROW" /\ 0 <= numRowOrCol < Z.of_nat n
                   \/ rowOrCol = "COL" /\ 0 <= numRowOrCol < Z.of_nat n
                   \/ rowOrCol = "DIAGONAL").
  { unfold valid_flip in Hvalid. tauto. }
  destruct Hcases as [[-> Hi]|[[-> Hi]| ->]].
  - exists (Z.to_nat numRowOrCol), 0%nat.
    split; [lia |]. split; [lia |].
    rewrite visits_row. by rewrite decide_True.
  - exists 0%nat, (Z.to_nat numRowOrCol).
    split; [lia |]. split; [lia |].
    rewrite visits_col. by rewrite decide_True.
  - exists (n - 1)%nat, 0%nat. split; [lia |]. split; [lia |].
    rewrite visits_diagonal. rewrite decide_True; [done | lia].
Qed.

(** X9. Nothing stops play once the puzzle is solved: on a solved puzzle of
    [n] rows and columns, [n] at least 1, every valid flip message is
    carried out, counts as a flip, and leaves the puzzle unsolved. *)
Theorem flipPieces_after_solved n st rowOrCol numRowOrCol :
  (0 < n)%nat -> square n (pieces_ st) ->
  (checkPuzzleIsSolved st).1 = Normal true ->
  valid_flip n rowOrCol numRowOrCol ->
  exists st',
    flipPieces rowOrCol numRowOrCol st = (Normal tt, st')
    /\ playerEachFlipCount_ st' = playerEachFlipCount_ st + 1
    /\ (checkPuzzleIsSolved st').1 = Normal false.
Proof.
  intros Hpos Hg Hsolved Hvalid.
  destruct (flipPieces_valid n st rowOrCol numRowOrCol Hg Hvalid)
    as (st' & Hrun & Hp & Hc & _).
  exists st'. split; [done |]. split; [done |].
  assert (Hg' : square n (pieces_ st')).
  { rewrite Hp. by apply rect_toggle_cells. }
  destruct (checkPuzzleIsSolved_square n st Hg) as (b & Hb & Hiff).
  rewrite Hb in Hsolved. simpl in Hsolved. injection Hsolved as ->.
  destruct (checkPuzzleIsSolved_square n st' Hg') as (b' & Hb' & Hiff').
  rewrite Hb'. simpl. f_equal. destruct b'; [| done]. exfalso.
  destruct (valid_flip_visits_a_cell n rowOrCol numRowOrCol Hpos Hvalid)
    as (a & c & Ha & Hc' & Hvisit).
  destruct (rect_cell n n (pieces_ st) a c Hg Ha Hc') as [q Hq].
  assert (Hfalse : flag_at (pieces_ st) a c = Some false).
  { pose proof (proj1 Hiff eq_refl a c) as Hne.
    unfold flag_at in *. rewrite Hq in *. simpl in *.
    by destruct (flipped q). }
  apply (proj1 Hiff' eq_refl a c).
  by rewrite Hp, flag_at_toggle_cells, Hvisit, Hfalse.
Qed.

Lemma flipPieces_after_solved_witness :
  (0 < 3)%nat /\ square 3 (pieces_ game_3x3)
  /\ (checkPuzzleIsSolved game_3x3).1 = Normal true
  /\ valid_flip 3 "DIAGONAL" 0
  /\ exists st',
       flipPieces "DIAGONAL" 0 game_3x3 = (Normal tt, st')
       /\ (checkPuzzleIsSolved st').1 = Normal false.
Proof.
  assert (H0 : (0 < 3)%nat) by lia.
  assert (H1 : square 3 (pieces_ game_3x3)).
  { split; [reflexivity | repeat constructor]. }
  assert (H2 : (checkPuzzleIsSolved game_3x3).1 = Normal true).
  { vm_compute. reflexivity. }
  assert (H3 : valid_flip 3 "DIAGONAL" 0) by (right; reflexivity).
  split; [exact H0 |]. split; [exact H1 |]. split; [exact H2 |].
  split; [exact H3 |].
  destruct (flipPieces_after_solved 3 game_3x3 "DIAGONAL" 0 H0 H1 H2 H3)
    as (st' & Hrun & _ & Hunsolved).
  exists st'. split; [exact Hrun | exact Hunsolved].
Defined.

(** * Properties of the receiver around the puzzle *)

(** ** Running a method of the whole object *)

Lemma bindR_normal {A B} (m : MR A) (k : A -> MR B) r a r' :
  m r = (Normal a, r') -> bindR m k r = k a r'.
Proof. intros H. unfold bindR. by rewrite H. Qed.

Lemma keepsR_ret {A B} (proj : receiver -> A) (b : B) : keepsR proj (retR b).
Proof. by intros r. Qed.

Lemma keepsR_throw {A B} (proj : receiver -> A) e : keepsR proj (@throwR B e).
Proof. by intros r. Qed.

Lemma keepsR_gets {A B} (proj : receiver -> A) (f : receiver -> B) :
  keepsR proj (getsR f).
Proof. by intros r. Qed.

Lemma keepsR_modify {A} (proj : receiver -> A) f :
  (forall r, proj (f r) = proj r) -> keepsR proj (modifyR f).
Proof. intros H r. apply H. Qed.

Lemma keepsR_bind {A B C} (proj : receiver -> A) (m : MR B) (k : B -> MR C) :
  keepsR proj m -> (forall b, keepsR proj (k b)) -> keepsR proj (bindR m k).
Proof.
  intros Hm Hk r. unfold bindR. specialize (Hm r).
  destruct (m r) as [[b|e] r1]; simpl in *; [| done].
  by rewrite Hk.
Qed.

Lemma keepsR_emit {A} (proj : receiver -> A) e :
  (forall l r, proj (set_effects l r) = proj r) -> keepsR proj (emit e).
Proof. intros H r. apply H. Qed.

Lemma keepsR_liftG {A B} (proj : receiver -> A) (m : M B) :
  (forall g r, proj (set_game g r) = proj r) -> keepsR proj (liftG m).
Proof. intros H r. unfold liftG. destruct (m (game_ r)). apply H. Qed.

Lemma keepsR_forR_each {A B} (proj : receiver -> A) (l : list B) body :
  (forall x, keepsR proj (body x)) -> keepsR proj (forR_each l body).
Proof.
  intros Hbody. induction l as [|x l IH]; [apply keepsR_ret |].
  simpl. apply keepsR_bind; [apply Hbody | intros _; apply IH].
Qed.

Lemma keepsR_forR_break {A} (proj : receiver -> A) body start count :
  (forall i, keepsR proj (body i)) -> keepsR proj (forR_break start count body).
Proof.
  intros Hbody. revert start. induction count as [|k IH]; intros start.
  - apply keepsR_ret.
  - simpl. apply keepsR_bind; [apply Hbody |].
    intros [|]; [apply keepsR_ret | apply IH].
Qed.

(** ** Giving sprites to players *)

Lemma first_free_spec players start count i :
  first_free players start count = Some i ->
  (start <= i < start + count)%nat
  /\ (exists p, players !! i = Some p /\ visible p = false)
  /\ (forall j p, (start <= j < i)%nat -> players !! j = Some p ->
        visible p = true).
Proof.
  revert start. induction count as [|k IH]; intros start; [done |].
  simpl. destruct (players !! start) as [p|] eqn:Hp.
  - destruct (visible p) eqn:Hv.
    + intros H. destruct (IH _ H) as (Hi & Hfree & Hbefore).
      split; [lia |]. split; [done |]. intros j q Hj Hq.
      destruct (decide (j = start)) as [->|Hne]; [congruence |].
      apply (Hbefore j q); [lia | done].
    + intros [= <-]. split; [lia |]. split; [eauto |]. intros j q Hj. lia.
  - intros H. destruct (IH _ H) as (Hi & Hfree & Hbefore).
    split; [lia |]. split; [done |]. intros j q Hj Hq.
    destruct (decide (j = start)) as [->|Hne]; [congruence |].
    apply (Hbefore j q); [lia | done].
Qed.

Lemma first_free_none players start count j p :
  first_free players start count = None ->
  (start <= j < start + count)%nat -> players !! j = Some p ->
  visible p = true.
Proof.
  revert start. induction count as [|k IH]; intros start Hnone Hj Hp; [lia |].
  simpl in Hnone. destruct (decide (j = start)) as [->|Hne].
  - rewrite Hp in Hnone. by destruct (visible p).
  - destruct (players !! start) as [q|].
    + destruct (visible q); [| done]. apply (IH (S start)); [done | lia | done].
    + apply (IH (S start)); [done | lia | done].
Qed.

Lemma addPlayer_loop rnd playerId start count r :
  forR_break start count (fun i =>
    bindR (getsR (fun r => players_ r !! i)) (fun player =>
      match player with
      | Some p =>
          if negb (visible p) then
            bindR (modifyR (fun r =>
                     set_playerMap (<[playerId := i]> (playerMap_ r)) r))
              (fun _ =>
            bindR (modifyR (fun r =>
                     set_players
                       (alter (fun s => Sprite true (tint s)) i (players_ r))
                       r))
              (fun _ =>
            bindR (liftG (Math_random rnd)) (fun x =>
            bindR (modifyR (fun r =>
                     set_players
                       (alter (fun s => Sprite (visible s) (x * 16777215)%Q) i
                          (players_ r)) r))
              (fun _ => retR true))))
          else retR false
      | None => retR false
      end)) r =
  (Normal tt,
   match first_free (players_ r) start count with
   | Some i => assign_sprite rnd playerId i r
   | None => r
   end).
Proof.
  revert start. induction count as [|k IH]; intros start; [done |].
  cbn [forR_break first_free].
  destruct (players_ r !! start) as [p|] eqn:Hp.
  - destruct (visible p) eqn:Hv.
    + rewrite (bindR_normal _ _ r false r); [apply IH |].
      unfold bindR, getsR. by rewrite Hp, Hv.
    + rewrite (bindR_normal _ _ r true (assign_sprite rnd playerId start r));
        [done |].
      unfold bindR, getsR. by rewrite Hp, Hv.
  - rewrite (bindR_normal _ _ r false r); [apply IH |].
    unfold bindR, getsR. by rewrite Hp.
Qed.

Lemma addPlayer_run rnd playerId r :
  addPlayer_ rnd playerId r =
  (Normal tt,
   if on_screen r playerId then r
   else match first_free (players_ r) 0 MAX_PLAYERS_ with
        | Some i => assign_sprite rnd playerId i r
        | None => r
        end).
Proof.
  unfold addPlayer_. unfold bindR at 1. unfold getsR at 1.
  fold (on_screen r playerId).
  destruct (on_screen r playerId); [done |]. apply addPlayer_loop.
Qed.

Lemma receiver_inv_core r r' :
  core r' = core r -> receiver_inv r -> receiver_inv r'.
Proof.
  unfold core, receiver_inv, sprites_consistent.
  intros [= Hp Hm Hl]. rewrite Hp, Hm, Hl. done.
Qed.

Lemma preservesR_keeps {B} (m : MR B) :
  keepsR core m -> preservesR receiver_inv m.
Proof. intros Hk r Hinv. by apply (receiver_inv_core r). Qed.

Lemma preservesR_bind {B C} (P : receiver -> Prop) (m : MR B) (k : B -> MR C) :
  preservesR P m -> (forall b, preservesR P (k b)) -> preservesR P (bindR m k).
Proof.
  intros Hm Hk r HP. unfold bindR. specialize (Hm r HP).
  destruct (m r) as [[b|e] r1]; simpl in *; [| done].
  by apply Hk.
Qed.

Lemma preservesR_forR_each {B} (P : receiver -> Prop) (l : list B) body :
  (forall x, preservesR P (body x)) -> preservesR P (forR_each l body).
Proof.
  intros Hbody. induction l as [|x l IH]; [by intros r |].
  simpl. apply preservesR_bind; [apply Hbody | intros _; apply IH].
Qed.

Lemma preservesR_forR_break (P : receiver -> Prop) body start count :
  (forall i, preservesR P (body i)) ->
  preservesR P (forR_break start count body).
Proof.
  intros Hbody. revert start. induction count as [|k IH]; intros start.
  - by intros r.
  - simpl. apply preservesR_bind; [apply Hbody |].
    intros [|]; [by intros r | apply IH].
Qed.

Lemma players_assign_sprite rnd playerId i r j :
  players_ (assign_sprite rnd playerId i r) !! j =
  if decide (j = i)
  then (fun s => Sprite true
                   (rnd (random_calls (game_ r)) * 16777215)%Q)
         <$> players_ r !! i
  else players_ r !! j.
Proof.
  unfold assign_sprite. cbn [players_ set_players set_game set_playerMap game_].
  destruct (decide (j = i)) as [->|Hne].
  - rewrite !list_lookup_alter_eq. by destruct (players_ r !! i).
  - by rewrite !list_lookup_alter_ne.
Qed.

Lemma on_screen_false_unmapped r playerId :
  sprites_consistent r -> on_screen r playerId = false ->
  playerMap_ r !! playerId = None.
Proof.
  intros (Hvis & Hin & _) Hoff.
  destruct (playerMap_ r !! playerId) as [i|] eqn:Hmap; [| done].
  destruct (Hin _ _ Hmap) as [s Hs].
  unfold on_screen, sprite_of in Hoff. rewrite Hmap in Hoff. simpl in Hoff.
  rewrite Hs in Hoff.
  assert (visible s = true) by (apply (Hvis i s Hs); eauto). congruence.
Qed.

Lemma sprites_consistent_assign rnd playerId i r p :
  sprites_consistent r ->
  players_ r !! i = Some p -> visible p = false ->
  playerMap_ r !! playerId = None ->
  sprites_consistent (assign_sprite rnd playerId i r).
Proof.
  intros (Hvis & Hin & Hinj) Hp Hoff Hnew.
  assert (Hmap : playerMap_ (assign_sprite rnd playerId i r)
                 = <[playerId := i]> (playerMap_ r)) by done.
  assert (Hfree : forall id', playerMap_ r !! id' <> Some i).
  { intros id' Hid'.
    assert (visible p = true) by (apply (Hvis i p Hp); eauto). congruence. }
  split; [| split].
  - intros j s. rewrite players_assign_sprite, Hmap.
    destruct (decide (j = i)) as [->|Hne].
    + rewrite Hp. simpl. intros [= <-]. simpl. split; [| done].
      intros _. exists playerId. apply lookup_insert_eq.
    + intros Hs. rewrite (Hvis j s Hs). split; intros [id' Hid'].
      * exists id'. rewrite lookup_insert_ne; [done | congruence].
      * apply lookup_insert_Some in Hid' as [[_ ?]|[_ Hid']]; [lia | eauto].
  - intros id' j. rewrite Hmap, players_assign_sprite.
    intros Hid'. apply lookup_insert_Some in Hid' as [[_ <-]|[_ Hid']].
    + rewrite decide_True by done. rewrite Hp. by eexists.
    + destruct (decide (j = i)) as [->|Hne]; [by destruct (Hfree id') |].
      by apply (Hin id').
  - intros id1 id2 j. rewrite Hmap. intros H1 H2.
    apply lookup_insert_Some in H1 as [[<- <-]|[Hne1 H1]];
      apply lookup_insert_Some in H2 as [[<- ?]|[Hne2 H2]]; try done.
    + by destruct (Hfree id2).
    + subst j. by destruct (Hfree id1).
    + by apply (Hinj id1 id2 j).
Qed.

Lemma preservesR_addPlayer_ rnd playerId :
  preservesR receiver_inv (addPlayer_ rnd playerId).
Proof.
  intros r [Hcons Hloaded]. rewrite addPlayer_run. cbn [snd].
  destruct (on_screen r playerId) eqn:Hon; [done |].
  destruct (first_free (players_ r) 0 MAX_PLAYERS_) as [i|] eqn:Hfree;
    [| done].
  destruct (first_free_spec _ _ _ _ Hfree) as (_ & (p & Hp & Hoff) & _).
  split; [| done].
  apply (sprites_consistent_assign rnd playerId i r p); try done.
  by apply on_screen_false_unmapped.
Qed.

Lemma sprites_consistent_quit playerId r :
  sprites_consistent r ->
  sprites_consistent
    (set_playerMap (delete playerId (playerMap_ r))
       (match playerMap_ r !! playerId with
        | Some i =>
            set_players
              (alter (fun s => Sprite false (tint s)) i (players_ r)) r
        | None => r
        end)).
Proof.
  intros (Hvis & Hin & Hinj).
  destruct (playerMap_ r !! playerId) as [i|] eqn:Hmap.
  - unfold sprites_consistent.
    cbn [playerMap_ players_ set_playerMap set_players].
    split; [| split].
    + intros j s. destruct (decide (j = i)) as [->|Hne].
      * rewrite list_lookup_alter_eq.
        destruct (players_ r !! i) as [p|]; [| done]. simpl.
        intros [= <-]. simpl. split; [done |]. intros [id' Hid'].
        apply lookup_delete_Some in Hid' as [Hne Hid'].
        destruct Hne. by apply (Hinj playerId id' i).
      * rewrite list_lookup_alter_ne by done. intros Hs.
        rewrite (Hvis j s Hs). split; intros [id' Hid'].
        -- exists id'. rewrite lookup_delete_ne; [done | congruence].
        -- apply lookup_delete_Some in Hid' as [_ Hid']. eauto.
    + intros id' j Hid'. apply lookup_delete_Some in Hid' as [_ Hid'].
      destruct (Hin _ _ Hid') as [s Hs].
      destruct (decide (j = i)) as [->|Hne].
      * rewrite list_lookup_alter_eq, Hs. by eexists.
      * rewrite list_lookup_alter_ne by done. by eexists.
    + intros id1 id2 j H1 H2.
      apply lookup_delete_Some in H1 as [_ H1].
      apply lookup_delete_Some in H2 as [_ H2].
      by apply (Hinj id1 id2 j).
  - unfold sprites_consistent.
    cbn [playerMap_ players_ set_playerMap]. rewrite delete_id by done.
    by split.
Qed.

Lemma onPlayerQuit_run gm e r :
  statusCode e = StatusCode_SUCCESS gm ->
  exists l,
    onPlayerQuit_ gm e r =
    (Normal tt,
     set_effects l
       (set_playerMap (delete (playerInfo_playerId e) (playerMap_ r))
          (match playerMap_ r !! playerInfo_playerId e with
           | Some i =>
               set_players
                 (alter (fun s => Sprite false (tint s)) i (players_ r)) r
           | None => r
           end))).
Proof.
  intros Hok. unfold onPlayerQuit_. rewrite Hok, Z.eqb_refl. cbn [negb].
  unfold bindR, getsR, modifyR, emit, retR.
  destruct (playerMap_ r !! playerInfo_playerId e) as [i|];
    destruct (length (getConnectedPlayers gm) =? 0)%nat;
    eexists; cbn; reflexivity.
Qed.

(** ** What every game object satisfies *)

Lemma preservesR_ret {B} (P : receiver -> Prop) (b : B) :
  preservesR P (retR b).
Proof. by intros r. Qed.

Lemma preservesR_throw {B} (P : receiver -> Prop) e :
  preservesR P (@throwR B e).
Proof. by intros r. Qed.

Lemma preservesR_gets {B} (P : receiver -> Prop) (f : receiver -> B) :
  preservesR P (getsR f).
Proof. by intros r. Qed.

Lemma preservesR_emit e : preservesR receiver_inv (emit e).
Proof. apply preservesR_keeps. by apply keepsR_emit. Qed.

Lemma preservesR_liftG {B} (m : M B) : preservesR receiver_inv (liftG m).
Proof. apply preservesR_keeps. by apply keepsR_liftG. Qed.

Lemma preservesR_modify_core f :
  (forall r, core (f r) = core r) -> preservesR receiver_inv (modifyR f).
Proof. intros H. apply preservesR_keeps. by apply keepsR_modify. Qed.

Lemma preservesR_push_sprite t :
  preservesR receiver_inv
    (modifyR (fun r =>
       set_players (players_ r ++ [Sprite false t])%list r)).
Proof.
  intros r [(Hvis & Hin & Hinj) Hloaded]. split; [| done].
  unfold sprites_consistent. cbn [snd modifyR players_ playerMap_ set_players].
  assert (Hmapped : forall id i, playerMap_ r !! id = Some i ->
            (i < length (players_ r))%nat).
  { intros id i Hid. destruct (Hin _ _ Hid) as [s Hs].
    by apply lookup_lt_Some in Hs. }
  split; [| split].
  - intros j s Hs. apply lookup_snoc_Some in Hs as [[_ Hs]|[-> <-]].
    + by apply Hvis.
    + simpl. split; [done |]. intros [id Hid].
      apply Hmapped in Hid. lia.
  - intros id i Hid. destruct (Hin _ _ Hid) as [s Hs].
    exists s. by apply lookup_app_l_Some.
  - exact Hinj.
Qed.

Ltac preserves_step :=
  first
    [ apply preservesR_ret
    | apply preservesR_throw
    | apply preservesR_gets
    | apply preservesR_emit
    | apply preservesR_liftG
    | apply preservesR_addPlayer_
    | apply preservesR_push_sprite
    | apply preservesR_modify_core; intros ?; reflexivity
    | apply preservesR_forR_each; intros ?
    | apply preservesR_forR_break; intros ?
    | apply preservesR_bind; [| intros ?]
    | case_match ].

Lemma preservesR_log_event_error e :
  preservesR receiver_inv (log_event_error e).
Proof. unfold log_event_error. repeat preserves_step. Qed.

Lemma preservesR_start_ gm rnd : preservesR receiver_inv (start_ gm rnd).
Proof. unfold start_. repeat preserves_step. Qed.

Lemma preservesR_onPlayerQuit_ gm e :
  preservesR receiver_inv (onPlayerQuit_ gm e).
Proof.
  intros r [Hcons Hloaded].
  destruct (decide (statusCode e = StatusCode_SUCCESS gm)) as [Hok|Hbad].
  - destruct (onPlayerQuit_run gm e r Hok) as [l ->]. cbn [snd].
    split.
    + apply (sprites_consistent_quit (playerInfo_playerId e)) in Hcons.
      exact Hcons.
    + cbn. by destruct (playerMap_ r !! playerInfo_playerId e).
  - unfold onPlayerQuit_. apply Z.eqb_neq in Hbad. rewrite Hbad. cbn [negb].
    by apply preservesR_log_event_error.
Qed.

Lemma preservesR_handle gm rnd c : preservesR receiver_inv (handle gm rnd c).
Proof.
  destruct c; cbn [handle].
  - unfold run. repeat first [apply preservesR_start_ | preserves_step].
  - unfold stop. repeat preserves_step.
  - unfold update_. repeat preserves_step.
  - unfold onAssetsLoaded_.
    repeat first [apply preservesR_start_ | preserves_step].
  - unfold imageOnLoad_. repeat preserves_step.
  - unfold onPlayerAvailable_.
    repeat first [apply preservesR_log_event_error | preserves_step].
  - apply preservesR_onPlayerQuit_.
  - unfold onGameMessage_, onPlayerMessage_.
    repeat first [apply preservesR_log_event_error | preserves_step].
Qed.

Lemma receiver_inv_new : receiver_inv new_receiver.
Proof.
  split; [| done]. split; [| split].
  - intros i s Hs. cbn [new_receiver players_] in Hs.
    by rewrite lookup_nil in Hs.
  - intros id i Hid. cbn [new_receiver playerMap_] in Hid.
    by rewrite lookup_empty in Hid.
  - intros id1 id2 i Hid. cbn [new_receiver playerMap_] in Hid.
    by rewrite lookup_empty in Hid.
Qed.

Lemma reachable_receiver_inv rnd r : reachable rnd r -> receiver_inv r.
Proof.
  induction 1 as [|r gm c Hreach IH].
  - apply receiver_inv_new.
  - by apply preservesR_handle.
Qed.

(** X10. Whatever calls the game object receives after its construction
    ([run], [stop], [update_], the loading of the assets and of the image,
    player and game message events), with whatever answers of the SDK and
    whether they complete or throw: a player sprite is on screen exactly
    when some player holds it, every sprite held is one of [players_], no
    two players hold the same sprite, and [isLoaded_] is still false. *)
Theorem reachable_sprites_consistent rnd r :
  reachable rnd r -> sprites_consistent r /\ isLoaded_ r = false.
Proof. apply reachable_receiver_inv. Qed.

Lemma reachable_sprites_consistent_witness :
  let r1 := (handle sample_sdk rnd_first_only (Call_run 7) new_receiver).2 in
  let r2 := (handle sample_sdk rnd_first_only Call_onAssetsLoaded r1).2 in
  let r3 := (handle sample_sdk rnd_first_only
               (Call_onPlayerAvailable (sample_event "bob" "" 0)) r2).2 in
  reachable rnd_first_only r3
  /\ sprites_consistent r3 /\ isLoaded_ r3 = false.
Proof.
  intros r1 r2 r3.
  assert (H : reachable rnd_first_only r3).
  { do 3 apply reachable_call. apply reachable_new. }
  split; [exact H |].
  exact (reachable_sprites_consistent rnd_first_only r3 H).
Defined.

(** ** One sprite for each player, four sprites in all *)

Lemma on_screen_assign_sprite rnd playerId i r p :
  players_ r !! i = Some p ->
  on_screen (assign_sprite rnd playerId i r) playerId = true.
Proof.
  intros Hp. unfold on_screen, sprite_of.
  assert (Hmap : playerMap_ (assign_sprite rnd playerId i r) !! playerId
                 = Some i) by apply lookup_insert_eq.
  rewrite Hmap. simpl option_bind.
  change (match players_ (assign_sprite rnd playerId i r) !! i with
          | Some s => visible s | None => false end = true).
  rewrite players_assign_sprite, decide_True by done. by rewrite Hp.
Qed.

(** X11. Announcing a player a second time changes nothing: after
    [addPlayer_] for a player, a further [addPlayer_] for the same player
    leaves the game object as it is, so a player never holds two sprites
    and no second tint is drawn. *)
Theorem addPlayer__idempotent rnd playerId r :
  addPlayer_ rnd playerId (addPlayer_ rnd playerId r).2 =
  (Normal tt, (addPlayer_ rnd playerId r).2).
Proof.
  rewrite (addPlayer_run rnd playerId r). cbn [snd].
  destruct (on_screen r playerId) eqn:Hon.
  - rewrite addPlayer_run. by rewrite Hon.
  - destruct (first_free (players_ r) 0 MAX_PLAYERS_) as [i|] eqn:Hfree.
    + destruct (first_free_spec _ _ _ _ Hfree) as (_ & (p & Hp & _) & _).
      rewrite addPlayer_run.
      by rewrite (on_screen_assign_sprite rnd playerId i r p Hp).
    + rewrite addPlayer_run. by rewrite Hon, Hfree.
Qed.


Lemma sprite_of_set_effects l r playerId :
  sprite_of (set_effects l r) playerId = sprite_of r playerId.
Proof. reflexivity. Qed.

Lemma sprite_of_set_game g r playerId :
  sprite_of (set_game g r) playerId = sprite_of r playerId.
Proof. reflexivity. Qed.

Lemma onGameMessage__known gm rnd e r player :
  statusCode e = StatusCode_SUCCESS gm ->
  getPlayer gm (playerInfo_playerId e) = Some player ->
  onGameMessage_ gm rnd e r =
  onPlayerMessage_ rnd player (data_rowOrCol e) (data_numRowOrCol e)
    (set_effects
       (effects r ++ [ConsoleLog LogEvent; ConsoleLog LogExtraMessageData])%list
       r).
Proof.
  intros Hok Hknown. unfold onGameMessage_.
  rewrite Hok, Z.eqb_refl, Hknown. cbn [negb].
  unfold bindR at 1. unfold emit at 1. unfold modifyR at 1.
  unfold bindR at 1. unfold emit at 1. unfold modifyR at 1.
  f_equal. unfold set_effects. cbn. f_equal. by rewrite <- app_assoc.
Qed.


Lemma onPlayerMessage__with_sprite rnd player rowOrCol numRowOrCol r s :
  sprite_of r player = Some s -> assets_created r = true ->
  onPlayerMessage_ rnd player rowOrCol numRowOrCol r =
  liftG (flipPieces rowOrCol numRowOrCol)
    (set_effects
       (effects r ++ [ConsoleLog (LogText [Str "onPlayerMessage"; Str rowOrCol;
                                           Str ", "; Num numRowOrCol])])%list
       (set_game (set_random_calls (S (random_calls (game_ r))) (game_ r)) r)).
Proof.
  intros Hs Hassets. unfold onPlayerMessage_.
  unfold bindR at 1. unfold liftG at 1. unfold Math_random.
  unfold bindR at 1. unfold emit at 1. unfold modifyR at 1.
  unfold bindR at 1. unfold getsR at 1.
  rewrite sprite_of_set_effects, sprite_of_set_game, Hs.
  unfold bindR at 1. unfold getsR at 1.
  change (assets_created (set_effects ?l (set_game ?g r)))
    with (assets_created r).
  by rewrite Hassets.
Qed.



(** ** Events that are not carried out *)

(** X13. An event whose status code is not the SDK's success code is only
    logged: [onPlayerAvailable_], [onPlayerQuit_] and [onGameMessage_]
    complete and change nothing of the game object; they write the status
    code and the reason to the console, the game message handler after its
    two logs of the event. *)
Theorem unsuccessful_events_only_log gm rnd e r :
  statusCode e <> StatusCode_SUCCESS gm ->
  let logs :=
    [ ConsoleLog (LogText [Str "Error: Event status code: ";
                           Num (statusCode e)]);
      ConsoleLog (LogText [Str "Reason for error: ";
                           Str (errorDescription e)]) ] in
  onPlayerAvailable_ gm rnd e r
  = (Normal tt, set_effects (effects r ++ logs)%list r)
  /\ onPlayerQuit_ gm e r
     = (Normal tt, set_effects (effects r ++ logs)%list r)
  /\ onGameMessage_ gm rnd e r
     = (Normal tt,
        set_effects
          (effects r ++ [ConsoleLog LogEvent; ConsoleLog LogExtraMessageData]
           ++ logs)%list r).
Proof.
  intros Hbad logs. apply Z.eqb_neq in Hbad.
  unfold onPlayerAvailable_, onPlayerQuit_, onGameMessage_.
  rewrite Hbad. cbn [negb].
  unfold log_event_error, bindR, emit, modifyR, set_effects. cbn.
  repeat split; do 2 f_equal; by rewrite <- ?app_assoc.
Qed.

Lemma unsuccessful_events_only_log_witness :
  let e := Event 3 "timeout" "ann" "ROW" 1 in
  statusCode e <> StatusCode_SUCCESS sample_sdk
  /\ game_ (onGameMessage_ sample_sdk rnd_first_only e new_receiver).2
     = game_ new_receiver.
Proof.
  intros e.
  assert (H : statusCode e <> StatusCode_SUCCESS sample_sdk) by done.
  split; [exact H |].
  destruct (unsuccessful_events_only_log sample_sdk rnd_first_only e
              new_receiver H) as (_ & _ & Hmsg).
  rewrite Hmsg. reflexivity.
Defined.

(** X14. A game message of success from a player that the game manager
    does not know throws the error that names the player id; nothing but
    the two logs of the event has happened by then. *)
Theorem onGameMessage__unknown_player gm rnd e r :
  statusCode e = StatusCode_SUCCESS gm ->
  getPlayer gm (playerInfo_playerId e) = None ->
  onGameMessage_ gm rnd e r =
  (Throw (Error (String.append "No player found for player ID "
                   (playerInfo_playerId e))),
   set_effects
     (effects r ++ [ConsoleLog LogEvent; ConsoleLog LogExtraMessageData])%list
     r).
Proof.
  intros Hok Hunknown. unfold onGameMessage_.
  rewrite Hok, Z.eqb_refl, Hunknown. cbn [negb].
  unfold bindR, emit, modifyR, throwR, set_effects. cbn.
  do 2 f_equal. by rewrite <- app_assoc.
Qed.

Lemma onGameMessage__unknown_player_witness :
  let gm := Sdk 0 (fun _ => None) [] [] in
  let e := sample_event "zed" "COL" 2 in
  statusCode e = StatusCode_SUCCESS gm
  /\ getPlayer gm (playerInfo_playerId e) = None
  /\ (onGameMessage_ gm rnd_first_only e new_receiver).1
     = Throw (Error "No player found for player ID zed").
Proof.
  intros gm e.
  assert (H1 : statusCode e = StatusCode_SUCCESS gm) by reflexivity.
  assert (H2 : getPlayer gm (playerInfo_playerId e) = None) by reflexivity.
  split; [exact H1 |]. split; [exact H2 |].
  rewrite (onGameMessage__unknown_player gm rnd_first_only e new_receiver
             H1 H2).
  reflexivity.
Defined.

(** ** A game message that is carried out *)

(** X15. A game message of success, from a player that the game manager
    knows and that holds a sprite, on a game object whose assets are
    created, draws one random value and then is [flipPieces] on the puzzle:
    it completes or throws as [flipPieces] does and leaves the puzzle as
    [flipPieces] does; the sprites, the map of players and the running
    state are as before. *)
Theorem onGameMessage__flips gm rnd e r player s :
  statusCode e = StatusCode_SUCCESS gm ->
  getPlayer gm (playerInfo_playerId e) = Some player ->
  sprite_of r player = Some s ->
  assets_created r = true ->
  let g1 := set_random_calls (S (random_calls (game_ r))) (game_ r) in
  let flipped_ := flipPieces (data_rowOrCol e) (data_numRowOrCol e) g1 in
  (onGameMessage_ gm rnd e r).1 = flipped_.1
  /\ game_ (onGameMessage_ gm rnd e r).2 = flipped_.2
  /\ players_ (onGameMessage_ gm rnd e r).2 = players_ r
  /\ playerMap_ (onGameMessage_ gm rnd e r).2 = playerMap_ r
  /\ isRunning_ (onGameMessage_ gm rnd e r).2 = isRunning_ r.
Proof.
  intros Hok Hknown Hs Hassets g1 flipped_.
  rewrite (onGameMessage__known gm rnd e r _ Hok Hknown).
  rewrite (onPlayerMessage__with_sprite rnd player _ _ _ s) by done.
  unfold liftG. cbn [game_ set_effects set_game]. fold g1. fold flipped_.
  by destruct flipped_.
Qed.

(** ** A player who comes and goes *)

Lemma addPlayer__keeps {A} (proj : receiver -> A) rnd playerId :
  (forall i r, proj (assign_sprite rnd playerId i r) = proj r) ->
  keepsR proj (addPlayer_ rnd playerId).
Proof.
  intros H r. rewrite addPlayer_run. cbn [snd].
  destruct (on_screen r playerId); [done |].
  by destruct (first_free _ _ _).
Qed.

(** X16. On a game object with consistent sprites, a player who holds no
    sprite, is announced and then quits leaves things as they were: the map
    of players is the same, and the same sprites are on screen. *)
Theorem addPlayer__then_quit gm rnd e r :
  sprites_consistent r ->
  on_screen r (playerInfo_playerId e) = false ->
  statusCode e = StatusCode_SUCCESS gm ->
  let r1 := (addPlayer_ rnd (playerInfo_playerId e) r).2 in
  let r2 := (onPlayerQuit_ gm e r1).2 in
  playerMap_ r2 = playerMap_ r
  /\ visible <$> players_ r2 = visible <$> players_ r.
Proof.
  intros Hcons Hoff Hok r1 r2.
  pose proof (on_screen_false_unmapped r _ Hcons Hoff) as Hnew.
  subst r2. destruct (onPlayerQuit_run gm e r1 Hok) as [l ->]. cbn [snd].
  subst r1. rewrite addPlayer_run. cbn [snd]. rewrite Hoff.
  destruct (first_free (players_ r) 0 MAX_PLAYERS_) as [i|] eqn:Hfree.
  - destruct (first_free_spec _ _ _ _ Hfree) as (_ & (p & Hp & Hinv) & _).
    set (id := playerInfo_playerId e) in *.
    assert (Hmap : playerMap_ (assign_sprite rnd id i r)
                   = <[id := i]> (playerMap_ r)) by done.
    rewrite Hmap, lookup_insert_eq.
    cbn [playerMap_ players_ set_effects set_playerMap set_players].
    rewrite ?Hmap. split; [by apply delete_insert_id |].
    apply list_eq. intros j. rewrite !list_lookup_fmap.
    destruct (decide (j = i)) as [->|Hne].
    + rewrite list_lookup_alter_eq, players_assign_sprite, decide_True by done.
      rewrite Hp. simpl. by rewrite Hinv.
    + rewrite list_lookup_alter_ne by done.
      by rewrite players_assign_sprite, decide_False.
  - rewrite Hnew.
    cbn [playerMap_ players_ set_effects set_playerMap set_players].
    split; [by apply delete_id | done].
Qed.

Lemma addPlayer__then_quit_witness :
  let r := (handle sample_sdk rnd_first_only Call_onAssetsLoaded
              (handle sample_sdk rnd_first_only (Call_run 7)
                 new_receiver).2).2 in
  let e := sample_event "bob" "" 0 in
  sprites_consistent r
  /\ on_screen r (playerInfo_playerId e) = false
  /\ statusCode e = StatusCode_SUCCESS sample_sdk
  /\ playerMap_
       (onPlayerQuit_ sample_sdk e (addPlayer_ rnd_first_only "bob" r).2).2
     = playerMap_ r.
Proof.
  intros r e.
  assert (H1 : sprites_consistent r).
  { apply (reachable_receiver_inv rnd_first_only).
    do 2 apply reachable_call. apply reachable_new. }
  assert (H2 : on_screen r (playerInfo_playerId e) = false).
  { vm_compute. reflexivity. }
  assert (H3 : statusCode e = StatusCode_SUCCESS sample_sdk) by reflexivity.
  split; [exact H1 |]. split; [exact H2 |]. split; [exact H3 |].
  exact (proj1 (addPlayer__then_quit sample_sdk rnd_first_only e r H1 H2 H3)).
Defined.

Lemma onGameMessage__flips_witness :
  let e := sample_event "ann" "ROW" 0 in
  let r' := (onGameMessage_ sample_sdk rnd_first_only e receiver_playing).2 in
  statusCode e = StatusCode_SUCCESS sample_sdk
  /\ getPlayer sample_sdk (playerInfo_playerId e) = Some "ann"
  /\ sprite_of receiver_playing "ann" = Some (Sprite true 0)
  /\ assets_created receiver_playing = true
  /\ players_ r' = players_ receiver_playing
  /\ playerEachFlipCount_ (game_ r') = 1.
Proof.
  intros e r'.
  assert (H1 : statusCode e = StatusCode_SUCCESS sample_sdk) by reflexivity.
  assert (H2 : getPlayer sample_sdk (playerInfo_playerId e) = Some "ann")
    by reflexivity.
  assert (H3 : sprite_of receiver_playing "ann" = Some (Sprite true 0)).
  { vm_compute. reflexivity. }
  assert (H4 : assets_created receiver_playing = true).
  { vm_compute. reflexivity. }
  split; [exact H1 |]. split; [exact H2 |]. split; [exact H3 |].
  split; [exact H4 |].
  destruct (onGameMessage__flips sample_sdk rnd_first_only e receiver_playing
              "ann" (Sprite true 0) H1 H2 H3 H4) as (_ & Hgame & Hplayers & _).
  split; [exact Hplayers |]. unfold r'. rewrite Hgame.
  vm_compute. reflexivity.
Defined.

(** ** Starting and stopping *)

Lemma forR_each_addPlayer_ rnd ids r :
  exists r',
    forR_each ids (addPlayer_ rnd) r = (Normal tt, r')
    /\ effects r' = effects r
    /\ loadedCallback_ r' = loadedCallback_ r
    /\ isRunning_ r' = isRunning_ r.
Proof.
  revert r. induction ids as [|id ids IH]; intros r.
  - by exists r.
  - simpl. rewrite (bindR_normal _ _ r tt (addPlayer_ rnd id r).2).
    2:{ rewrite addPlayer_run. reflexivity. }
    destruct (IH (addPlayer_ rnd id r).2) as (r' & Hrun & He & Hc & Hr).
    exists r'. split; [done |].
    rewrite He, Hc, Hr.
    by rewrite (addPlayer__keeps effects), (addPlayer__keeps loadedCallback_),
      (addPlayer__keeps isRunning_).
Qed.

Lemma start__without_callback gm rnd r :
  loadedCallback_ r = None -> start_ gm rnd r = (Normal tt, r).
Proof. intros H. unfold start_, bindR, getsR. by rewrite H. Qed.

Lemma start__with_callback gm rnd cb r :
  loadedCallback_ r = Some cb ->
  exists r',
    start_ gm rnd r = (Normal tt, r')
    /\ isRunning_ r' = true
    /\ loadedCallback_ r' = None
    /\ effects r' =
       (effects r
        ++ [ ViewAppended; GameplayStateRunning; AnimationFrameRequested;
             LoadedCallbackCalled cb;
             ListenerAdded GAME_MESSAGE_RECEIVED boundGameMessageCallback_;
             ListenerAdded PLAYER_AVAILABLE boundPlayerAvailableCallback_;
             ListenerAdded PLAYER_QUIT boundPlayerQuitCallback_;
             ListenerAdded PLAYER_DROPPED boundPlayerQuitCallback_ ])%list.
Proof.
  intros Hcb. unfold start_.
  unfold bindR at 1. unfold getsR at 1. rewrite Hcb.
  unfold bindR at 1. unfold emit at 1. unfold modifyR at 1.
  unfold bindR at 1. unfold modifyR at 1.
  unfold bindR at 1. unfold emit at 1. unfold modifyR at 1.
  set (r0 := set_effects _ (set_isRunning true (set_effects _ r))).
  destruct (forR_each_addPlayer_ rnd (getPlayers gm) r0)
    as (r1 & Hrun & He & Hc & Hr).
  rewrite (bindR_normal _ _ _ _ _ Hrun).
  unfold bindR, emit, modifyR, getsR. cbn [loadedCallback_ set_effects].
  rewrite Hc. subst r0. cbn [loadedCallback_ set_effects set_isRunning].
  rewrite Hcb. eexists. split; [reflexivity |].
  cbn. rewrite Hr, He. cbn. split; [done |]. split; [done |].
  by rewrite <- !app_assoc.
Qed.

(** X17. On a game object that is not running, [run] stores the callback
    and asks the loader to load; a [stop] that comes before the assets are
    loaded cancels the start: it drops the callback, and when the assets
    arrive [onAssetsLoaded_] creates them and asks for the image, but the
    game does not run, the callback is not called and no listener is
    registered. *)
Theorem stop_cancels_pending_run gm gm' rnd cb r :
  isRunning_ r = false -> isLoaded_ r = false ->
  let r1 := (run gm rnd cb r).2 in
  let r2 := (stop r1).2 in
  let r3 := (onAssetsLoaded_ gm' rnd r2).2 in
  loadedCallback_ r1 = Some cb
  /\ effects r1 = (effects r ++ [LoaderLoad])%list
  /\ loadedCallback_ r2 = None
  /\ effects r2 = effects r1
  /\ (onAssetsLoaded_ gm' rnd r2).1 = Normal tt
  /\ isRunning_ r3 = false
  /\ loadedCallback_ r3 = None
  /\ effects r3 = (effects r2 ++ [ImageRequested])%list.
Proof.
  intros Hstopped Hloaded r1 r2 r3.
  assert (H1 : r1 = set_effects (effects r ++ [LoaderLoad])%list
                      (set_loadedCallback (Some cb) r)).
  { unfold r1, run, bindR, getsR, emit, modifyR.
    rewrite Hstopped. cbn. by rewrite Hloaded. }
  assert (H2 : r2 = set_loadedCallback None r1).
  { unfold r2, stop, bindR, getsR, modifyR. by rewrite H1. }
  assert (H3 : exists r', onAssetsLoaded_ gm' rnd r2 = (Normal tt, r')
                 /\ isRunning_ r' = false /\ loadedCallback_ r' = None
                 /\ effects r' = (effects r2 ++ [ImageRequested])%list).
  { unfold onAssetsLoaded_, bindR, emit, modifyR, liftG, modify, retR.
    cbn [forR_break MAX_PLAYERS_ game_ set_assets_created].
    unfold bindR, modifyR, retR.
    rewrite start__without_callback by (by rewrite H2).
    eexists. split; [reflexivity |]. rewrite H2, H1. cbn.
    by rewrite Hstopped. }
  destruct H3 as (r' & Hrun & Hr & Hc & He).
  unfold r3. rewrite Hrun, H2, H1. cbn [fst snd].
  split; [done |]. split; [done |]. split; [done |]. split; [done |].
  split; [done |]. split; [done |]. split; [done |].
  rewrite He, H2, H1. done.
Qed.

Lemma stop_cancels_pending_run_witness :
  isRunning_ new_receiver = false /\ isLoaded_ new_receiver = false
  /\ isRunning_
       (onAssetsLoaded_ sample_sdk rnd_first_only
          (stop (run sample_sdk rnd_first_only 7 new_receiver).2).2).2
     = false.
Proof.
  assert (H1 : isRunning_ new_receiver = false) by reflexivity.
  assert (H2 : isLoaded_ new_receiver = false) by reflexivity.
  split; [exact H1 |]. split; [exact H2 |].
  destruct (stop_cancels_pending_run sample_sdk sample_sdk rnd_first_only 7
              new_receiver H1 H2) as (_ & _ & _ & _ & _ & Hr & _).
  exact Hr.
Defined.

(** X18. With a callback pending, [start_] completes: the game runs, the
    callback has been called exactly once and is forgotten, the view, the
    gameplay state, one animation frame and the four listeners have been
    set up in that order; a second [start_] does nothing. *)
Theorem start__once gm gm' rnd cb r :
  loadedCallback_ r = Some cb ->
  exists r',
    start_ gm rnd r = (Normal tt, r')
    /\ isRunning_ r' = true
    /\ loadedCallback_ r' = None
    /\ effects r' =
       (effects r
        ++ [ ViewAppended; GameplayStateRunning; AnimationFrameRequested;
             LoadedCallbackCalled cb;
             ListenerAdded GAME_MESSAGE_RECEIVED boundGameMessageCallback_;
             ListenerAdded PLAYER_AVAILABLE boundPlayerAvailableCallback_;
             ListenerAdded PLAYER_QUIT boundPlayerQuitCallback_;
             ListenerAdded PLAYER_DROPPED boundPlayerQuitCallback_ ])%list
    /\ start_ gm' rnd r' = (Normal tt, r').
Proof.
  intros Hcb.
  destruct (start__with_callback gm rnd cb r Hcb) as (r' & Hrun & Hr & Hc & He).
  exists r'. repeat (split; [done |]).
  by apply start__without_callback.
Qed.

Lemma start__once_witness :
  let r := (run sample_sdk rnd_first_only 7 new_receiver).2 in
  loadedCallback_ r = Some 7%nat
  /\ exists r', start_ sample_sdk rnd_first_only r = (Normal tt, r')
                /\ isRunning_ r' = true.
Proof.
  intros r.
  assert (H : loadedCallback_ r = Some 7%nat) by reflexivity.
  split; [exact H |].
  destruct (start__once sample_sdk sample_sdk rnd_first_only 7%nat r H)
    as (r' & Hrun & Hr & _).
  exists r'. split; [exact Hrun | exact Hr].
Defined.

(** X19. [stop] on a running game with no callback pending ends the run:
    the view and the four listeners are removed, in that order; after it
    [update_] asks for no further animation frame and renders nothing, and
    a second [stop] changes nothing. *)
Theorem stop_running_game r :
  isRunning_ r = true -> loadedCallback_ r = None ->
  let r1 := (stop r).2 in
  stop r = (Normal tt, r1)
  /\ isRunning_ r1 = false
  /\ effects r1 =
     (effects r
      ++ [ ViewRemoved;
           ListenerRemoved GAME_MESSAGE_RECEIVED boundGameMessageCallback_;
           ListenerRemoved PLAYER_AVAILABLE boundPlayerAvailableCallback_;
           ListenerRemoved PLAYER_QUIT boundPlayerQuitCallback_;
           ListenerRemoved PLAYER_DROPPED boundPlayerQuitCallback_ ])%list
  /\ update_ r1 = (Normal tt, r1)
  /\ stop r1 = (Normal tt, r1).
Proof.
  intros Hrun Hcb r1.
  assert (H1 : stop r =
            (Normal tt,
             set_effects
               (effects r
                ++ [ ViewRemoved;
                     ListenerRemoved GAME_MESSAGE_RECEIVED
                       boundGameMessageCallback_;
                     ListenerRemoved PLAYER_AVAILABLE
                       boundPlayerAvailableCallback_;
                     ListenerRemoved PLAYER_QUIT boundPlayerQuitCallback_;
                     ListenerRemoved PLAYER_DROPPED
                       boundPlayerQuitCallback_ ])%list
               (set_isRunning false r))).
  { unfold stop, bindR, getsR, emit, modifyR. rewrite Hcb, Hrun. cbn.
    unfold set_effects. cbn. do 2 f_equal. by rewrite <- !app_assoc. }
  unfold r1. rewrite H1. cbn [snd].
  split; [done |]. split; [done |]. split; [done |]. split.
  - reflexivity.
  - unfold stop, bindR, getsR, modifyR. cbn. rewrite Hcb. cbn.
    unfold set_loadedCallback, set_effects, set_isRunning. cbn.
    by rewrite Hcb.
Qed.

Lemma stop_running_game_witness :
  isRunning_ receiver_playing = true
  /\ loadedCallback_ receiver_playing = None
  /\ isRunning_ (stop receiver_playing).2 = false
  /\ update_ (stop receiver_playing).2 = (Normal tt, (stop receiver_playing).2).
Proof.
  assert (H1 : isRunning_ receiver_playing = true).
  { vm_compute. reflexivity. }
  assert (H2 : loadedCallback_ receiver_playing = None).
  { vm_compute. reflexivity. }
  split; [exact H1 |]. split; [exact H2 |].
  destruct (stop_running_game receiver_playing H1 H2)
    as (_ & Hr & _ & Hupdate & _).
  split; [exact Hr | exact Hupdate].
Defined.

(** X20. Since no method ever sets [isLoaded_], [run] on a game object that
    is not running, at any point of its life, never starts the game itself:
    it stores the callback and asks the loader to load, also when the
    assets had been loaded before. *)
Theorem run_always_loads rnd gm cb r :
  reachable rnd r -> isRunning_ r = false ->
  run gm rnd cb r =
  (Normal tt,
   set_effects (effects r ++ [LoaderLoad])%list
     (set_loadedCallback (Some cb) r)).
Proof.
  intros Hreach Hstopped.
  destruct (reachable_receiver_inv rnd r Hreach) as [_ Hloaded].
  unfold run, bindR, getsR, emit, modifyR. rewrite Hstopped. cbn.
  by rewrite Hloaded.
Qed.

Lemma run_always_loads_witness :
  let r :=
    (handle sample_sdk rnd_first_only Call_stop
       (handle sample_sdk rnd_first_only (Call_imageOnLoad 1)
          (handle sample_sdk rnd_first_only Call_onAssetsLoaded
             (handle sample_sdk rnd_first_only (Call_run 7)
                new_receiver).2).2).2).2 in
  reachable rnd_first_only r /\ isRunning_ r = false
  /\ (run sample_sdk rnd_first_only 8 r).1 = Normal tt.
Proof.
  intros r.
  assert (H1 : reachable rnd_first_only r).
  { do 4 apply reachable_call. apply reachable_new. }
  assert (H2 : isRunning_ r = false).
  { vm_compute. reflexivity. }
  split; [exact H1 |]. split; [exact H2 |].
  rewrite (run_always_loads rnd_first_only sample_sdk 8%nat r H1 H2).
  reflexivity.
Defined.
